(** * Futsal Leaderboard API: a shallow embedding of [main.py]

    The handlers of [main.py] are embedded as computations over the
    MongoDB handle [db]: a state-and-exception monad whose state is the
    (possibly unconfigured) database and whose exceptions are the ones
    the handlers and the driver raise.  Collections are lists of typed
    documents in insertion order; the aggregation stages used by the
    leaderboards ([$match], [$unwind], [$project], [$group],
    [$addFields], [$sort], [$limit]) are list transformers.

    A handler takes as [now] the reading of [datetime.utcnow()] of its
    call.  Responses are the stored documents themselves:
    [serialize_doc] only renames [_id] and prints identifiers, and
    [str] of an [ObjectId] is one-to-one. *)

From Stdlib Require Import List ZArith NArith String Ascii Bool Lia Permutation
  Sorted.
Import ListNotations.

Local Open Scope string_scope.
Local Open Scope Z_scope.

(** ** Exceptions and results *)

Inductive Exception : Type :=
| HTTPException (status_code : Z) (detail : string)
| OperationFailure
| OverflowError
| InvalidDocument.

Inductive result (A : Type) : Type :=
| Ok (a : A)
| Raise (e : Exception).

Arguments Ok {A} a.
Arguments Raise {A} e.

(** ** ObjectId

    A [bson.ObjectId] holds the bytes that [ObjectId(id_str)] reads
    from its argument: the string must have 24 characters and
    [bytes.fromhex] must accept it, anything else raises.
    [bytes.fromhex] reads two hexadecimal digits per byte and skips
    ASCII whitespace between bytes, so 24 hexadecimal digits give the
    usual twelve bytes and 24 characters with whitespace among them
    give fewer.  Two identifiers are equal when their bytes are.

    Here an identifier is a number: twelve bytes are the number they
    spell, below [2 ^ 96], and every shorter byte string has a number
    of its own from [2 ^ 96] on. *)

Definition ObjectId : Type := N.

Definition hex_digit (c : ascii) : option N :=
  let n := N_of_ascii c in
  if (48 <=? n)%N && (n <=? 57)%N then Some (n - 48)%N
  else if (97 <=? n)%N && (n <=? 102)%N then Some (n - 87)%N
  else if (65 <=? n)%N && (n <=? 70)%N then Some (n - 55)%N
  else None.

(** The characters that [bytes.fromhex] skips: space, and tab to
    carriage return. *)
Definition is_space (c : ascii) : bool :=
  let n := N_of_ascii c in
  (n =? 32)%N || ((9 <=? n)%N && (n <=? 13)%N).

(** [bytes.fromhex]: whitespace is skipped where a byte may start; the
    two digits of a byte follow each other.  [top] is the first digit
    of the byte being read, if any. *)
Fixpoint fromhex (s : string) (top : option N) : option (list N) :=
  match s with
  | EmptyString =>
      match top with
      | None => Some []
      | Some _ => None
      end
  | String c s' =>
      match top with
      | Some t =>
          match hex_digit c with
          | Some b => option_map (cons (16 * t + b)%N) (fromhex s' None)
          | None => None
          end
      | None =>
          if is_space c then fromhex s' None
          else match hex_digit c with
               | Some t => fromhex s' (Some t)
               | None => None
               end
      end
  end.

(** The number that the bytes spell, first byte first. *)
Definition bytes_value (bs : list N) : N :=
  fold_left (fun a b => (256 * a + b)%N) bs 0%N.

Definition ObjectId_of_bytes (bs : list N) : ObjectId :=
  if Nat.eqb (List.length bs) 12 then bytes_value bs
  else (2 ^ 96 + 2 ^ (8 * N.of_nat (List.length bs)) + bytes_value bs)%N.

Definition ObjectId_of_str (s : string) : option ObjectId :=
  if Nat.eqb (String.length s) 24
  then option_map ObjectId_of_bytes (fromhex s None)
  else None.

Definition invalid_id (id_str : string) : Exception :=
  HTTPException 400 ("Invalid id: " ++ id_str).

(** [to_object_id] at a string argument. *)
Definition to_object_id_str (id_str : string) : result ObjectId :=
  match ObjectId_of_str id_str with
  | Some o => Ok o
  | None => Raise (invalid_id id_str)
  end.

Definition to_object_id (id_str : option string) : result (option ObjectId) :=
  match id_str with
  | None => Ok None
  | Some s =>
      match to_object_id_str s with
      | Ok o => Ok (Some o)
      | Raise e => Raise e
      end
  end.

(** An optional identifier field of a stored document.  The handlers
    convert such a field only when it is truthy, so a stored field is
    [None], the empty string, or an [ObjectId]. *)
Inductive IdField : Type :=
| IdNone
| IdEmpty
| IdOid (o : ObjectId).

Definition IdField_eqb (a b : IdField) : bool :=
  match a, b with
  | IdNone, IdNone => true
  | IdEmpty, IdEmpty => true
  | IdOid x, IdOid y => N.eqb x y
  | _, _ => false
  end.

(** [if data.get(f): data[f] = to_object_id(data[f])] *)
Definition convert_id (f : option string) : result IdField :=
  match f with
  | None => Ok IdNone
  | Some s =>
      if String.eqb s EmptyString then Ok IdEmpty
      else match to_object_id_str s with
           | Ok o => Ok (IdOid o)
           | Raise e => Raise e
           end
  end.

(** Truthiness of an optional string ([if country:]). *)
Definition truthy (s : option string) : option string :=
  match s with
  | Some v => if String.eqb v EmptyString then None else Some v
  | None => None
  end.

(** ** Documents *)

Record TeamCreate : Type := mkTeamCreate {
  name : string;
  country : string;
  city : string;
  coach : option string;
  logo_url : option string
}.

Record TeamDoc : Type := mkTeamDoc {
  t_id : ObjectId;
  t_name : string;
  t_country : string;
  t_city : string;
  t_coach : option string;
  t_logo_url : option string;
  t_created_at : Z;
  t_updated_at : Z
}.

Inductive Position : Type := GK | DEF | MID | FWD.

Record PlayerCreate : Type := mkPlayerCreate {
  pc_name : string;
  pc_position : Position;
  pc_team_id : option string;
  pc_number : option Z;
  pc_country : option string;
  pc_city : option string;
  pc_avatar_url : option string
}.

Record PlayerDoc : Type := mkPlayerDoc {
  p_id : ObjectId;
  p_name : string;
  p_position : Position;
  p_team_id : IdField;
  p_number : option Z;
  p_country : option string;
  p_city : option string;
  p_avatar_url : option string;
  p_created_at : Z;
  p_updated_at : Z
}.

Inductive EventType : Type :=
| goal | assist | yellow | red | own_goal | substitution.

Definition EventType_eqb (a b : EventType) : bool :=
  match a, b with
  | goal, goal | assist, assist | yellow, yellow
  | red, red | own_goal, own_goal | substitution, substitution => true
  | _, _ => false
  end.

Record EventCreate : Type := mkEventCreate {
  ec_type : EventType;
  ec_team_id : option string;
  ec_player_id : option string;
  ec_secondary_player_id : option string;
  ec_minute : option Z;
  ec_notes : option string
}.

Record Event : Type := mkEvent {
  e_type : EventType;
  e_team_id : IdField;
  e_player_id : IdField;
  e_secondary_player_id : IdField;
  e_minute : option Z;
  e_notes : option string;
  e_timestamp : Z
}.

Record MatchStart : Type := mkMatchStart {
  ms_home_team_id : string;
  ms_away_team_id : string
}.

Record MatchDoc : Type := mkMatchDoc {
  m_id : ObjectId;
  home_team_id : ObjectId;
  away_team_id : ObjectId;
  started_at : Z;
  ended_at : option Z;
  events : list Event;
  home_score : Z;
  away_score : Z;
  winner_team_id : option ObjectId
}.

(** ** The database *)

Record Database : Type := mkDatabase {
  db_team : list TeamDoc;
  db_player : list PlayerDoc;
  db_match : list MatchDoc;
  next_oid : ObjectId
}.

Definition empty_db : Database := mkDatabase [] [] [] 1%N.

(** [collection.find_one(filter)]: the first matching document. *)
Definition find_one {A : Type} (p : A -> bool) (coll : list A) : option A :=
  List.find p coll.

(** [collection.find(filter)]: every matching document, in order. *)
Definition find_all {A : Type} (p : A -> bool) (coll : list A) : list A :=
  List.filter p coll.

(** [collection.update_one(filter, update)]: the first matching document
    is updated, the others are left alone. *)
Fixpoint update_one {A : Type} (p : A -> bool) (f : A -> A) (coll : list A)
  : list A :=
  match coll with
  | [] => []
  | x :: tl => if p x then f x :: tl else x :: update_one p f tl
  end.

(** ** The handler monad *)

Definition App (A : Type) : Type :=
  option Database -> result A * option Database.

Definition ret {A : Type} (a : A) : App A := fun s => (Ok a, s).

Definition raise {A : Type} (e : Exception) : App A := fun s => (Raise e, s).

Definition bind {A B : Type} (m : App A) (f : A -> App B) : App B :=
  fun s =>
    match m s with
    | (Ok a, s') => f a s'
    | (Raise e, s') => (Raise e, s')
    end.

Definition lift {A : Type} (r : result A) : App A := fun s => (r, s).

Notation "x <- m ;; k" := (bind m (fun x => k))
  (at level 61, m at next level, right associativity).
Notation "m ;;; k" := (bind m (fun _ => k))
  (at level 61, right associativity).

(** [if db is None: raise HTTPException(500, ...)] *)
Definition require_db : App Database :=
  fun s =>
    match s with
    | Some d => (Ok d, s)
    | None => (Raise (HTTPException 500 "Database not configured"), s)
    end.

Definition put_db (d : Database) : App unit := fun _ => (Ok tt, Some d).

Definition not_found : Exception := HTTPException 404 "Match not found".

(** ** Teams *)

(** Modelled from the spec: [create_document] of the [database] module,
    which [main.py] imports and which is not part of the sources.  The
    entity store "provides create" of a record: the document is stored
    in the named collection under a fresh identity, with its creation
    timestamps, and its identity is returned. *)
Definition create_document_team (now : Z) (team : TeamCreate) : App ObjectId :=
  d <- require_db ;;
  let oid := next_oid d in
  let doc := mkTeamDoc oid (name team) (country team) (city team)
                       (coach team) (logo_url team) now now in
  put_db (mkDatabase (db_team d ++ [doc]) (db_player d) (db_match d)
                     (N.succ oid)) ;;;
  ret oid.

Definition team_key_eqb (n c ci : string) (t : TeamDoc) : bool :=
  String.eqb (t_name t) n && String.eqb (t_country t) c
  && String.eqb (t_city t) ci.

Definition team_conflict : Exception :=
  HTTPException 400 "Team already exists in this city".

Definition create_team (now : Z) (team : TeamCreate) : App (option TeamDoc) :=
  d <- require_db ;;
  match find_one (team_key_eqb (name team) (country team) (city team))
                 (db_team d) with
  | Some _ => raise team_conflict
  | None =>
      team_id <- create_document_team now team ;;
      d' <- require_db ;;
      ret (find_one (fun t => N.eqb (t_id t) team_id) (db_team d'))
  end.

(** ** Players *)

Definition create_player (now : Z) (player : PlayerCreate)
  : App (option PlayerDoc) :=
  d <- require_db ;;
  team_id <- lift (convert_id (pc_team_id player)) ;;
  let pid := next_oid d in
  let doc := mkPlayerDoc pid (pc_name player) (pc_position player) team_id
                         (pc_number player) (pc_country player)
                         (pc_city player) (pc_avatar_url player) now now in
  put_db (mkDatabase (db_team d) (db_player d ++ [doc]) (db_match d)
                     (N.succ pid)) ;;;
  d' <- require_db ;;
  ret (find_one (fun p => N.eqb (p_id p) pid) (db_player d')).

(** ** Matches and events *)

Definition set_matches (d : Database) (ms : list MatchDoc) : Database :=
  mkDatabase (db_team d) (db_player d) ms (next_oid d).

Definition start_match (now : Z) (payload : MatchStart) : App MatchDoc :=
  d <- require_db ;;
  home <- lift (to_object_id_str (ms_home_team_id payload)) ;;
  away <- lift (to_object_id_str (ms_away_team_id payload)) ;;
  let mid := next_oid d in
  let m := mkMatchDoc mid home away now None [] 0 0 None in
  put_db (mkDatabase (db_team d) (db_player d) (db_match d ++ [m])
                     (N.succ mid)) ;;;
  ret m.

Definition has_id (oid : ObjectId) (m : MatchDoc) : bool := N.eqb (m_id m) oid.

(** The update documents of [add_event]. *)
Definition push_event (ev : Event) (m : MatchDoc) : MatchDoc :=
  mkMatchDoc (m_id m) (home_team_id m) (away_team_id m) (started_at m)
             (ended_at m) (events m ++ [ev]) (home_score m) (away_score m)
             (winner_team_id m).

Definition inc_home_score (m : MatchDoc) : MatchDoc :=
  mkMatchDoc (m_id m) (home_team_id m) (away_team_id m) (started_at m)
             (ended_at m) (events m) (home_score m + 1) (away_score m)
             (winner_team_id m).

Definition inc_away_score (m : MatchDoc) : MatchDoc :=
  mkMatchDoc (m_id m) (home_team_id m) (away_team_id m) (started_at m)
             (ended_at m) (events m) (home_score m) (away_score m + 1)
             (winner_team_id m).

Definition inc_home_push (ev : Event) (m : MatchDoc) : MatchDoc :=
  push_event ev (inc_home_score m).

Definition inc_away_push (ev : Event) (m : MatchDoc) : MatchDoc :=
  push_event ev (inc_away_score m).

Definition match_update_one (oid : ObjectId) (u : MatchDoc -> MatchDoc)
  : App unit :=
  d <- require_db ;;
  put_db (set_matches d (update_one (has_id oid) u (db_match d))).

Definition add_event (now : Z) (match_id : string) (event : EventCreate)
  : App (option MatchDoc) :=
  d <- require_db ;;
  oid <- lift (to_object_id_str match_id) ;;
  match find_one (has_id oid) (db_match d) with
  | None => raise not_found
  | Some m =>
      ev_team <- lift (convert_id (ec_team_id event)) ;;
      ev_player <- lift (convert_id (ec_player_id event)) ;;
      ev_secondary <- lift (convert_id (ec_secondary_player_id event)) ;;
      let ev := mkEvent (ec_type event) ev_team ev_player ev_secondary
                        (ec_minute event) (ec_notes event) now in
      let home_id := IdOid (home_team_id m) in
      let away_id := IdOid (away_team_id m) in
      (match ec_type event with
       | goal =>
           if IdField_eqb (e_team_id ev) home_id
           then match_update_one (m_id m) (inc_home_push ev)
           else if IdField_eqb (e_team_id ev) away_id
           then match_update_one (m_id m) (inc_away_push ev)
           else match_update_one (m_id m) (push_event ev)
       | own_goal =>
           if IdField_eqb (e_team_id ev) home_id
           then match_update_one (m_id m) (inc_away_push ev)
           else if IdField_eqb (e_team_id ev) away_id
           then match_update_one (m_id m) (inc_home_push ev)
           else match_update_one (m_id m) (push_event ev)
       | _ => match_update_one (m_id m) (push_event ev)
       end) ;;;
      d2 <- require_db ;;
      ret (find_one (has_id (m_id m)) (db_match d2))
  end.

Definition set_ended (now : Z) (winner : option ObjectId) (m : MatchDoc)
  : MatchDoc :=
  mkMatchDoc (m_id m) (home_team_id m) (away_team_id m) (started_at m)
             (Some now) (events m) (home_score m) (away_score m) winner.

Definition end_match (now : Z) (match_id : string) : App (option MatchDoc) :=
  d <- require_db ;;
  oid <- lift (to_object_id_str match_id) ;;
  match find_one (has_id oid) (db_match d) with
  | None => raise not_found
  | Some m =>
      let winner :=
        if home_score m >? away_score m then Some (home_team_id m)
        else if away_score m >? home_score m then Some (away_team_id m)
        else None in
      match_update_one (m_id m) (set_ended now winner) ;;;
      d2 <- require_db ;;
      ret (find_one (has_id (m_id m)) (db_match d2))
  end.

Definition get_match (match_id : string) : App MatchDoc :=
  d <- require_db ;;
  oid <- lift (to_object_id_str match_id) ;;
  match find_one (has_id oid) (db_match d) with
  | None => raise not_found
  | Some m => ret m
  end.

(** ** Aggregation stages *)

Section Group.
Context {K V : Type}.
Variable keq : K -> K -> bool.
Variable vadd : V -> V -> V.

(** One step of [$group]: the row joins the group of its key, or
    opens a new group after the existing ones. *)
Fixpoint upsert (k : K) (v : V) (acc : list (K * V)) : list (K * V) :=
  match acc with
  | [] => [(k, v)]
  | (k', v') :: tl =>
      if keq k' k then (k', vadd v' v) :: tl
      else (k', v') :: upsert k v tl
  end.

(** [$group] with [$sum] accumulators.  MongoDB leaves the order of
    the groups open; here they come in order of first occurrence. *)
Definition mongo_group (rows : list (K * V)) : list (K * V) :=
  fold_left (fun acc kv => upsert (fst kv) (snd kv) acc) rows [].
End Group.

Section Sort.
Context {A : Type}.
Variable key : A -> Z.

Fixpoint insert_desc (x : A) (l : list A) : list A :=
  match l with
  | [] => [x]
  | y :: tl => if key y <=? key x then x :: y :: tl
               else y :: insert_desc x tl
  end.

(** [$sort: {key: -1}], as a stable sort. *)
Definition sort_desc (l : list A) : list A :=
  fold_right insert_desc [] l.
End Sort.

Definition int64_max : Z := 9223372036854775807.
Definition int64_min : Z := -9223372036854775808.

(** [$limit]: the driver encodes integers of at most eight bytes, and
    the server rejects a limit that is not positive. *)
Definition mongo_limit {A : Type} (limit : Z) (rows : list A)
  : result (list A) :=
  if (limit >? int64_max) || (limit <? int64_min)
  then Raise OverflowError
  else if limit <=? 0
  then Raise OperationFailure
  else Ok (firstn (Z.to_nat limit) rows).

Definition oid_in (o : ObjectId) (ids : list ObjectId) : bool :=
  existsb (N.eqb o) ids.

(** ** Leaderboards *)

Inductive Scope : Type := ScopeGlobal | ScopeCountry | ScopeCity.

Definition Scope_eqb (a b : Scope) : bool :=
  match a, b with
  | ScopeGlobal, ScopeGlobal | ScopeCountry, ScopeCountry
  | ScopeCity, ScopeCity => true
  | _, _ => false
  end.

(** A filter dictionary on [country] and [city]; an absent key is
    [None]. *)
Record GeoFilter : Type := mkGeoFilter {
  f_country : option string;
  f_city : option string
}.

Definition filter_is_empty (f : GeoFilter) : bool :=
  match f_country f, f_city f with
  | None, None => true
  | _, _ => false
  end.

Definition key_matches (k : option string) (v : option string) : bool :=
  match k with
  | None => true
  | Some x => match v with Some y => String.eqb y x | None => false end
  end.

Definition team_matches (f : GeoFilter) (t : TeamDoc) : bool :=
  key_matches (f_country f) (Some (t_country t))
  && key_matches (f_city f) (Some (t_city t)).

Definition player_matches (f : GeoFilter) (p : PlayerDoc) : bool :=
  key_matches (f_country f) (p_country p)
  && key_matches (f_city f) (p_city p).

(** *** Teams *)

Inductive TeamStat : Type := StatTeamGoals | StatTeamWins | StatTeamPoints.

Record Pair : Type := mkPair {
  pair_team : ObjectId;
  goals_for : Z;
  goals_against : Z;
  win : Z;
  draw : Z
}.

Record TeamAgg : Type := mkTeamAgg {
  agg_id : ObjectId;
  agg_goals : Z;
  agg_wins : Z;
  agg_draws : Z;
  agg_points : Z
}.

Record TeamRow : Type := mkTeamRow {
  row_team_id : ObjectId;
  row_team_name : string;
  row_country : string;
  row_city : string;
  row_goals : Z;
  row_wins : Z;
  row_points : Z
}.

Definition cond (b : bool) : Z := if b then 1 else 0.

(** The second [$project] stage. *)
Definition pairs (m : MatchDoc) : list Pair :=
  [ mkPair (home_team_id m) (home_score m) (away_score m)
           (cond (home_score m >? away_score m))
           (cond (home_score m =? away_score m));
    mkPair (away_team_id m) (away_score m) (home_score m)
           (cond (away_score m >? home_score m))
           (cond (home_score m =? away_score m)) ].

(** [match_filter]: [None] is the empty filter, [Some team_ids] the
    [$or] of the two [$in] conditions. *)
Definition stage_match (match_filter : option (list ObjectId))
  (ms : list MatchDoc) : list MatchDoc :=
  match match_filter with
  | None => ms
  | Some team_ids =>
      filter (fun m => oid_in (home_team_id m) team_ids
                       || oid_in (away_team_id m) team_ids) ms
  end.

Definition sum3 (a b : Z * Z * Z) : Z * Z * Z :=
  let '(g1, w1, d1) := a in
  let '(g2, w2, d2) := b in
  (g1 + g2, w1 + w2, d1 + d2).

Definition group_teams (ps : list Pair) : list (ObjectId * (Z * Z * Z)) :=
  mongo_group N.eqb sum3
    (map (fun p => (pair_team p, (goals_for p, win p, draw p))) ps).

Definition add_points (g : ObjectId * (Z * Z * Z)) : TeamAgg :=
  let '(t, (gs, ws, ds)) := g in
  mkTeamAgg t gs ws ds (ws * 3 + ds).

Definition team_stat_key (stat : TeamStat) (r : TeamAgg) : Z :=
  match stat with
  | StatTeamGoals => agg_goals r
  | StatTeamWins => agg_wins r
  | StatTeamPoints => agg_points r
  end.

(** The pipeline of [leaderboard_teams].  Its first [$project] keeps
    the five fields the second one reads and is the identity here. *)
Definition team_pipeline (match_filter : option (list ObjectId))
  (stat : TeamStat) (limit : Z) (ms : list MatchDoc) : result (list TeamAgg) :=
  let candidates := stage_match match_filter ms in
  let unwound := flat_map pairs candidates in
  let grouped := map add_points (group_teams unwound) in
  mongo_limit limit (sort_desc (team_stat_key stat) grouped).

(** The join loop: rows whose team is not found are skipped. *)
Definition join_team (d : Database) (r : TeamAgg) : list TeamRow :=
  match find_one (fun t => N.eqb (t_id t) (agg_id r)) (db_team d) with
  | None => []
  | Some team =>
      [ mkTeamRow (agg_id r) (t_name team) (t_country team) (t_city team)
                  (agg_goals r) (agg_wins r) (agg_points r) ]
  end.

(** [leaderboard_teams] from [pipeline = ...] on: the aggregation and
    the join with the team collection. *)
Definition teams_aggregate (match_filter : option (list ObjectId))
  (stat : TeamStat) (limit : Z) : App (list TeamRow) :=
  d <- require_db ;;
  rows <- lift (team_pipeline match_filter stat limit (db_match d)) ;;
  ret (flat_map (join_team d) rows).

Definition team_filter (scope : Scope) (country city : option string)
  : GeoFilter :=
  mkGeoFilter (truthy country)
              (if Scope_eqb scope ScopeCity then truthy city else None).

Definition leaderboard_teams (scope : Scope) (country city : option string)
  (stat : TeamStat) (limit : Z) : App (list TeamRow) :=
  d <- require_db ;;
  match scope with
  | ScopeCountry | ScopeCity =>
      let team_ids :=
        map t_id (find_all (team_matches (team_filter scope country city))
                           (db_team d)) in
      match team_ids with
      | [] => ret []
      | _ :: _ => teams_aggregate (Some team_ids) stat limit
      end
  | ScopeGlobal => teams_aggregate None stat limit
  end.

(** *** Players *)

Inductive PlayerStat : Type := StatGoals | StatAssists | StatYellow | StatRed.

Record PlayerRow : Type := mkPlayerRow {
  row_player_id : ObjectId;
  row_player_name : string;
  row_player_team : option string;
  row_count : Z;
  row_player_country : option string;
  row_player_city : option string
}.

Definition player_filter (scope : Scope) (country city : option string)
  : GeoFilter :=
  mkGeoFilter
    (if Scope_eqb scope ScopeCountry then truthy country else None)
    (if Scope_eqb scope ScopeCity then truthy city else None).

(** [$unwind: "$events"] over the whole match collection. *)
Definition unwind_events (ms : list MatchDoc) : list Event :=
  flat_map events ms.

Definition type_in (ts : list EventType) (e : Event) : bool :=
  existsb (EventType_eqb (e_type e)) ts.

(** The [$project] of the assists branch. *)
Definition pid (e : Event) : IdField :=
  if EventType_eqb (e_type e) goal then e_secondary_player_id e
  else e_player_id e.

Definition count_by (key : Event -> IdField) (es : list Event)
  : list (IdField * Z) :=
  mongo_group IdField_eqb Z.add (map (fun e => (key e, 1)) es).

Definition stat_type (stat : PlayerStat) : EventType :=
  match stat with
  | StatGoals => goal
  | StatAssists => assist
  | StatYellow => yellow
  | StatRed => red
  end.

(** The pipeline of [leaderboard_players] up to its [$group].  The
    [{"$match": {}}] stages, the initial one and the placeholder put in
    front when [player_ids] is set, keep every document. *)
Definition player_groups (stat : PlayerStat) (ms : list MatchDoc)
  : list (IdField * Z) :=
  let es := filter (type_in [goal; assist; yellow; red]) (unwind_events ms) in
  match stat with
  | StatGoals => count_by e_player_id (filter (type_in [goal]) es)
  | StatAssists => count_by pid (filter (type_in [assist; goal]) es)
  | _ => count_by e_player_id (filter (type_in [stat_type stat]) es)
  end.

Definition player_pipeline (stat : PlayerStat) (limit : Z)
  (ms : list MatchDoc) : result (list (IdField * Z)) :=
  mongo_limit limit (sort_desc snd (player_groups stat ms)).

(** [r["_id"] in set(player_ids)] *)
Definition id_in (i : IdField) (ids : list ObjectId) : bool :=
  match i with
  | IdOid o => oid_in o ids
  | _ => false
  end.

Definition keep_scoped (player_ids : option (list ObjectId))
  (rows : list (IdField * Z)) : list (IdField * Z) :=
  match player_ids with
  | None => rows
  | Some ids => filter (fun r => id_in (fst r) ids) rows
  end.

(** The join loop: rows without a player identity, or whose player is
    not found, are skipped; the team is looked up from the player's
    present [team_id]. *)
Definition join_player (d : Database) (r : IdField * Z) : list PlayerRow :=
  match fst r with
  | IdOid o =>
      match find_one (fun p => N.eqb (p_id p) o) (db_player d) with
      | None => []
      | Some p =>
          let team :=
            match p_team_id p with
            | IdOid t => find_one (fun x => N.eqb (t_id x) t) (db_team d)
            | _ => None
            end in
          [ mkPlayerRow o (p_name p) (option_map t_name team) (snd r)
                        (p_country p) (p_city p) ]
      end
  | _ => []
  end.

(** [leaderboard_players] from the aggregation on: the pipeline runs
    to its [$limit]; only then are the rows outside [player_ids]
    dropped and the remaining rows joined with their players. *)
Definition players_aggregate (player_ids : option (list ObjectId))
  (stat : PlayerStat) (limit : Z) : App (list PlayerRow) :=
  d <- require_db ;;
  rows <- lift (player_pipeline stat limit (db_match d)) ;;
  ret (flat_map (join_player d) (keep_scoped player_ids rows)).

Definition leaderboard_players (scope : Scope) (country city : option string)
  (stat : PlayerStat) (limit : Z) : App (list PlayerRow) :=
  d <- require_db ;;
  let pf := player_filter scope country city in
  if filter_is_empty pf then players_aggregate None stat limit
  else
    let player_ids := map p_id (find_all (player_matches pf) (db_player d)) in
    match player_ids with
    | [] => ret []
    | _ :: _ => players_aggregate (Some player_ids) stat limit
    end.

(** ** Request sequences *)

Inductive Request : Type :=
| CreateTeam (team : TeamCreate)
| CreatePlayer (player : PlayerCreate)
| StartMatch (payload : MatchStart)
| AddEvent (match_id : string) (event : EventCreate)
| EndMatch (match_id : string)
| GetMatch (match_id : string)
| LeaderboardTeams (scope : Scope) (country city : option string)
    (stat : TeamStat) (limit : Z)
| LeaderboardPlayers (scope : Scope) (country city : option string)
    (stat : PlayerStat) (limit : Z).

(** The state after one request served at time [now]. *)
Definition serve (now : Z) (r : Request) (s : option Database)
  : option Database :=
  match r with
  | CreateTeam team => snd (create_team now team s)
  | CreatePlayer player => snd (create_player now player s)
  | StartMatch payload => snd (start_match now payload s)
  | AddEvent match_id event => snd (add_event now match_id event s)
  | EndMatch match_id => snd (end_match now match_id s)
  | GetMatch match_id => snd (get_match match_id s)
  | LeaderboardTeams scope country city stat limit =>
      snd (leaderboard_teams scope country city stat limit s)
  | LeaderboardPlayers scope country city stat limit =>
      snd (leaderboard_players scope country city stat limit s)
  end.

Fixpoint serve_all (reqs : list (Z * Request)) (s : option Database)
  : option Database :=
  match reqs with
  | [] => s
  | (now, r) :: tl => serve_all tl (serve now r s)
  end.

(** * Specification-side definitions *)

Local Open Scope list_scope.

(** ** Sums over grouped rows *)

(** The sum of the values that the rows carry for key [k]. *)
Definition total {K V : Type} (keq : K -> K -> bool) (vadd : V -> V -> V)
  (vzero : V) (k : K) (rows : list (K * V)) : V :=
  fold_right (fun kv acc => if keq (fst kv) k then vadd (snd kv) acc else acc)
             vzero rows.

(** ** Scores and outcome *)

(** [outcome] of section 4.1, in the spec's words: the home team when
    the home score is greater, the away team when the away score is
    greater, no winner when the scores are equal. *)
Definition outcome (hs as_ : Z) (home away : ObjectId) : option ObjectId :=
  if hs >? as_ then Some home
  else if as_ >? hs then Some away
  else None.

(** The stored event built by [add_event] from a request body whose
    identifier fields converted to [t], [p] and [s]. *)
Definition stored_event (now : Z) (event : EventCreate) (t p s : IdField)
  : Event :=
  mkEvent (ec_type event) t p s (ec_minute event) (ec_notes event) now.

(** Events of a match's log that credit the home side, as the invariant
    of section 3 counts them: goals of the home team and own goals of
    the away team. *)
Definition credits_home (m : MatchDoc) (e : Event) : bool :=
  (EventType_eqb (e_type e) goal
   && IdField_eqb (e_team_id e) (IdOid (home_team_id m)))
  || (EventType_eqb (e_type e) own_goal
      && IdField_eqb (e_team_id e) (IdOid (away_team_id m))).

Definition credits_away (m : MatchDoc) (e : Event) : bool :=
  (EventType_eqb (e_type e) goal
   && IdField_eqb (e_team_id e) (IdOid (away_team_id m)))
  || (EventType_eqb (e_type e) own_goal
      && IdField_eqb (e_team_id e) (IdOid (home_team_id m))).

Definition count_events (f : Event -> bool) (es : list Event) : Z :=
  Z.of_nat (List.length (filter f es)).

Definition score_invariant (m : MatchDoc) : Prop :=
  home_score m = count_events (credits_home m) (events m)
  /\ away_score m = count_events (credits_away m) (events m).

(** ** Team identity tuples *)

Definition team_key (t : TeamDoc) : string * string * string :=
  (t_name t, t_country t, t_city t).

Definition create_key (t : TeamCreate) : string * string * string :=
  (name t, country t, city t).

(** ** Transitions of the store *)

(** The update [add_event] chooses for event [ev] on the match [m] it
    found. *)
Definition score_update (m : MatchDoc) (ev : Event) : MatchDoc -> MatchDoc :=
  match e_type ev with
  | goal =>
      if IdField_eqb (e_team_id ev) (IdOid (home_team_id m))
      then inc_home_push ev
      else if IdField_eqb (e_team_id ev) (IdOid (away_team_id m))
      then inc_away_push ev
      else push_event ev
  | own_goal =>
      if IdField_eqb (e_team_id ev) (IdOid (home_team_id m))
      then inc_away_push ev
      else if IdField_eqb (e_team_id ev) (IdOid (away_team_id m))
      then inc_home_push ev
      else push_event ev
  | _ => push_event ev
  end.

(** What one request can do to a configured database. *)
Inductive step : Database -> Database -> Prop :=
| step_none (d : Database) : step d d
| step_team (d : Database) (doc : TeamDoc) :
    find_one (team_key_eqb (t_name doc) (t_country doc) (t_city doc))
             (db_team d) = None ->
    step d (mkDatabase (db_team d ++ [doc]) (db_player d) (db_match d)
                       (N.succ (next_oid d)))
| step_player (d : Database) (doc : PlayerDoc) :
    step d (mkDatabase (db_team d) (db_player d ++ [doc]) (db_match d)
                       (N.succ (next_oid d)))
| step_start (d : Database) (home away : ObjectId) (now : Z) :
    step d (mkDatabase (db_team d) (db_player d)
              (db_match d
               ++ [mkMatchDoc (next_oid d) home away now None [] 0 0 None])
              (N.succ (next_oid d)))
| step_event (d : Database) (oid : ObjectId) (m : MatchDoc) (ev : Event) :
    find_one (has_id oid) (db_match d) = Some m ->
    step d (set_matches d (update_one (has_id oid) (score_update m ev)
                                      (db_match d)))
| step_end (d : Database) (oid : ObjectId) (m : MatchDoc) (now : Z)
    (w : option ObjectId) :
    find_one (has_id oid) (db_match d) = Some m ->
    step d (set_matches d (update_one (has_id oid) (set_ended now w)
                                      (db_match d))).

Definition scores_consistent (d : Database) : Prop :=
  forall m, In m (db_match d) ->
            home_team_id m <> away_team_id m -> score_invariant m.

(** * Scenarios *)

Module Scenario.

Definition falcons : TeamCreate := mkTeamCreate "Falcons" "X" "Y" None None.
Definition eagles : TeamCreate := mkTeamCreate "Eagles" "X" "Z" None None.

(** Identities handed out, in order, by a fresh store. *)
Definition id1 : string := "000000000000000000000001".
Definition id2 : string := "000000000000000000000002".
Definition id3 : string := "000000000000000000000003".
Definition id4 : string := "000000000000000000000004".
Definition id5 : string := "000000000000000000000005".

Definition player_p : PlayerCreate :=
  mkPlayerCreate "P" FWD (Some id1) (Some 9) (Some "X") (Some "Y") None.
Definition player_q : PlayerCreate :=
  mkPlayerCreate "Q" MID (Some id2) (Some 7) (Some "W") (Some "Z") None.

Definition event_of (ty : EventType) (team player secondary : option string)
  : EventCreate :=
  mkEventCreate ty team player secondary None None.

Definition state_of (reqs : list (Z * Request)) : Database :=
  match serve_all reqs (Some empty_db) with
  | Some d => d
  | None => empty_db
  end.

(** Two teams, a player on each, and a match between the teams. *)
Definition setup : list (Z * Request) :=
  [ (1, CreateTeam falcons); (2, CreateTeam eagles);
    (3, CreatePlayer player_p); (4, CreatePlayer player_q);
    (5, StartMatch (mkMatchStart id1 id2)) ].

(** The home side scores once. *)
Definition one_goal : list (Z * Request) :=
  setup ++ [ (6, AddEvent id5 (event_of goal (Some id1) (Some id3) None)) ].

Definition db_one_goal : Database := Eval vm_compute in state_of one_goal.

Definition match_one_goal : MatchDoc :=
  mkMatchDoc 5%N 1%N 2%N 5 None
    [ mkEvent goal (IdOid 1%N) (IdOid 3%N) IdNone None None 6 ] 1 0 None.

(** A team playing itself: [start_match] does not compare the two
    sides. *)
Definition self_match : list (Z * Request) :=
  [ (1, StartMatch (mkMatchStart id2 id2)) ].

Definition db_self_match : Database := Eval vm_compute in state_of self_match.

Definition self_match_doc : MatchDoc :=
  mkMatchDoc 1%N 2%N 2%N 1 None [] 0 0 None.

(** The match of [setup], ended as a goalless draw. *)
Definition ended_draw : list (Z * Request) :=
  setup ++ [ (6, EndMatch id5) ].

Definition db_ended_draw : Database := Eval vm_compute in state_of ended_draw.

Definition match_ended_draw : MatchDoc :=
  mkMatchDoc 5%N 1%N 2%N 5 (Some 6) [] 0 0 None.

(** The first team's document, and the store once the second team has
    been created as well. *)
Definition falcons_doc : TeamDoc :=
  mkTeamDoc 1%N "Falcons" "X" "Y" None None 1 1.

Definition db_two_teams : Database :=
  Eval vm_compute in state_of [ (1, CreateTeam falcons); (2, CreateTeam eagles) ].

(** The team leaderboard once the home side has scored. *)
Definition rows_one_goal : list TeamRow :=
  [ mkTeamRow 1%N "Falcons" "X" "Y" 1 1 3;
    mkTeamRow 2%N "Eagles" "X" "Z" 0 0 0 ].

(** One goal assisted by P, recorded on the goal event, and one assist
    of Q recorded as an event of its own. *)
Definition assisted : list (Z * Request) :=
  setup
  ++ [ (6, AddEvent id5 (event_of goal (Some id1) None (Some id3)));
       (7, AddEvent id5 (event_of assist (Some id2) (Some id4) None)) ].

Definition db_assisted : Database := Eval vm_compute in state_of assisted.

Definition goal_assisted : Event :=
  mkEvent goal (IdOid 1%N) IdNone (IdOid 3%N) None None 6.

Definition assist_alone : Event :=
  mkEvent assist (IdOid 2%N) (IdOid 4%N) IdNone None None 7.

Definition match_assisted : MatchDoc :=
  mkMatchDoc 5%N 1%N 2%N 5 None [ goal_assisted; assist_alone ] 1 0 None.

Definition player_p_doc : PlayerDoc :=
  mkPlayerDoc 3%N "P" FWD (IdOid 1%N) (Some 9) (Some "X") (Some "Y") None 3 3.

Definition player_q_doc : PlayerDoc :=
  mkPlayerDoc 4%N "Q" MID (IdOid 2%N) (Some 7) (Some "W") (Some "Z") None 4 4.

(** Q, of country W, scores twice; P, of country X, scores once. *)
Definition outscored : list (Z * Request) :=
  setup
  ++ [ (6, AddEvent id5 (event_of goal (Some id2) (Some id4) None));
       (7, AddEvent id5 (event_of goal (Some id2) (Some id4) None));
       (8, AddEvent id5 (event_of goal (Some id1) (Some id3) None)) ].

Definition db_outscored : Database := Eval vm_compute in state_of outscored.

(** Two goals of P without an assister, a goal assisted by P, and an
    assist of Q. *)
Definition unassisted : list (Z * Request) :=
  setup
  ++ [ (6, AddEvent id5 (event_of goal (Some id1) (Some id3) None));
       (7, AddEvent id5 (event_of goal (Some id1) (Some id3) None));
       (8, AddEvent id5 (event_of goal (Some id1) None (Some id3)));
       (9, AddEvent id5 (event_of assist (Some id2) (Some id4) None)) ].

Definition db_unassisted : Database := Eval vm_compute in state_of unassisted.

(** The Falcons entered as both sides of a match. *)
Definition falcons_self_match : list (Z * Request) :=
  [ (1, CreateTeam falcons); (2, StartMatch (mkMatchStart id1 id1)) ].

Definition db_falcons_self_match : Database :=
  Eval vm_compute in state_of falcons_self_match.

End Scenario.

(** ** Invariants and leaderboard statistics *)

Definition teams_unique (d : Database) : Prop :=
  NoDup (map team_key (db_team d)).

(** The sum, over the matches [ms], of [hf] where team [t] is the home
    side and of [af] where it is the away side. *)
Definition side_sum (hf af : MatchDoc -> Z) (t : ObjectId)
  (ms : list MatchDoc) : Z :=
  fold_right
    (fun m acc =>
       (if N.eqb (home_team_id m) t then hf m else 0)
       + (if N.eqb (away_team_id m) t then af m else 0) + acc)
    0 ms.

Definition goals_of (t : ObjectId) (ms : list MatchDoc) : Z :=
  side_sum home_score away_score t ms.

Definition wins_of (t : ObjectId) (ms : list MatchDoc) : Z :=
  side_sum (fun m => cond (home_score m >? away_score m))
           (fun m => cond (away_score m >? home_score m)) t ms.

Definition draws_of (t : ObjectId) (ms : list MatchDoc) : Z :=
  side_sum (fun m => cond (home_score m =? away_score m))
           (fun m => cond (home_score m =? away_score m)) t ms.

Definition plays_in (t : ObjectId) (ms : list MatchDoc) : Prop :=
  exists m, In m ms /\ (home_team_id m = t \/ away_team_id m = t).

(** The [match_filter] that [leaderboard_teams] builds. *)
Definition team_match_filter (d : Database) (scope : Scope)
  (country city : option string) : option (list ObjectId) :=
  match scope with
  | ScopeGlobal => None
  | _ => Some (map t_id (find_all (team_matches (team_filter scope country city))
                                  (db_team d)))
  end.

(** The candidate matches in the words of the specification.  A
    country or city parameter that is given (and not empty) must equal
    the stored value; the city counts only for the scope city.  With a
    scope other than global a match is a candidate when its home or its
    away team is a stored team that matches. *)
Definition param_matches (param : option string) (v : string) : bool :=
  match param with
  | Some x => String.eqb x EmptyString || String.eqb v x
  | None => true
  end.

Definition in_scope (scope : Scope) (country city : option string)
  (t : TeamDoc) : bool :=
  match scope with
  | ScopeGlobal => true
  | ScopeCountry => param_matches country (t_country t)
  | ScopeCity =>
      param_matches country (t_country t) && param_matches city (t_city t)
  end.

Definition candidate (d : Database) (scope : Scope)
  (country city : option string) (m : MatchDoc) : bool :=
  match scope with
  | ScopeGlobal => true
  | _ =>
      existsb (fun t => in_scope scope country city t
                        && (N.eqb (t_id t) (home_team_id m)
                            || N.eqb (t_id t) (away_team_id m)))
              (db_team d)
  end.

Definition candidates (d : Database) (scope : Scope)
  (country city : option string) : list MatchDoc :=
  filter (candidate d scope country city) (db_match d).

Definition pair_row (p : Pair) : ObjectId * (Z * Z * Z) :=
  (pair_team p, (goals_for p, win p, draw p)).

Definition team_groups (ms : list MatchDoc) : list TeamAgg :=
  map add_points (group_teams (flat_map pairs ms)).

(** Whether event [e] counts for player identity [k] under [stat]: a
    goal counts for its primary player; an assist is credited to the
    secondary player of a goal event and to the primary player of an
    assist event; a card counts for its primary player. *)
Definition credited (stat : PlayerStat) (k : IdField) (e : Event) : bool :=
  match stat with
  | StatGoals =>
      EventType_eqb (e_type e) goal && IdField_eqb (e_player_id e) k
  | StatAssists =>
      (EventType_eqb (e_type e) goal
       && IdField_eqb (e_secondary_player_id e) k)
      || (EventType_eqb (e_type e) assist && IdField_eqb (e_player_id e) k)
  | StatYellow =>
      EventType_eqb (e_type e) yellow && IdField_eqb (e_player_id e) k
  | StatRed =>
      EventType_eqb (e_type e) red && IdField_eqb (e_player_id e) k
  end.

Definition stat_of (stat : PlayerStat) (o : ObjectId) (ms : list MatchDoc)
  : Z :=
  count_events (credited stat (IdOid o)) (unwind_events ms).

Definition assists_of (o : ObjectId) (ms : list MatchDoc) : Z :=
  stat_of StatAssists o ms.

(** The rows [$group] receives for [stat]. *)
Definition stat_rows (stat : PlayerStat) (es : list Event)
  : list (IdField * Z) :=
  let es' := filter (type_in [goal; assist; yellow; red]) es in
  match stat with
  | StatGoals =>
      map (fun e => (e_player_id e, 1)) (filter (type_in [goal]) es')
  | StatAssists =>
      map (fun e => (pid e, 1)) (filter (type_in [assist; goal]) es')
  | _ =>
      map (fun e => (e_player_id e, 1))
          (filter (type_in [stat_type stat]) es')
  end.

(** The group key that event [e] contributes under [stat], if any. *)
Definition stat_key (stat : PlayerStat) (e : Event) : option IdField :=
  match stat, e_type e with
  | StatGoals, goal => Some (e_player_id e)
  | StatAssists, goal => Some (e_secondary_player_id e)
  | StatAssists, assist => Some (e_player_id e)
  | StatYellow, yellow => Some (e_player_id e)
  | StatRed, red => Some (e_player_id e)
  | _, _ => None
  end.

(** The player identities that [leaderboard_players] resolves for the
    scope: [None] when no filter applies. *)
Definition scoped_player_ids (d : Database) (scope : Scope)
  (country city : option string) : option (list ObjectId) :=
  let pf := player_filter scope country city in
  if filter_is_empty pf then None
  else Some (map p_id (find_all (player_matches pf) (db_player d))).

(** The name of the team a player is on at the time of the query. *)
Definition current_team_name (d : Database) (p : PlayerDoc) : option string :=
  option_map t_name
    match p_team_id p with
    | IdOid t => find_one (fun x => N.eqb (t_id x) t) (db_team d)
    | _ => None
    end.

(** The aggregation of the player leaderboard with its steps in the
    order the spec lists them: the rows outside the resolved player set
    are dropped (step 4) before the sort and the truncation (step 5). *)
Definition players_aggregate_scope_first (player_ids : option (list ObjectId))
  (stat : PlayerStat) (limit : Z) : App (list PlayerRow) :=
  d <- require_db ;;
  rows <- lift (mongo_limit limit
                  (sort_desc snd
                     (keep_scoped player_ids
                        (player_groups stat (db_match d))))) ;;
  ret (flat_map (join_player d) rows).

(** ** Places in the ranking

    [$limit] keeps the first [limit] groups of the sorted list, so
    whether a team or a player is returned depends on how many groups
    rank at least as high.  The groups are counted here from the
    matches and events themselves. *)

(** The distinct members of a list. *)
Fixpoint distinct {K : Type} (keq : K -> K -> bool) (l : list K) : list K :=
  match l with
  | [] => []
  | k :: tl =>
      if existsb (keq k) tl then distinct keq tl else k :: distinct keq tl
  end.

(** The teams of the matches [ms], each once. *)
Definition playing (ms : list MatchDoc) : list ObjectId :=
  distinct N.eqb (flat_map (fun m => [home_team_id m; away_team_id m]) ms).

Definition team_stat (stat : TeamStat) (t : ObjectId) (ms : list MatchDoc)
  : Z :=
  match stat with
  | StatTeamGoals => goals_of t ms
  | StatTeamWins => wins_of t ms
  | StatTeamPoints => wins_of t ms * 3 + draws_of t ms
  end.

(** How many teams of [ms] have a statistic of at least [c], and how
    many have more than [c]. *)
Definition teams_at_least (stat : TeamStat) (c : Z) (ms : list MatchDoc)
  : nat :=
  List.length (filter (fun t => c <=? team_stat stat t ms) (playing ms)).

Definition teams_above (stat : TeamStat) (c : Z) (ms : list MatchDoc) : nat :=
  List.length (filter (fun t => c <? team_stat stat t ms) (playing ms)).

(** The number of events credited to identity [k] under [stat]. *)
Definition tally (stat : PlayerStat) (k : IdField) (es : list Event) : Z :=
  count_events (credited stat k) es.

(** The identities the events name, each once, the absent one
    included; and those of them some event is credited to. *)
Definition named_ids (es : list Event) : list IdField :=
  distinct IdField_eqb
    (flat_map (fun e => [e_player_id e; e_secondary_player_id e]) es).

Definition credited_ids (stat : PlayerStat) (es : list Event)
  : list IdField :=
  filter (fun k => 0 <? tally stat k es) (named_ids es).

(** How many credited identities have a count of at least [c], and how
    many have more than [c]. *)
Definition ids_at_least (stat : PlayerStat) (c : Z) (es : list Event) : nat :=
  List.length (filter (fun k => c <=? tally stat k es) (credited_ids stat es)).

Definition ids_above (stat : PlayerStat) (c : Z) (es : list Event) : nat :=
  List.length (filter (fun k => c <? tally stat k es) (credited_ids stat es)).

(** * Further handlers: listings *)

Section SortByName.
Context {A : Type}.
Variable nm : A -> string.

Fixpoint insert_by_name (x : A) (l : list A) : list A :=
  match l with
  | [] => [x]
  | y :: tl => if String.leb (nm x) (nm y) then x :: y :: tl
               else y :: insert_by_name x tl
  end.

(** [.sort("name", 1)]: ascending in the binary order of strings. *)
Definition sort_by_name (l : list A) : list A :=
  fold_right insert_by_name [] l.
End SortByName.

Definition list_teams (country city : option string) : App (list TeamDoc) :=
  d <- require_db ;;
  let filt := mkGeoFilter (truthy country) (truthy city) in
  ret (sort_by_name t_name (find_all (team_matches filt) (db_team d))).

(** The filter of [list_players]: [None] is the empty filter. *)
Definition on_team (filt : option ObjectId) (p : PlayerDoc) : bool :=
  match filt with
  | None => true
  | Some o => IdField_eqb (p_team_id p) (IdOid o)
  end.

Definition list_players (team_id : option string) : App (list PlayerDoc) :=
  d <- require_db ;;
  filt <- match truthy team_id with
          | Some s => o <- lift (to_object_id_str s) ;; ret (Some o)
          | None => ret None
          end ;;
  ret (sort_by_name p_name (find_all (on_team filt) (db_player d))).

(** Ascending order of names. *)
Definition by_name {A : Type} (nm : A -> string) (l : list A) : Prop :=
  Sorted (fun a b => String.leb (nm a) (nm b) = true) l.

(** * Further handlers: formations

    A position of a formation is a dictionary that the handlers store
    and return without reading or checking it: its type [P] is a
    parameter.  The driver does read it when it writes the document:
    [insert_one] and [update_one] raise on a document they cannot
    encode (an integer beyond eight bytes, a key with a NUL character,
    a document that is too large), and nothing is written then. *)

Record FormationSave (P : Type) : Type := mkFormationSave {
  fs_team_id : string;
  fs_name : string;
  fs_positions : list P
}.

Arguments mkFormationSave {P} _ _ _.
Arguments fs_team_id {P} _.
Arguments fs_name {P} _.
Arguments fs_positions {P} _.

Record FormationDoc (P : Type) : Type := mkFormationDoc {
  f_id : ObjectId;
  f_team_id : ObjectId;
  f_name : string;
  f_positions : list P;
  f_updated_at : Z;
  f_created_at : Z
}.

Arguments mkFormationDoc {P} _ _ _ _ _ _.
Arguments f_id {P} _.
Arguments f_team_id {P} _.
Arguments f_name {P} _.
Arguments f_positions {P} _.
Arguments f_updated_at {P} _.
Arguments f_created_at {P} _.

(** What the driver makes of a payload it is to write: the exception
    that [insert_one], or [update_one] with [$set], raises on it, if
    any. *)
Record Driver (P : Type) : Type := mkDriver {
  insert_error : FormationSave P -> option Exception;
  update_error : FormationSave P -> option Exception
}.

Arguments mkDriver {P} _ _.
Arguments insert_error {P} _ _.
Arguments update_error {P} _ _.

(** The collections behind [db], [db.formation] included. *)
Definition Store (P : Type) : Type := (Database * list (FormationDoc P))%type.

(** What [get_formation] returns: the stored document, or the default
    built from the identifier as it was given. *)
Inductive FormationResponse (P : Type) : Type :=
| FormationDefault (team_id : string)
| FormationStored (doc : FormationDoc P).

Arguments FormationDefault {P} _.
Arguments FormationStored {P} _.

Definition response_name {P : Type} (r : FormationResponse P) : string :=
  match r with
  | FormationDefault _ => "Default"
  | FormationStored doc => f_name doc
  end.

Definition response_positions {P : Type} (r : FormationResponse P) : list P :=
  match r with
  | FormationDefault _ => []
  | FormationStored doc => f_positions doc
  end.

Definition of_team {P : Type} (o : ObjectId) (f : FormationDoc P) : bool :=
  N.eqb (f_team_id f) o.

Definition with_id {P : Type} (o : ObjectId) (f : FormationDoc P) : bool :=
  N.eqb (f_id f) o.

Definition db_unconfigured : Exception :=
  HTTPException 500 "Database not configured".

Definition get_formation {P : Type} (team_id : string) (s : option (Store P))
  : result (FormationResponse P) * option (Store P) :=
  match s with
  | None => (Raise db_unconfigured, s)
  | Some (d, fs) =>
      match to_object_id_str team_id with
      | Raise e => (Raise e, s)
      | Ok o =>
          match find_one (of_team o) fs with
          | None => (Ok (FormationDefault team_id), s)
          | Some doc => (Ok (FormationStored doc), s)
          end
      end
  end.

(** [{"$set": data}] with the dumped payload, its converted team
    identifier and the new [updated_at].  The handler reads the clock
    once for [updated_at] ([now]) and, when it inserts, once more for
    [created_at] ([later]). *)
Definition set_formation {P : Type} (o : ObjectId) (payload : FormationSave P)
  (now : Z) (f : FormationDoc P) : FormationDoc P :=
  mkFormationDoc (f_id f) o (fs_name payload) (fs_positions payload) now
                 (f_created_at f).

Definition next_identity (d : Database) : Database :=
  mkDatabase (db_team d) (db_player d) (db_match d) (N.succ (next_oid d)).

Definition save_formation {P : Type} (drv : Driver P) (now later : Z)
  (payload : FormationSave P) (s : option (Store P))
  : result (option (FormationDoc P)) * option (Store P) :=
  match s with
  | None => (Raise db_unconfigured, s)
  | Some (d, fs) =>
      match to_object_id_str (fs_team_id payload) with
      | Raise e => (Raise e, s)
      | Ok o =>
          match find_one (of_team o) fs with
          | Some existing =>
              match update_error drv payload with
              | Some e => (Raise e, s)
              | None =>
                  let fs' := update_one (with_id (f_id existing))
                                        (set_formation o payload now) fs in
                  (Ok (find_one (with_id (f_id existing)) fs'), Some (d, fs'))
              end
          | None =>
              match insert_error drv payload with
              | Some e => (Raise e, s)
              | None =>
                  let doc := mkFormationDoc (next_oid d) o (fs_name payload)
                                            (fs_positions payload) now later in
                  let fs' := fs ++ [doc] in
                  (Ok (find_one (with_id (next_oid d)) fs'),
                   Some (next_identity d, fs'))
              end
          end
      end
  end.

(** The exception of the write that [save_formation] comes to, given
    what its [find_one] returned. *)
Definition write_error {P : Type} (drv : Driver P) (payload : FormationSave P)
  (existing : option (FormationDoc P)) : option Exception :=
  match existing with
  | Some _ => update_error drv payload
  | None => insert_error drv payload
  end.

(** Positions [(player_id, x, y)] with integer coordinates, and the
    encoder's limit on them: an integer must fit eight bytes. *)
Definition int64_ok (z : Z) : bool := (int64_min <=? z) && (z <=? int64_max).

Definition xy_error (payload : FormationSave (string * Z * Z))
  : option Exception :=
  if forallb (fun p => int64_ok (snd (fst p)) && int64_ok (snd p))
             (fs_positions payload)
  then None else Some OverflowError.

Definition xy_driver : Driver (string * Z * Z) := mkDriver xy_error xy_error.

(** Requests to the whole store. *)
Inductive StoreRequest (P : Type) : Type :=
| CoreRequest (r : Request)
| SaveFormation (payload : FormationSave P)
| GetFormation (team_id : string).

Arguments CoreRequest {P} _.
Arguments SaveFormation {P} _.
Arguments GetFormation {P} _.

Definition serve_store {P : Type} (drv : Driver P) (now later : Z)
  (r : StoreRequest P) (s : option (Store P)) : option (Store P) :=
  match r with
  | CoreRequest c =>
      match s with
      | None => None
      | Some (d, fs) =>
          match serve now c (Some d) with
          | Some d' => Some (d', fs)
          | None => None
          end
      end
  | SaveFormation payload => snd (save_formation drv now later payload s)
  | GetFormation team_id => snd (get_formation team_id s)
  end.

Fixpoint serve_store_all {P : Type} (drv : Driver P)
  (reqs : list (Z * Z * StoreRequest P)) (s : option (Store P))
  : option (Store P) :=
  match reqs with
  | [] => s
  | (now, later, r) :: tl =>
      serve_store_all drv tl (serve_store drv now later r s)
  end.

Definition empty_store (P : Type) : Store P := (empty_db, []).

(** Identities of formations are distinct and were handed out before
    [next_oid]; no two formations are of the same team. *)
Definition store_ok {P : Type} (s : Store P) : Prop :=
  NoDup (map f_id (snd s))
  /\ NoDup (map f_team_id (snd s))
  /\ forall f, In f (snd s) -> (f_id f < next_oid (fst s))%N.

(** * Further definitions: the match lifecycle *)

(** [str(oid)] of a twelve-byte identifier: its 24 lowercase
    hexadecimal digits. *)
Definition hex_char (v : N) : ascii :=
  if (v <? 10)%N then ascii_of_N (48 + v) else ascii_of_N (87 + v).

Fixpoint hex_string (digits : nat) (v : N) (acc : string) : string :=
  match digits with
  | O => acc
  | S n => hex_string n (v / 16)%N (String (hex_char (v mod 16)%N) acc)
  end.

Definition ObjectId_str (o : ObjectId) : string :=
  hex_string 24 o EmptyString.

(** The last [n] bytes of [v], first byte first. *)
Fixpoint bytes_of (n : nat) (v : N) : list N :=
  match n with
  | O => []
  | S k => bytes_of k (v / 256)%N ++ [(v mod 256)%N]
  end.

(** Twelve bytes. *)
Definition ObjectId_bound : N := (2 ^ 96)%N.

(** What may become of a stored match: it keeps its identity, its two
    teams and its start; its log grows at the end; its scores do not
    decrease. *)
Definition evolves (m m' : MatchDoc) : Prop :=
  m_id m' = m_id m
  /\ home_team_id m' = home_team_id m
  /\ away_team_id m' = away_team_id m
  /\ started_at m' = started_at m
  /\ (exists suffix, events m' = events m ++ suffix)
  /\ home_score m <= home_score m'
  /\ away_score m <= away_score m'.

(** A goal or own goal that names one of the two sides of the match. *)
Definition scoring (m : MatchDoc) (e : Event) : bool :=
  (EventType_eqb (e_type e) goal || EventType_eqb (e_type e) own_goal)
  && (IdField_eqb (e_team_id e) (IdOid (home_team_id m))
      || IdField_eqb (e_team_id e) (IdOid (away_team_id m))).

Definition score_total (m : MatchDoc) : Prop :=
  home_score m + away_score m = count_events (scoring m) (events m)
  /\ 0 <= home_score m
  /\ 0 <= away_score m.

(** The matches of [d'] are those of [d], each evolved, followed by new
    ones. *)
Definition matches_extend (d d' : Database) : Prop :=
  exists old new,
    db_match d' = old ++ new /\ Forall2 evolves (db_match d) old.

Definition totals_consistent (d : Database) : Prop :=
  forall m, In m (db_match d) -> score_total m.

(** Every stored identity was handed out before [next_oid]. *)
Definition ids_fresh (d : Database) : Prop :=
  (forall t, In t (db_team d) -> (t_id t < next_oid d)%N)
  /\ (forall p, In p (db_player d) -> (p_id p < next_oid d)%N)
  /\ (forall m, In m (db_match d) -> (m_id m < next_oid d)%N).

(** The transitions of the store with the identities they hand out. *)
Inductive step_fresh : Database -> Database -> Prop :=
| fresh_none (d : Database) : step_fresh d d
| fresh_team (d : Database) (doc : TeamDoc) :
    t_id doc = next_oid d ->
    step_fresh d (mkDatabase (db_team d ++ [doc]) (db_player d) (db_match d)
                             (N.succ (next_oid d)))
| fresh_player (d : Database) (doc : PlayerDoc) :
    p_id doc = next_oid d ->
    step_fresh d (mkDatabase (db_team d) (db_player d ++ [doc]) (db_match d)
                             (N.succ (next_oid d)))
| fresh_start (d : Database) (m : MatchDoc) :
    m_id m = next_oid d ->
    step_fresh d (mkDatabase (db_team d) (db_player d) (db_match d ++ [m])
                             (N.succ (next_oid d)))
| fresh_update (d : Database) (p : MatchDoc -> bool)
    (f : MatchDoc -> MatchDoc) :
    (forall x, m_id (f x) = m_id x) ->
    step_fresh d (set_matches d (update_one p f (db_match d))).

(** The exceptions a handler raises on a configured store. *)
Definition handler_error (e : Exception) : Prop :=
  (exists id_str, e = invalid_id id_str)
  \/ e = not_found
  \/ e = team_conflict
  \/ e = OperationFailure
  \/ e = OverflowError.

(** The statistic of a returned team row that the query sorts by. *)
Definition row_stat (stat : TeamStat) (r : TeamRow) : Z :=
  match stat with
  | StatTeamGoals => row_goals r
  | StatTeamWins => row_wins r
  | StatTeamPoints => row_points r
  end.

(** Descending order of a list under an integer key. *)
Definition descending {A : Type} (key : A -> Z) (l : list A) : Prop :=
  StronglySorted (fun a b => key a >= key b) l.

(** The exception a request raises, if it raises. *)
Definition error_of {A : Type} (r : result A) : option Exception :=
  match r with
  | Ok _ => None
  | Raise e => Some e
  end.

Definition serve_error (now : Z) (r : Request) (s : option Database)
  : option Exception :=
  match r with
  | CreateTeam team => error_of (fst (create_team now team s))
  | CreatePlayer player => error_of (fst (create_player now player s))
  | StartMatch payload => error_of (fst (start_match now payload s))
  | AddEvent match_id event => error_of (fst (add_event now match_id event s))
  | EndMatch match_id => error_of (fst (end_match now match_id s))
  | GetMatch match_id => error_of (fst (get_match match_id s))
  | LeaderboardTeams scope country city stat limit =>
      error_of (fst (leaderboard_teams scope country city stat limit s))
  | LeaderboardPlayers scope country city stat limit =>
      error_of (fst (leaderboard_players scope country city stat limit s))
  end.

(** * Basic facts about the store *)

Lemma IdField_eqb_eq (a b : IdField) : IdField_eqb a b = true <-> a = b.
Proof.
  destruct a, b; simpl; split; intro H; try congruence; try reflexivity.
  - apply N.eqb_eq in H. now subst.
  - inversion H. apply N.eqb_refl.
Qed.

Lemma IdField_eqb_neq (a b : IdField) : IdField_eqb a b = false <-> a <> b.
Proof.
  rewrite <- IdField_eqb_eq. destruct (IdField_eqb a b); split; congruence.
Qed.

Lemma find_one_has_id (oid : ObjectId) (ms : list MatchDoc) (m : MatchDoc) :
  find_one (has_id oid) ms = Some m -> m_id m = oid /\ In m ms.
Proof.
  unfold find_one. intro H. apply find_some in H. destruct H as [Hin Hid].
  split; [now apply N.eqb_eq|assumption].
Qed.

Lemma find_update_one {A : Type} (p : A -> bool) (f : A -> A) (l : list A)
  (x : A) :
  find_one p l = Some x -> p (f x) = true ->
  find_one p (update_one p f l) = Some (f x).
Proof.
  unfold find_one. induction l as [|a l IH]; simpl; [discriminate|].
  destruct (p a) eqn:Hpa; intros Hf Hp.
  - inversion Hf; subst. simpl. now rewrite Hp.
  - simpl. rewrite Hpa. now apply IH.
Qed.

Lemma update_one_none {A : Type} (p : A -> bool) (f : A -> A) (l : list A) :
  find_one p l = None -> update_one p f l = l.
Proof.
  unfold find_one. induction l as [|a l IH]; simpl; [reflexivity|].
  destruct (p a); [discriminate|]. intro H. now rewrite IH.
Qed.

Lemma in_update_one {A : Type} (p : A -> bool) (f : A -> A) (l : list A)
  (y : A) :
  In y (update_one p f l) ->
  In y l \/ exists x, find_one p l = Some x /\ y = f x.
Proof.
  unfold find_one. induction l as [|a l IH]; simpl; [tauto|].
  destruct (p a) eqn:Hpa; simpl.
  - intros [H|H]; [right; exists a; auto|left; auto].
  - intros [H|H]; [left; auto|].
    destruct (IH H) as [H'|H']; [left; auto|right; exact H'].
Qed.

Lemma update_one_length {A : Type} (p : A -> bool) (f : A -> A) (l : list A) :
  List.length (update_one p f l) = List.length l.
Proof.
  induction l as [|a l IH]; simpl; [reflexivity|].
  destruct (p a); simpl; congruence.
Qed.

Lemma to_object_id_str_ok (s : string) (o : ObjectId) :
  ObjectId_of_str s = Some o -> to_object_id_str s = Ok o.
Proof. unfold to_object_id_str. now intros ->. Qed.

(** Boolean comparisons of identifiers in the context become
    (dis)equalities. *)
Ltac id_cases :=
  repeat match goal with
         | H : IdField_eqb _ _ = true |- _ =>
             apply (proj1 (IdField_eqb_eq _ _)) in H
         | H : IdField_eqb _ _ = false |- _ =>
             apply (proj1 (IdField_eqb_neq _ _)) in H
         end.

(** Unfolding of the monadic plumbing. *)
Ltac run_app :=
  unfold match_update_one;
  unfold bind, ret, raise, lift, require_db, put_db; simpl.

(** * Ending a match *)

Lemma end_match_found (d : Database) (now : Z) (match_id : string)
  (oid : ObjectId) (m : MatchDoc) :
  ObjectId_of_str match_id = Some oid ->
  find_one (has_id oid) (db_match d) = Some m ->
  let w := outcome (home_score m) (away_score m)
                   (home_team_id m) (away_team_id m) in
  end_match now match_id (Some d)
  = (Ok (Some (set_ended now w m)),
     Some (set_matches d (update_one (has_id oid) (set_ended now w)
                                     (db_match d)))).
Proof.
  intros Hid Hfind w.
  destruct (find_one_has_id _ _ _ Hfind) as [Hm _].
  unfold end_match. run_app.
  rewrite (to_object_id_str_ok _ _ Hid). rewrite Hfind. simpl.
  rewrite Hm. fold (outcome (home_score m) (away_score m)
                            (home_team_id m) (away_team_id m)). fold w.
  rewrite (find_update_one _ _ _ _ Hfind).
  - reflexivity.
  - unfold has_id. simpl. rewrite Hm. apply N.eqb_refl.
Qed.

Lemma end_match_result (d : Database) (now : Z) (match_id : string) :
  fst (end_match now match_id (Some d)) = Raise not_found
  <-> exists oid, ObjectId_of_str match_id = Some oid
                  /\ find_one (has_id oid) (db_match d) = None.
Proof.
  unfold end_match, to_object_id_str. run_app.
  destruct (ObjectId_of_str match_id) as [oid|] eqn:Hid; simpl.
  - destruct (find_one (has_id oid) (db_match d)) as [m|] eqn:Hf; simpl.
    + split; [discriminate|]. intros [o [Ho Hn]]. congruence.
    + split; [|reflexivity]. intros _. exists oid. auto.
  - split; [discriminate|]. intros [o [Ho _]]. discriminate.
Qed.

(** * Appending an event *)

Lemma score_update_id (m : MatchDoc) (ev : Event) (x : MatchDoc) :
  m_id (score_update m ev x) = m_id x
  /\ home_team_id (score_update m ev x) = home_team_id x
  /\ away_team_id (score_update m ev x) = away_team_id x
  /\ events (score_update m ev x) = events x ++ [ev].
Proof.
  unfold score_update.
  destruct (e_type ev);
    repeat match goal with |- context [if ?b then _ else _] => destruct b end;
    simpl; auto.
Qed.

Lemma add_event_found (d : Database) (now : Z) (match_id : string)
  (event : EventCreate) (oid : ObjectId) (m : MatchDoc) (t p s : IdField) :
  ObjectId_of_str match_id = Some oid ->
  find_one (has_id oid) (db_match d) = Some m ->
  convert_id (ec_team_id event) = Ok t ->
  convert_id (ec_player_id event) = Ok p ->
  convert_id (ec_secondary_player_id event) = Ok s ->
  let ev := stored_event now event t p s in
  add_event now match_id event (Some d)
  = (Ok (Some (score_update m ev m)),
     Some (set_matches d (update_one (has_id oid) (score_update m ev)
                                     (db_match d)))).
Proof.
  intros Hid Hfind Ht Hp Hs ev.
  destruct (find_one_has_id _ _ _ Hfind) as [Hm _].
  assert (Hafter : find_one (has_id oid)
                     (update_one (has_id oid) (score_update m ev) (db_match d))
                   = Some (score_update m ev m)).
  { apply find_update_one; [exact Hfind|].
    unfold has_id. destruct (score_update_id m ev m) as [-> _].
    rewrite Hm. apply N.eqb_refl. }
  unfold add_event. run_app.
  rewrite (to_object_id_str_ok _ _ Hid). rewrite Hfind. simpl.
  rewrite Ht, Hp, Hs. simpl. rewrite Hm.
  fold (stored_event now event t p s). fold ev.
  subst ev. unfold score_update in *. simpl in *.
  destruct (ec_type event); simpl;
    repeat match goal with
           | |- context [if IdField_eqb ?a ?b then _ else _] =>
               destruct (IdField_eqb a b); simpl
           end;
    rewrite Hafter; reflexivity.
Qed.

(** * The transitions of the store *)

Lemma create_team_step (now : Z) (team : TeamCreate) (d : Database) :
  exists d', snd (create_team now team (Some d)) = Some d' /\ step d d'.
Proof.
  unfold create_team, create_document_team. run_app.
  destruct (find_one _ (db_team d)) eqn:Hf; simpl.
  - exists d. split; [reflexivity|constructor].
  - eexists. split; [reflexivity|].
    apply (step_team d (mkTeamDoc (next_oid d) (name team) (country team)
                                  (city team) (coach team) (logo_url team)
                                  now now)).
    exact Hf.
Qed.

Lemma create_player_step (now : Z) (player : PlayerCreate) (d : Database) :
  exists d', snd (create_player now player (Some d)) = Some d' /\ step d d'.
Proof.
  unfold create_player. run_app.
  destruct (convert_id (pc_team_id player)); simpl.
  - eexists. split; [reflexivity|]. apply step_player.
  - exists d. split; [reflexivity|constructor].
Qed.

Lemma start_match_step (now : Z) (payload : MatchStart) (d : Database) :
  exists d', snd (start_match now payload (Some d)) = Some d' /\ step d d'.
Proof.
  unfold start_match. run_app.
  destruct (to_object_id_str (ms_home_team_id payload)); simpl;
    [|exists d; split; [reflexivity|constructor]].
  destruct (to_object_id_str (ms_away_team_id payload)); simpl;
    [|exists d; split; [reflexivity|constructor]].
  eexists. split; [reflexivity|]. apply step_start.
Qed.

Lemma add_event_step (now : Z) (match_id : string) (event : EventCreate)
  (d : Database) :
  exists d', snd (add_event now match_id event (Some d)) = Some d'
             /\ step d d'.
Proof.
  destruct (ObjectId_of_str match_id) as [oid|] eqn:Hid.
  - destruct (find_one (has_id oid) (db_match d)) as [m|] eqn:Hf.
    + destruct (convert_id (ec_team_id event)) as [t|] eqn:Ht;
        [destruct (convert_id (ec_player_id event)) as [p|] eqn:Hp;
         [destruct (convert_id (ec_secondary_player_id event)) as [s|] eqn:Hs
         |]|].
      * rewrite (add_event_found d now match_id event oid m t p s
                   Hid Hf Ht Hp Hs). simpl.
        eexists. split; [reflexivity|]. now apply step_event.
      * unfold add_event. run_app. rewrite (to_object_id_str_ok _ _ Hid).
        rewrite Hf. simpl. rewrite Ht, Hp, Hs. simpl.
        exists d. split; [reflexivity|constructor].
      * unfold add_event. run_app. rewrite (to_object_id_str_ok _ _ Hid).
        rewrite Hf. simpl. rewrite Ht, Hp. simpl.
        exists d. split; [reflexivity|constructor].
      * unfold add_event. run_app. rewrite (to_object_id_str_ok _ _ Hid).
        rewrite Hf. simpl. rewrite Ht. simpl.
        exists d. split; [reflexivity|constructor].
    + unfold add_event. run_app. rewrite (to_object_id_str_ok _ _ Hid).
      rewrite Hf. simpl. exists d. split; [reflexivity|constructor].
  - unfold add_event, to_object_id_str. run_app. rewrite Hid. simpl.
    exists d. split; [reflexivity|constructor].
Qed.

Lemma end_match_step (now : Z) (match_id : string) (d : Database) :
  exists d', snd (end_match now match_id (Some d)) = Some d' /\ step d d'.
Proof.
  destruct (ObjectId_of_str match_id) as [oid|] eqn:Hid.
  - destruct (find_one (has_id oid) (db_match d)) as [m|] eqn:Hf.
    + rewrite (end_match_found d now match_id oid m Hid Hf). simpl.
      eexists. split; [reflexivity|]. now apply step_end with (m := m).
    + unfold end_match. run_app. rewrite (to_object_id_str_ok _ _ Hid).
      rewrite Hf. simpl. exists d. split; [reflexivity|constructor].
  - unfold end_match, to_object_id_str. run_app. rewrite Hid. simpl.
    exists d. split; [reflexivity|constructor].
Qed.

Lemma get_match_state (match_id : string) (d : Database) :
  snd (get_match match_id (Some d)) = Some d.
Proof.
  unfold get_match. run_app.
  destruct (to_object_id_str match_id); simpl; [|reflexivity].
  destruct (find_one _ _); reflexivity.
Qed.

Lemma teams_aggregate_state (mf : option (list ObjectId)) (stat : TeamStat)
  (limit : Z) (d : Database) :
  snd (teams_aggregate mf stat limit (Some d)) = Some d.
Proof.
  unfold teams_aggregate. run_app.
  destruct (team_pipeline mf stat limit (db_match d)); reflexivity.
Qed.

Lemma leaderboard_teams_state (scope : Scope) (country city : option string)
  (stat : TeamStat) (limit : Z) (d : Database) :
  snd (leaderboard_teams scope country city stat limit (Some d)) = Some d.
Proof.
  unfold leaderboard_teams, bind at 1, require_db at 1.
  destruct scope; try apply teams_aggregate_state;
    destruct (map t_id _); try reflexivity; apply teams_aggregate_state.
Qed.

Lemma players_aggregate_state (ids : option (list ObjectId))
  (stat : PlayerStat) (limit : Z) (d : Database) :
  snd (players_aggregate ids stat limit (Some d)) = Some d.
Proof.
  unfold players_aggregate. run_app.
  destruct (player_pipeline stat limit (db_match d)); reflexivity.
Qed.

Lemma leaderboard_players_state (scope : Scope) (country city : option string)
  (stat : PlayerStat) (limit : Z) (d : Database) :
  snd (leaderboard_players scope country city stat limit (Some d)) = Some d.
Proof.
  unfold leaderboard_players, bind at 1, require_db at 1.
  destruct (filter_is_empty _); try apply players_aggregate_state.
  destruct (map p_id _); try reflexivity; apply players_aggregate_state.
Qed.

Lemma serve_step (now : Z) (r : Request) (d : Database) :
  exists d', serve now r (Some d) = Some d' /\ step d d'.
Proof.
  destruct r; simpl.
  - apply create_team_step.
  - apply create_player_step.
  - apply start_match_step.
  - apply add_event_step.
  - apply end_match_step.
  - rewrite get_match_state. exists d. split; [reflexivity|constructor].
  - rewrite leaderboard_teams_state. exists d. split; [reflexivity|constructor].
  - rewrite leaderboard_players_state.
    exists d. split; [reflexivity|constructor].
Qed.

(** Invariants of the store are proved once per transition. *)
Lemma serve_all_invariant (P : Database -> Prop) :
  (forall d d', step d d' -> P d -> P d') ->
  forall reqs d d',
    P d -> serve_all reqs (Some d) = Some d' -> P d'.
Proof.
  intros Hstep reqs. induction reqs as [|[now r] reqs IH]; simpl.
  - intros d d' HP Heq. inversion Heq. now subst.
  - intros d d' HP Heq.
    destruct (serve_step now r d) as [d1 [Hs Hst]].
    rewrite Hs in Heq. eapply IH; [|exact Heq]. eapply Hstep; eauto.
Qed.

Lemma serve_all_app (l1 l2 : list (Z * Request)) (s : option Database) :
  serve_all (l1 ++ l2) s = serve_all l2 (serve_all l1 s).
Proof.
  revert s. induction l1 as [|[now r] l1 IH]; intro s; simpl; [reflexivity|].
  apply IH.
Qed.

Lemma serve_all_configured (reqs : list (Z * Request)) (d : Database) :
  exists d', serve_all reqs (Some d) = Some d'.
Proof.
  revert d. induction reqs as [|[now r] reqs IH]; simpl; intro d.
  - now exists d.
  - destruct (serve_step now r d) as [d1 [Hs _]]. rewrite Hs. apply IH.
Qed.

(** * The score invariant *)

Lemma count_events_snoc (f : Event -> bool) (es : list Event) (e : Event) :
  count_events f (es ++ [e]) = count_events f es + cond (f e).
Proof.
  unfold count_events. rewrite filter_app, length_app. simpl.
  destruct (f e); simpl; lia.
Qed.

Lemma score_update_invariant (m : MatchDoc) (ev : Event) :
  home_team_id m <> away_team_id m ->
  score_invariant m -> score_invariant (score_update m ev m).
Proof.
  intros Hne [Hh Ha]. unfold score_invariant, score_update.
  destruct (e_type ev) eqn:Ety;
    destruct (IdField_eqb (e_team_id ev) (IdOid (home_team_id m))) eqn:E1;
    destruct (IdField_eqb (e_team_id ev) (IdOid (away_team_id m))) eqn:E2;
    try (exfalso; id_cases; congruence);
    simpl; rewrite !count_events_snoc; unfold credits_home, credits_away in *;
    simpl; rewrite Ety, E1, E2; simpl; lia.
Qed.

Lemma step_scores_consistent (d d' : Database) :
  step d d' -> scores_consistent d -> scores_consistent d'.
Proof.
  intros Hst Hinv. destruct Hst; try exact Hinv; intros x Hin Hne; simpl in Hin.
  - apply in_app_or in Hin. destruct Hin as [Hin|[<-|[]]]; [now apply Hinv|].
    split; reflexivity.
  - apply in_update_one in Hin. destruct Hin as [Hin|[y [Hy ->]]];
      [now apply Hinv|].
    assert (y = m) by (unfold find_one in *; congruence). subst y.
    destruct (score_update_id m ev m) as [_ [Hh [Ha _]]].
    rewrite Hh, Ha in Hne.
    apply score_update_invariant; [exact Hne|].
    apply Hinv; [|exact Hne]. now apply (find_one_has_id oid).
  - apply in_update_one in Hin. destruct Hin as [Hin|[y [Hy ->]]];
      [now apply Hinv|].
    simpl in Hne.
    assert (Hy' : score_invariant y).
    { apply Hinv; [|exact Hne]. now apply (find_one_has_id oid). }
    exact Hy'.
Qed.

Lemma empty_scores_consistent : scores_consistent empty_db.
Proof. intros m []. Qed.

(** * Theorems on the match lifecycle *)

(** C3 (as amended): [add_event] on an existing match appends the event
    and credits at most one side.  A goal of the home team adds 1 to the
    home score; otherwise a goal of the away team adds 1 to the away
    score; a goal of any other or of no team changes neither score.  An
    own goal of the home team adds 1 to the away score; otherwise an own
    goal of the away team adds 1 to the home score; otherwise neither
    changes.  Events of the other types change neither score. *)
Theorem add_event_credit :
  forall (d : Database) (now : Z) (match_id : string) (event : EventCreate)
         (oid : ObjectId) (m : MatchDoc) (t p s : IdField),
    ObjectId_of_str match_id = Some oid ->
    find_one (has_id oid) (db_match d) = Some m ->
    convert_id (ec_team_id event) = Ok t ->
    convert_id (ec_player_id event) = Ok p ->
    convert_id (ec_secondary_player_id event) = Ok s ->
    exists m' d',
      add_event now match_id event (Some d) = (Ok (Some m'), Some d')
      /\ find_one (has_id oid) (db_match d') = Some m'
      /\ events m' = events m ++ [stored_event now event t p s]
      /\ let home_delta := home_score m' - home_score m in
         let away_delta := away_score m' - away_score m in
         let home := IdOid (home_team_id m) in
         let away := IdOid (away_team_id m) in
         match ec_type event with
         | goal =>
             (t = home -> home_delta = 1 /\ away_delta = 0)
             /\ (t <> home -> t = away -> home_delta = 0 /\ away_delta = 1)
             /\ (t <> home -> t <> away -> home_delta = 0 /\ away_delta = 0)
         | own_goal =>
             (t = home -> home_delta = 0 /\ away_delta = 1)
             /\ (t <> home -> t = away -> home_delta = 1 /\ away_delta = 0)
             /\ (t <> home -> t <> away -> home_delta = 0 /\ away_delta = 0)
         | _ => home_delta = 0 /\ away_delta = 0
         end.
Proof.
  intros d now match_id event oid m t p s Hid Hf Ht Hp Hs.
  rewrite (add_event_found d now match_id event oid m t p s Hid Hf Ht Hp Hs).
  destruct (find_one_has_id _ _ _ Hf) as [Hm _].
  set (ev := stored_event now event t p s).
  exists (score_update m ev m). eexists. split; [reflexivity|].
  split.
  { simpl. apply find_update_one; [exact Hf|].
    unfold has_id. destruct (score_update_id m ev m) as [-> _].
    rewrite Hm. apply N.eqb_refl. }
  split; [apply score_update_id|].
  unfold score_update. subst ev. simpl.
  destruct (ec_type event);
    destruct (IdField_eqb t (IdOid (home_team_id m))) eqn:E1;
    destruct (IdField_eqb t (IdOid (away_team_id m))) eqn:E2;
    simpl; id_cases; repeat split; intros; try contradiction; try lia.
Qed.

(** Instance of [add_event_credit]: the goal of the home side in the
    scenario raises the home score from 0 to 1. *)
Lemma add_event_credit_witness :
  let d := Scenario.state_of Scenario.setup in
  let event :=
    Scenario.event_of goal (Some Scenario.id1) (Some Scenario.id3) None in
  let m := mkMatchDoc 5%N 1%N 2%N 5 None [] 0 0 None in
  (ObjectId_of_str Scenario.id5 = Some 5%N
   /\ find_one (has_id 5%N) (db_match d) = Some m
   /\ convert_id (ec_team_id event) = Ok (IdOid 1%N)
   /\ convert_id (ec_player_id event) = Ok (IdOid 3%N)
   /\ convert_id (ec_secondary_player_id event) = Ok IdNone)
  /\ exists m' d',
      add_event 6 Scenario.id5 event (Some d) = (Ok (Some m'), Some d')
      /\ find_one (has_id 5%N) (db_match d') = Some m'
      /\ events m' = events m ++ [stored_event 6 event (IdOid 1%N) (IdOid 3%N)
                                               IdNone]
      /\ ((IdOid 1%N = IdOid (home_team_id m) ->
           home_score m' - home_score m = 1 /\ away_score m' - away_score m = 0)
          /\ (IdOid 1%N <> IdOid (home_team_id m) ->
              IdOid 1%N = IdOid (away_team_id m) ->
              home_score m' - home_score m = 0
              /\ away_score m' - away_score m = 1)
          /\ (IdOid 1%N <> IdOid (home_team_id m) ->
              IdOid 1%N <> IdOid (away_team_id m) ->
              home_score m' - home_score m = 0
              /\ away_score m' - away_score m = 0)).
Proof.
  intros d event m.
  split; [repeat split; reflexivity|].
  apply (add_event_credit d 6 Scenario.id5 event 5%N m
           (IdOid 1%N) (IdOid 3%N) IdNone); reflexivity.
Defined.

(** C3, as stated, fails when a match has the same team on both sides:
    a goal of that team equals the away team and yet leaves the away
    score where it was, and its own goal equals the away team and yet
    leaves the home score where it was. *)
Lemma add_event_credit_counterexample :
  let d := Scenario.db_self_match in
  let m := Scenario.self_match_doc in
  find_one (has_id 1%N) (db_match d) = Some m
  /\ (exists m' d',
        add_event 2 Scenario.id1
          (Scenario.event_of goal (Some Scenario.id2) None None) (Some d)
        = (Ok (Some m'), Some d')
        /\ IdOid 2%N = IdOid (away_team_id m)
        /\ away_score m' <> away_score m + 1)
  /\ (exists m' d',
        add_event 2 Scenario.id1
          (Scenario.event_of own_goal (Some Scenario.id2) None None) (Some d)
        = (Ok (Some m'), Some d')
        /\ IdOid 2%N = IdOid (away_team_id m)
        /\ home_score m' <> home_score m + 1).
Proof.
  split; [reflexivity|]. split.
  - eexists. eexists. split; [vm_compute; reflexivity|].
    split; [reflexivity|]. simpl. discriminate.
  - eexists. eexists. split; [vm_compute; reflexivity|].
    split; [reflexivity|]. simpl. discriminate.
Qed.

(** C4 (as amended): in every state reached from the empty store by any
    sequence of requests, every match whose home and away teams differ
    has a home score equal to the number of logged goals of the home
    team plus own goals of the away team, and an away score equal to the
    number of logged goals of the away team plus own goals of the home
    team. *)
Theorem score_invariant_reachable :
  forall (reqs : list (Z * Request)) (d : Database) (m : MatchDoc),
    serve_all reqs (Some empty_db) = Some d ->
    In m (db_match d) ->
    home_team_id m <> away_team_id m ->
    home_score m = count_events (credits_home m) (events m)
    /\ away_score m = count_events (credits_away m) (events m).
Proof.
  intros reqs d m Hrun Hin Hne.
  assert (Hc : scores_consistent d).
  { apply (serve_all_invariant scores_consistent step_scores_consistent
             reqs empty_db d empty_scores_consistent Hrun). }
  exact (Hc m Hin Hne).
Qed.

(** Instance of [score_invariant_reachable]: the match of the scenario
    after the home side has scored. *)
Lemma score_invariant_reachable_witness :
  (serve_all Scenario.one_goal (Some empty_db) = Some Scenario.db_one_goal
   /\ In Scenario.match_one_goal (db_match Scenario.db_one_goal)
   /\ home_team_id Scenario.match_one_goal
      <> away_team_id Scenario.match_one_goal)
  /\ home_score Scenario.match_one_goal
     = count_events (credits_home Scenario.match_one_goal)
                    (events Scenario.match_one_goal)
  /\ away_score Scenario.match_one_goal
     = count_events (credits_away Scenario.match_one_goal)
                    (events Scenario.match_one_goal).
Proof.
  assert (H1 : serve_all Scenario.one_goal (Some empty_db)
               = Some Scenario.db_one_goal) by reflexivity.
  assert (H2 : In Scenario.match_one_goal (db_match Scenario.db_one_goal))
    by (left; reflexivity).
  assert (H3 : home_team_id Scenario.match_one_goal
               <> away_team_id Scenario.match_one_goal)
    by (simpl; discriminate).
  split; [repeat split; assumption|].
  exact (score_invariant_reachable Scenario.one_goal Scenario.db_one_goal
           Scenario.match_one_goal H1 H2 H3).
Defined.

(** C4, as stated, fails for a match with the same team on both sides:
    after one goal of that team the away score is 0 although one logged
    goal is a goal of the away team. *)
Lemma score_invariant_counterexample :
  let reqs :=
    Scenario.self_match
    ++ [ (2, AddEvent Scenario.id1
               (Scenario.event_of goal (Some Scenario.id2) None None)) ] in
  exists d m,
    serve_all reqs (Some empty_db) = Some d
    /\ In m (db_match d)
    /\ away_score m = 0
    /\ count_events (credits_away m) (events m) = 1.
Proof.
  eexists. eexists. split; [vm_compute; reflexivity|].
  split; [left; reflexivity|]. split; reflexivity.
Qed.

(** C5: [end_match] on an existing match succeeds and stores as winner
    the home team when the home score is greater, the away team when the
    away score is greater, and no winner when the scores are equal.  The
    winner is [outcome] of the two stored counters as they are when the
    match is ended, whatever the event log holds; the log and the
    counters are left as they were. *)
Theorem end_match_winner :
  forall (d : Database) (now : Z) (match_id : string) (oid : ObjectId)
         (m : MatchDoc),
    ObjectId_of_str match_id = Some oid ->
    find_one (has_id oid) (db_match d) = Some m ->
    exists m' d',
      end_match now match_id (Some d) = (Ok (Some m'), Some d')
      /\ find_one (has_id oid) (db_match d') = Some m'
      /\ ended_at m' = Some now
      /\ (home_score m > away_score m ->
          winner_team_id m' = Some (home_team_id m))
      /\ (away_score m > home_score m ->
          winner_team_id m' = Some (away_team_id m))
      /\ (home_score m = away_score m -> winner_team_id m' = None)
      /\ winner_team_id m'
         = outcome (home_score m) (away_score m)
                   (home_team_id m) (away_team_id m)
      /\ events m' = events m
      /\ home_score m' = home_score m
      /\ away_score m' = away_score m.
Proof.
  intros d now match_id oid m Hid Hf.
  rewrite (end_match_found d now match_id oid m Hid Hf).
  destruct (find_one_has_id _ _ _ Hf) as [Hm _].
  eexists. eexists. split; [reflexivity|]. split.
  { simpl. apply find_update_one; [exact Hf|].
    unfold has_id. simpl. rewrite Hm. apply N.eqb_refl. }
  simpl. unfold outcome.
  repeat split; intros;
    destruct (home_score m >? away_score m) eqn:E1;
    destruct (away_score m >? home_score m) eqn:E2;
    try reflexivity; lia.
Qed.

(** Instance of [end_match_winner]: the scenario's match, ended at 1-0,
    is won by the home team. *)
Lemma end_match_winner_witness :
  (ObjectId_of_str Scenario.id5 = Some 5%N
   /\ find_one (has_id 5%N) (db_match Scenario.db_one_goal)
      = Some Scenario.match_one_goal)
  /\ exists m' d',
      end_match 7 Scenario.id5 (Some Scenario.db_one_goal)
      = (Ok (Some m'), Some d')
      /\ find_one (has_id 5%N) (db_match d') = Some m'
      /\ ended_at m' = Some 7
      /\ (home_score Scenario.match_one_goal
          > away_score Scenario.match_one_goal ->
          winner_team_id m' = Some (home_team_id Scenario.match_one_goal))
      /\ (away_score Scenario.match_one_goal
          > home_score Scenario.match_one_goal ->
          winner_team_id m' = Some (away_team_id Scenario.match_one_goal))
      /\ (home_score Scenario.match_one_goal
          = away_score Scenario.match_one_goal ->
          winner_team_id m' = None)
      /\ winner_team_id m' = Some 1%N
      /\ events m' = events Scenario.match_one_goal
      /\ home_score m' = 1
      /\ away_score m' = 0.
Proof.
  split; [split; reflexivity|].
  exact (end_match_winner Scenario.db_one_goal 7 Scenario.id5 5%N
           Scenario.match_one_goal eq_refl eq_refl).
Defined.

(** C10: [end_match] raises the 404 "Match not found" exactly when
    [ObjectId] accepts its identifier and no stored match carries the
    identity read; so it does for 24 characters with whitespace, which
    [ObjectId] accepts and no match of the scenario carries.  On a
    match that has already ended the call succeeds again: the end
    timestamp becomes the time of the new call and the winner is
    computed anew from the scores stored then.  So a match that ended
    in a draw, received a goal afterwards and is ended again, ends with
    a winner. *)
Theorem end_match_not_found_iff :
  forall (d : Database) (now : Z) (match_id : string),
    (fst (end_match now match_id (Some d)) = Raise not_found
     <-> exists oid, ObjectId_of_str match_id = Some oid
                     /\ find_one (has_id oid) (db_match d) = None)
    /\ (forall (oid : ObjectId) (m : MatchDoc) (t0 : Z),
           ObjectId_of_str match_id = Some oid ->
           find_one (has_id oid) (db_match d) = Some m ->
           ended_at m = Some t0 ->
           exists m' d',
             end_match now match_id (Some d) = (Ok (Some m'), Some d')
             /\ find_one (has_id oid) (db_match d') = Some m'
             /\ ended_at m' = Some now
             /\ winner_team_id m'
                = outcome (home_score m) (away_score m)
                          (home_team_id m) (away_team_id m))
    /\ (exists (d1 d2 d3 : Database) (m1 m3 : MatchDoc),
           end_match 6 Scenario.id5 (Some (Scenario.state_of Scenario.setup))
           = (Ok (Some m1), Some d1)
           /\ winner_team_id m1 = None
           /\ snd (add_event 7 Scenario.id5
                     (Scenario.event_of goal (Some Scenario.id1)
                                        (Some Scenario.id3) None)
                     (Some d1)) = Some d2
           /\ end_match 8 Scenario.id5 (Some d2) = (Ok (Some m3), Some d3)
           /\ ended_at m1 = Some 6
           /\ ended_at m3 = Some 8
           /\ winner_team_id m3 = Some (home_team_id m3))
    /\ end_match 9 "0000000000000000000005  " (Some Scenario.db_ended_draw)
       = (Raise not_found, Some Scenario.db_ended_draw).
Proof.
  intros d now match_id. split; [apply end_match_result|].
  split; [|split; [|vm_compute; reflexivity]].
  - intros oid m t0 Hid Hf _.
    rewrite (end_match_found d now match_id oid m Hid Hf).
    destruct (find_one_has_id _ _ _ Hf) as [Hm _].
    eexists. eexists. split; [reflexivity|]. split; [|split; reflexivity].
    simpl. apply find_update_one; [exact Hf|].
    unfold has_id. simpl. rewrite Hm. apply N.eqb_refl.
  - do 5 eexists.
    split; [vm_compute; reflexivity|]. split; [reflexivity|].
    split; [vm_compute; reflexivity|].
    split; [vm_compute; reflexivity|]. repeat split; reflexivity.
Qed.

(** Instance of [end_match_not_found_iff]: ending the scenario's match a
    second time succeeds and moves its end timestamp. *)
Lemma end_match_not_found_iff_witness :
  (ObjectId_of_str Scenario.id5 = Some 5%N
   /\ find_one (has_id 5%N) (db_match Scenario.db_ended_draw)
      = Some Scenario.match_ended_draw
   /\ ended_at Scenario.match_ended_draw = Some 6)
  /\ exists m' d',
      end_match 9 Scenario.id5 (Some Scenario.db_ended_draw)
      = (Ok (Some m'), Some d')
      /\ find_one (has_id 5%N) (db_match d') = Some m'
      /\ ended_at m' = Some 9
      /\ winner_team_id m' = None.
Proof.
  split; [repeat split; reflexivity|].
  exact (proj1 (proj2 (end_match_not_found_iff Scenario.db_ended_draw 9
                         Scenario.id5))
           5%N Scenario.match_ended_draw 6 eq_refl eq_refl eq_refl).
Defined.

(** * Team uniqueness *)

Lemma team_key_eqb_eq (n c ci : string) (t : TeamDoc) :
  team_key_eqb n c ci t = true <-> team_key t = (n, c, ci).
Proof.
  unfold team_key_eqb, team_key. rewrite !andb_true_iff, !String.eqb_eq.
  split; [intros [[-> ->] ->]; reflexivity|intro H; inversion H; auto].
Qed.

Lemma find_team_none (n c ci : string) (l : list TeamDoc) :
  find_one (team_key_eqb n c ci) l = None ->
  ~ In (n, c, ci) (map team_key l).
Proof.
  unfold find_one. intros Hnone Hin. apply in_map_iff in Hin.
  destruct Hin as [t [Hk Ht]].
  pose proof (find_none _ _ Hnone t Ht) as Hf.
  apply team_key_eqb_eq in Hk. congruence.
Qed.

Lemma find_team_some (n c ci : string) (l : list TeamDoc) :
  In (n, c, ci) (map team_key l) ->
  exists t, find_one (team_key_eqb n c ci) l = Some t.
Proof.
  unfold find_one. intro Hin. apply in_map_iff in Hin.
  destruct Hin as [t [Hk Ht]]. apply team_key_eqb_eq in Hk.
  destruct (find (team_key_eqb n c ci) l) as [x|] eqn:Hf; [now exists x|].
  pose proof (find_none _ _ Hf t Ht). congruence.
Qed.

Lemma filter_none {A : Type} (p : A -> bool) (l : list A) :
  (forall x, In x l -> p x = false) -> filter p l = [].
Proof.
  induction l as [|a l IH]; simpl; intro H; [reflexivity|].
  rewrite (H a (or_introl eq_refl)). apply IH. intros x Hx. apply H. now right.
Qed.

Lemma unique_key_count (n c ci : string) (l : list TeamDoc) :
  NoDup (map team_key l) ->
  In (n, c, ci) (map team_key l) ->
  List.length (find_all (team_key_eqb n c ci) l) = 1%nat.
Proof.
  unfold find_all. induction l as [|a l IH]; simpl; [tauto|].
  intros Hnd Hin. inversion Hnd as [|k ks Hnotin Hnd']; subst.
  destruct (team_key_eqb n c ci a) eqn:Ha.
  - apply team_key_eqb_eq in Ha. rewrite Ha in Hnotin. simpl.
    replace (filter (team_key_eqb n c ci) l) with (@nil TeamDoc);
      [reflexivity|].
    symmetry. apply filter_none. intros t Ht.
    destruct (team_key_eqb n c ci t) eqn:Hk; [|reflexivity].
    apply team_key_eqb_eq in Hk. exfalso. apply Hnotin.
    apply in_map_iff. now exists t.
  - destruct Hin as [Hin|Hin]; [|now apply IH].
    apply team_key_eqb_eq in Hin. congruence.
Qed.

Lemma step_teams_unique (d d' : Database) :
  step d d' -> teams_unique d -> teams_unique d'.
Proof.
  unfold teams_unique. intros Hst Hnd. destruct Hst; try exact Hnd. simpl.
  rewrite map_app. simpl. apply NoDup_app; [exact Hnd| |].
  - constructor; [intros []|constructor].
  - intros k Hk [<-|[]]. revert Hk. now apply find_team_none.
Qed.

Lemma step_teams_kept (k : string * string * string) (d d' : Database) :
  step d d' ->
  In k (map team_key (db_team d)) -> In k (map team_key (db_team d')).
Proof.
  intros Hst Hin. destruct Hst; try exact Hin. simpl.
  rewrite map_app. apply in_or_app. now left.
Qed.

Lemma create_team_present (now : Z) (team : TeamCreate) (d : Database) :
  exists d',
    snd (create_team now team (Some d)) = Some d'
    /\ In (create_key team) (map team_key (db_team d')).
Proof.
  unfold create_team, create_document_team. run_app.
  destruct (find_one _ (db_team d)) as [t|] eqn:Hf; simpl.
  - exists d. split; [reflexivity|].
    unfold find_one in Hf. apply find_some in Hf. destruct Hf as [Hin Hk].
    apply team_key_eqb_eq in Hk. apply in_map_iff. now exists t.
  - eexists. split; [reflexivity|]. simpl. rewrite map_app.
    apply in_or_app. right. left. reflexivity.
Qed.

Lemma create_team_existing (now : Z) (team : TeamCreate) (d : Database) :
  In (create_key team) (map team_key (db_team d)) ->
  create_team now team (Some d) = (Raise team_conflict, Some d).
Proof.
  intro Hin. apply find_team_some in Hin. destruct Hin as [t Ht].
  unfold create_team. run_app. now rewrite Ht.
Qed.

Lemma invalid_id_prefix (id_str : string) :
  invalid_id id_str <> team_conflict.
Proof. unfold invalid_id, team_conflict. simpl. discriminate. Qed.

(** C8: once a request history holds a [create_team] for a
    (name, country, city), every later [create_team] with the same
    tuple, whatever requests were served before and in between, raises
    the conflict exception, an HTTP 400 with the detail "Team already
    exists in this city", and leaves the store as it was.  That
    exception differs from the 404 of a match that is not found and from
    every 400 "Invalid id: ..." of a malformed identifier.  In every
    state reached from the empty store no two teams share
    (name, country, city): exactly one team carries the tuple. *)
Theorem create_team_conflict :
  forall (reqs0 reqs : list (Z * Request)) (now1 now2 : Z)
         (t1 t2 : TeamCreate) (d2 : Database),
    create_key t1 = create_key t2 ->
    serve_all (reqs0 ++ (now1, CreateTeam t1) :: reqs) (Some empty_db)
    = Some d2 ->
    create_team now2 t2 (Some d2) = (Raise team_conflict, Some d2)
    /\ team_conflict = HTTPException 400 "Team already exists in this city"
    /\ team_conflict <> not_found
    /\ (forall id_str, team_conflict <> invalid_id id_str)
    /\ NoDup (map team_key (db_team d2))
    /\ List.length (find_all (team_key_eqb (name t2) (country t2) (city t2))
                             (db_team d2)) = 1%nat.
Proof.
  intros reqs0 reqs now1 now2 t1 t2 d2 Hkey Hrun.
  assert (Hu2 : teams_unique d2).
  { apply (serve_all_invariant teams_unique step_teams_unique
             (reqs0 ++ (now1, CreateTeam t1) :: reqs) empty_db d2);
      [constructor|exact Hrun]. }
  rewrite serve_all_app in Hrun.
  destruct (serve_all_configured reqs0 empty_db) as [d0 Hd0].
  rewrite Hd0 in Hrun. simpl in Hrun.
  destruct (create_team_present now1 t1 d0) as [d1 [Hs Hin1]].
  rewrite Hs in Hrun. rewrite Hkey in Hin1.
  assert (Hin2 : In (create_key t2) (map team_key (db_team d2))).
  { apply (serve_all_invariant
             (fun d => In (create_key t2) (map team_key (db_team d)))
             (step_teams_kept (create_key t2)) reqs d1 d2 Hin1 Hrun). }
  split; [now apply create_team_existing|].
  split; [reflexivity|].
  split; [discriminate|].
  split; [intros id_str H; now apply (invalid_id_prefix id_str)|].
  split; [exact Hu2|].
  now apply unique_key_count.
Qed.

(** Instance of [create_team_conflict]: the Falcons are created, then
    the Eagles, and a second creation of the Falcons is refused. *)
Lemma create_team_conflict_witness :
  (create_key Scenario.falcons = create_key Scenario.falcons
   /\ serve_all ([] ++ (1, CreateTeam Scenario.falcons)
                     :: [ (2, CreateTeam Scenario.eagles) ])
                (Some empty_db)
      = Some Scenario.db_two_teams)
  /\ create_team 3 Scenario.falcons (Some Scenario.db_two_teams)
     = (Raise team_conflict, Some Scenario.db_two_teams)
  /\ team_conflict = HTTPException 400 "Team already exists in this city"
  /\ team_conflict <> not_found
  /\ (forall id_str, team_conflict <> invalid_id id_str)
  /\ NoDup (map team_key (db_team Scenario.db_two_teams))
  /\ List.length (find_all (team_key_eqb "Falcons" "X" "Y")
                           (db_team Scenario.db_two_teams)) = 1%nat.
Proof.
  split; [split; reflexivity|].
  exact (create_team_conflict [] [ (2, CreateTeam Scenario.eagles) ] 1 3
           Scenario.falcons Scenario.falcons Scenario.db_two_teams
           eq_refl eq_refl).
Defined.

(** * Facts about the aggregation stages *)

Section GroupFacts.
Context {K V : Type}.
Variable keq : K -> K -> bool.
Variable vadd : V -> V -> V.
Variable vzero : V.
Hypothesis keq_eq : forall a b, keq a b = true <-> a = b.
Hypothesis vadd_assoc : forall a b c, vadd a (vadd b c) = vadd (vadd a b) c.
Hypothesis vadd_comm : forall a b, vadd a b = vadd b a.
Hypothesis vadd_zero : forall a, vadd a vzero = a.

Lemma total_cons (k : K) (kv : K * V) (rows : list (K * V)) :
  total keq vadd vzero k (kv :: rows)
  = if keq (fst kv) k then vadd (snd kv) (total keq vadd vzero k rows) else total keq vadd vzero k rows.
Proof. reflexivity. Qed.

Lemma total_upsert (k k0 : K) (v : V) (acc : list (K * V)) :
  total keq vadd vzero k (upsert keq vadd k0 v acc)
  = if keq k0 k then vadd (total keq vadd vzero k acc) v else total keq vadd vzero k acc.
Proof.
  induction acc as [|[k' v'] tl IH]; simpl.
  - destruct (keq k0 k); [|reflexivity].
    rewrite vadd_zero. rewrite (vadd_comm vzero v). now rewrite vadd_zero.
  - destruct (keq k' k0) eqn:E0; simpl.
    + apply keq_eq in E0. subst k'.
      destruct (keq k0 k); [|reflexivity].
      rewrite <- !vadd_assoc. f_equal. apply vadd_comm.
    + rewrite IH. destruct (keq k' k), (keq k0 k); try reflexivity.
      apply vadd_assoc.
Qed.

Lemma total_fold (k : K) (rows acc : list (K * V)) :
  total keq vadd vzero k (fold_left (fun a kv => upsert keq vadd (fst kv) (snd kv) a) rows acc)
  = vadd (total keq vadd vzero k acc) (total keq vadd vzero k rows).
Proof.
  revert acc. induction rows as [|[k0 v] rows IH]; intro acc; simpl.
  - now rewrite vadd_zero.
  - rewrite IH, total_upsert. destruct (keq k0 k); [|reflexivity].
    now rewrite vadd_assoc.
Qed.

Lemma total_group (k : K) (rows : list (K * V)) :
  total keq vadd vzero k (mongo_group keq vadd rows) = total keq vadd vzero k rows.
Proof.
  unfold mongo_group. rewrite total_fold. simpl.
  rewrite vadd_comm. apply vadd_zero.
Qed.

Lemma upsert_keys (k : K) (v : V) (acc : list (K * V)) :
  map fst (upsert keq vadd k v acc)
  = if existsb (fun k' => keq k' k) (map fst acc) then map fst acc
    else map fst acc ++ [k].
Proof.
  induction acc as [|[k' v'] tl IH]; simpl; [reflexivity|].
  destruct (keq k' k); simpl; [reflexivity|].
  rewrite IH. now destruct (existsb _ _).
Qed.

Lemma upsert_keys_in (k0 k : K) (v : V) (acc : list (K * V)) :
  In k0 (map fst (upsert keq vadd k v acc))
  <-> In k0 (map fst acc) \/ k0 = k.
Proof.
  rewrite upsert_keys. destruct (existsb _ _) eqn:E.
  - split; [auto|]. intros [H| ->]; [exact H|].
    apply existsb_exists in E. destruct E as [x [Hx Hk]].
    apply keq_eq in Hk. now subst.
  - rewrite in_app_iff. simpl. intuition.
Qed.

Lemma upsert_keys_nodup (k : K) (v : V) (acc : list (K * V)) :
  NoDup (map fst acc) -> NoDup (map fst (upsert keq vadd k v acc)).
Proof.
  intro Hnd. rewrite upsert_keys. destruct (existsb _ _) eqn:E; [exact Hnd|].
  apply NoDup_app; [exact Hnd|constructor; [intros []|constructor]|].
  intros x Hx [Hk|[]]. subst x.
  assert (Hex : existsb (fun k' => keq k' k) (map fst acc) = true).
  { apply existsb_exists. exists k. split; [exact Hx|]. now apply keq_eq. }
  congruence.
Qed.

Lemma upsert_length (k : K) (v : V) (acc : list (K * V)) :
  (List.length (upsert keq vadd k v acc) <= S (List.length acc))%nat.
Proof.
  induction acc as [|[k' v'] tl IH]; simpl; [lia|].
  destruct (keq k' k); simpl; lia.
Qed.

Lemma group_fold_facts (rows acc : list (K * V)) :
  let g := fold_left (fun a kv => upsert keq vadd (fst kv) (snd kv) a)
                     rows acc in
  (NoDup (map fst acc) -> NoDup (map fst g))
  /\ (forall k, In k (map fst g) <-> In k (map fst acc) \/ In k (map fst rows))
  /\ (List.length g <= List.length acc + List.length rows)%nat.
Proof.
  revert acc. induction rows as [|[k0 v] rows IH]; intro acc; simpl.
  - repeat split; auto; try tauto; lia.
  - destruct (IH (upsert keq vadd k0 v acc)) as [H1 [H2 H3]].
    repeat split.
    + intro Hnd. apply H1. now apply upsert_keys_nodup.
    + rewrite H2, upsert_keys_in. intuition.
    + rewrite H2, upsert_keys_in. intuition.
    + pose proof (upsert_length k0 v acc). lia.
Qed.

Lemma group_keys_nodup (rows : list (K * V)) :
  NoDup (map fst (mongo_group keq vadd rows)).
Proof. apply (group_fold_facts rows []). constructor. Qed.

Lemma group_keys_in (k : K) (rows : list (K * V)) :
  In k (map fst (mongo_group keq vadd rows)) <-> In k (map fst rows).
Proof.
  destruct (group_fold_facts rows []) as [_ [H _]].
  unfold mongo_group. rewrite H. simpl. tauto.
Qed.

Lemma group_length (rows : list (K * V)) :
  (List.length (mongo_group keq vadd rows) <= List.length rows)%nat.
Proof. destruct (group_fold_facts rows []) as [_ [_ H]]. exact H. Qed.

Lemma total_absent (k : K) (l : list (K * V)) :
  ~ In k (map fst l) -> total keq vadd vzero k l = vzero.
Proof.
  induction l as [|[k' v'] tl IH]; simpl; [reflexivity|].
  intro H. destruct (keq k' k) eqn:E.
  - apply keq_eq in E. tauto.
  - apply IH. tauto.
Qed.

Lemma total_unique (k : K) (v : V) (l : list (K * V)) :
  NoDup (map fst l) -> In (k, v) l -> total keq vadd vzero k l = v.
Proof.
  induction l as [|[k' v'] tl IH]; simpl; [tauto|].
  intros Hnd Hin. inversion Hnd as [|x xs Hnotin Hnd']; subst.
  destruct Hin as [Heq|Hin].
  - inversion Heq; subst.
    rewrite (proj2 (keq_eq k k) eq_refl).
    rewrite (total_absent k tl Hnotin). apply vadd_zero.
  - destruct (keq k' k) eqn:E.
    + apply keq_eq in E. subst k'. exfalso. apply Hnotin.
      apply in_map_iff. now exists (k, v).
    + now apply IH.
Qed.

(** Every group carries the sum of the rows of its key. *)
Lemma group_row (k : K) (v : V) (rows : list (K * V)) :
  In (k, v) (mongo_group keq vadd rows) -> v = total keq vadd vzero k rows.
Proof.
  intro Hin. rewrite <- total_group. symmetry.
  apply total_unique; [apply group_keys_nodup|exact Hin].
Qed.

End GroupFacts.

Section SortFacts.
Context {A : Type}.
Variable key : A -> Z.

Lemma insert_desc_perm (x : A) (l : list A) :
  Permutation (insert_desc key x l) (x :: l).
Proof.
  induction l as [|y tl IH]; simpl; [reflexivity|].
  destruct (key y <=? key x); [reflexivity|].
  rewrite IH. apply perm_swap.
Qed.

Lemma sort_desc_perm (l : list A) : Permutation (sort_desc key l) l.
Proof.
  induction l as [|x tl IH]; simpl; [reflexivity|].
  rewrite insert_desc_perm. now constructor.
Qed.

Lemma sort_desc_in (x : A) (l : list A) : In x (sort_desc key l) <-> In x l.
Proof.
  split; apply Permutation_in;
    [apply sort_desc_perm|symmetry; apply sort_desc_perm].
Qed.

Lemma sort_desc_length (l : list A) :
  List.length (sort_desc key l) = List.length l.
Proof. apply Permutation_length, sort_desc_perm. Qed.

End SortFacts.

Section Descending.
Context {A : Type}.
Variable key : A -> Z.

Lemma insert_desc_in (x y : A) (l : list A) :
  In y (insert_desc key x l) <-> y = x \/ In y l.
Proof.
  split.
  - intro H. apply (Permutation_in _ (insert_desc_perm key x l)) in H.
    destruct H; auto.
  - intro H. apply (Permutation_in _ (Permutation_sym (insert_desc_perm key x l))).
    destruct H; [left; auto|right; auto].
Qed.

Lemma insert_desc_descending (x : A) (l : list A) :
  descending key l -> descending key (insert_desc key x l).
Proof.
  unfold descending. induction l as [|y tl IH]; simpl; intro H.
  - constructor; constructor.
  - apply StronglySorted_inv in H. destruct H as [Htl Hy].
    destruct (key y <=? key x) eqn:E.
    + constructor; [constructor; assumption|].
      constructor; [lia|].
      rewrite Forall_forall in *. intros z Hz. specialize (Hy z Hz). lia.
    + constructor; [now apply IH|].
      rewrite Forall_forall in *. intros z Hz.
      apply insert_desc_in in Hz. destruct Hz as [->|Hz]; [lia|now apply Hy].
Qed.

Lemma sort_desc_descending (l : list A) : descending key (sort_desc key l).
Proof.
  induction l as [|x tl IH]; simpl; [constructor|].
  now apply insert_desc_descending.
Qed.

Lemma descending_firstn (n : nat) (l : list A) :
  descending key l -> descending key (firstn n l).
Proof.
  unfold descending. revert n. induction l as [|x tl IH]; intros n H.
  - destruct n; constructor.
  - destruct n; simpl; [constructor|].
    apply StronglySorted_inv in H. destruct H as [Htl Hx].
    constructor; [now apply IH|].
    rewrite Forall_forall in *. intros z Hz. apply Hx.
    rewrite <- (firstn_skipn n tl). apply in_or_app. now left.
Qed.

Lemma descending_filter (p : A -> bool) (l : list A) :
  descending key l -> descending key (filter p l).
Proof.
  unfold descending. induction l as [|x tl IH]; simpl; intro H; [constructor|].
  apply StronglySorted_inv in H. destruct H as [Htl Hx].
  destruct (p x); [|now apply IH].
  constructor; [now apply IH|].
  rewrite Forall_forall in *. intros z Hz. apply Hx.
  apply filter_In in Hz. tauto.
Qed.

End Descending.

Lemma NoDup_map_filter {A B : Type} (f : A -> B) (p : A -> bool)
  (l : list A) :
  NoDup (map f l) -> NoDup (map f (filter p l)).
Proof.
  induction l as [|a l IH]; simpl; [auto|].
  intro Hnd. inversion Hnd as [|x xs Hnotin Hnd']; subst.
  destruct (p a); simpl; [|now apply IH].
  constructor; [|now apply IH].
  intro H. apply Hnotin. apply in_map_iff in H. destruct H as [y [Hy Hin]].
  apply filter_In in Hin. apply in_map_iff. exists y. tauto.
Qed.

Section Ranking.
Context {A : Type}.
Variable key : A -> Z.

Lemma filter_length_perm (p : A -> bool) (l l' : list A) :
  Permutation l l' -> List.length (filter p l) = List.length (filter p l').
Proof.
  induction 1; simpl; try reflexivity.
  - destruct (p x); simpl; congruence.
  - destruct (p x), (p y); reflexivity.
  - congruence.
Qed.

(** In a descending list, an element that at most [n] elements equal
    or exceed is among the first [n]. *)
Lemma descending_rank_in (x : A) (l : list A) (n : nat) :
  descending key l -> In x l ->
  (List.length (filter (fun y => (key x <=? key y)%Z) l) <= n)%nat ->
  In x (firstn n l).
Proof.
  unfold descending. revert n.
  induction l as [|a tl IH]; intros n Hs Hin Hlen; [destruct Hin|].
  apply StronglySorted_inv in Hs. destruct Hs as [Htl Ha].
  destruct n as [|n].
  - exfalso.
    assert (Hx : In x (filter (fun y => key x <=? key y) (a :: tl))).
    { apply filter_In. split; [exact Hin|apply Z.leb_refl]. }
    destruct (filter _ (a :: tl)); [destruct Hx|simpl in Hlen; lia].
  - simpl. destruct Hin as [Hin|Hin]; [now left|]. right.
    apply IH; [exact Htl|exact Hin|].
    rewrite Forall_forall in Ha. specialize (Ha x Hin).
    simpl in Hlen. destruct (key x <=? key a) eqn:E; [simpl in Hlen|]; lia.
Qed.

(** In a descending list of which at least [n] elements exceed [c],
    the first [n] all do. *)
Lemma descending_rank_out (c : Z) (l : list A) (n : nat) :
  descending key l ->
  (n <= List.length (filter (fun y => (c <? key y)%Z) l))%nat ->
  forall y, In y (firstn n l) -> c < key y.
Proof.
  unfold descending. revert n.
  induction l as [|a tl IH]; intros n Hs Hlen y Hy.
  - destruct n; destruct Hy.
  - destruct n as [|n]; [destruct Hy|].
    apply StronglySorted_inv in Hs. destruct Hs as [Htl Ha].
    simpl in Hlen, Hy. destruct (c <? key a) eqn:E.
    + destruct Hy as [Hy|Hy]; [subst y; lia|].
      apply (IH n); [exact Htl|simpl in Hlen; lia|exact Hy].
    + exfalso. rewrite filter_none in Hlen; [simpl in Hlen; lia|].
      intros z Hz. rewrite Forall_forall in Ha. specialize (Ha z Hz). lia.
Qed.

Lemma sort_limit_in (x : A) (l : list A) (n : nat) :
  In x l ->
  (List.length (filter (fun y => (key x <=? key y)%Z) l) <= n)%nat ->
  In x (firstn n (sort_desc key l)).
Proof.
  intros Hin Hlen. apply descending_rank_in.
  - apply sort_desc_descending.
  - now apply sort_desc_in.
  - rewrite (filter_length_perm _ _ _ (sort_desc_perm key l)). exact Hlen.
Qed.

Lemma sort_limit_out (c : Z) (l : list A) (n : nat) :
  (n <= List.length (filter (fun y => (c <? key y)%Z) l))%nat ->
  forall y, In y (firstn n (sort_desc key l)) -> c < key y.
Proof.
  intro Hlen. apply descending_rank_out.
  - apply sort_desc_descending.
  - rewrite (filter_length_perm _ _ _ (sort_desc_perm key l)). exact Hlen.
Qed.

End Ranking.

Section Distinct.
Context {K : Type}.
Variable keq : K -> K -> bool.
Hypothesis keq_eq : forall a b, keq a b = true <-> a = b.

Lemma distinct_in (k : K) (l : list K) : In k (distinct keq l) <-> In k l.
Proof.
  induction l as [|a tl IH]; simpl; [tauto|].
  destruct (existsb (keq a) tl) eqn:E; simpl; rewrite IH; [|tauto].
  split; [auto|]. intros [H|H]; [|exact H]. subst a.
  apply existsb_exists in E. destruct E as [x [Hx Heq]].
  apply keq_eq in Heq. now subst.
Qed.

Lemma distinct_nodup (l : list K) : NoDup (distinct keq l).
Proof.
  induction l as [|a tl IH]; simpl; [constructor|].
  destruct (existsb (keq a) tl) eqn:E; [exact IH|].
  constructor; [|exact IH]. rewrite distinct_in. intro Hin.
  assert (Hex : existsb (keq a) tl = true).
  { apply existsb_exists. exists a. split; [exact Hin|now apply keq_eq]. }
  congruence.
Qed.

End Distinct.

(** Two duplicate-free collections with the same keys have as many
    members that pass a test on the key. *)
Lemma filter_length_transfer {A B : Type} (f : A -> B) (pa : A -> bool)
  (pb : B -> bool) (la : list A) (lb : list B) :
  NoDup (map f la) -> NoDup lb ->
  (forall b, In b lb <-> In b (map f la)) ->
  (forall a, In a la -> pa a = pb (f a)) ->
  List.length (filter pa la) = List.length (filter pb lb).
Proof.
  intros Hna Hnb Hsame Hp.
  rewrite <- (length_map f (filter pa la)).
  apply Permutation_length. apply NoDup_Permutation.
  - now apply NoDup_map_filter.
  - now apply NoDup_filter.
  - intro b. rewrite in_map_iff, filter_In, Hsame, in_map_iff. split.
    + intros [a [Hfa Ha]]. apply filter_In in Ha. destruct Ha as [Ha Hpa].
      subst b. split; [now exists a|]. now rewrite <- Hp.
    + intros [[a [Hfa Ha]] Hpb]. exists a. split; [exact Hfa|].
      apply filter_In. split; [exact Ha|]. rewrite Hp by exact Ha.
      now rewrite Hfa.
Qed.

Lemma mongo_limit_ok {A : Type} (limit : Z) (rows : list A) :
  0 < limit <= int64_max ->
  mongo_limit limit rows = Ok (firstn (Z.to_nat limit) rows).
Proof.
  unfold mongo_limit, int64_max, int64_min. intro H.
  destruct (limit >? 9223372036854775807) eqn:E1; [lia|].
  destruct (limit <? -9223372036854775808) eqn:E2; [lia|]. simpl.
  destruct (limit <=? 0) eqn:E3; [lia|reflexivity].
Qed.

Lemma mongo_limit_in {A : Type} (limit : Z) (rows out : list A) (x : A) :
  mongo_limit limit rows = Ok out -> In x out -> In x rows.
Proof.
  unfold mongo_limit. destruct (_ || _); [discriminate|].
  destruct (limit <=? 0); [discriminate|].
  intro H. inversion H; subst. intro Hin.
  rewrite <- (firstn_skipn (Z.to_nat limit) rows).
  apply in_or_app. now left.
Qed.

Lemma mongo_limit_all {A : Type} (limit : Z) (rows : list A) :
  0 < limit <= int64_max ->
  Z.of_nat (List.length rows) <= limit ->
  mongo_limit limit rows = Ok rows.
Proof.
  intros H Hlen. rewrite mongo_limit_ok by exact H.
  rewrite firstn_all2; [reflexivity|lia].
Qed.

(** * The team leaderboard *)

Lemma sum3_assoc (a b c : Z * Z * Z) : sum3 a (sum3 b c) = sum3 (sum3 a b) c.
Proof.
  destruct a as [[? ?] ?], b as [[? ?] ?], c as [[? ?] ?]. simpl.
  f_equal; [f_equal|]; lia.
Qed.

Lemma sum3_comm (a b : Z * Z * Z) : sum3 a b = sum3 b a.
Proof.
  destruct a as [[? ?] ?], b as [[? ?] ?]. simpl. f_equal; [f_equal|]; lia.
Qed.

Lemma sum3_zero (a : Z * Z * Z) : sum3 a (0, 0, 0) = a.
Proof. destruct a as [[? ?] ?]. simpl. f_equal; [f_equal|]; lia. Qed.

Lemma triple_eq (a a' b b' c c' : Z) :
  a = a' -> b = b' -> c = c' -> (a, b, c) = (a', b', c').
Proof. congruence. Qed.

Lemma total_pairs (t : ObjectId) (ms : list MatchDoc) :
  total N.eqb sum3 (0, 0, 0) t (map pair_row (flat_map pairs ms))
  = (goals_of t ms, wins_of t ms, draws_of t ms).
Proof.
  induction ms as [|m ms IH]; [reflexivity|].
  change (flat_map pairs (m :: ms)) with (pairs m ++ flat_map pairs ms).
  unfold pairs at 1. cbn [app map]. rewrite !total_cons, IH.
  unfold goals_of, wins_of, draws_of, pair_row. simpl.
  destruct (N.eqb (home_team_id m) t), (N.eqb (away_team_id m) t); simpl;
    apply triple_eq; lia.
Qed.

Lemma pair_keys (t : ObjectId) (ms : list MatchDoc) :
  In t (map fst (map pair_row (flat_map pairs ms))) <-> plays_in t ms.
Proof.
  unfold plays_in. induction ms as [|m ms IH]; simpl.
  - split; [tauto|intros [m [[] _]]].
  - rewrite IH. split.
    + intros [H|[H|[m' [Hin Ht]]]].
      * exists m. auto.
      * exists m. auto.
      * exists m'. auto.
    + intros [m' [[<-|Hin] Ht]]; [tauto|].
      right. right. exists m'. auto.
Qed.

Lemma team_groups_sound (ms : list MatchDoc) (r : TeamAgg) :
  In r (team_groups ms) ->
  agg_goals r = goals_of (agg_id r) ms
  /\ agg_wins r = wins_of (agg_id r) ms
  /\ agg_draws r = draws_of (agg_id r) ms
  /\ agg_points r = agg_wins r * 3 + agg_draws r
  /\ plays_in (agg_id r) ms.
Proof.
  unfold team_groups, group_teams. intro Hin. apply in_map_iff in Hin.
  destruct Hin as [[t [[g w] dr]] [<- Hin]]. simpl.
  fold pair_row in Hin.
  pose proof (group_row N.eqb sum3 (0, 0, 0) N.eqb_eq sum3_assoc sum3_comm
                sum3_zero t (g, w, dr) _ Hin) as Hrow.
  rewrite total_pairs in Hrow. inversion Hrow; subst.
  repeat split. apply pair_keys.
  apply (group_keys_in N.eqb sum3 N.eqb_eq).
  apply in_map_iff. now exists (t, (goals_of t ms, wins_of t ms, draws_of t ms)).
Qed.

Lemma team_groups_ids (ms : list MatchDoc) :
  map agg_id (team_groups ms) = map fst (group_teams (flat_map pairs ms)).
Proof.
  unfold team_groups. rewrite map_map. apply map_ext.
  intros [t [[g w] dr]]. reflexivity.
Qed.

Lemma team_groups_complete (ms : list MatchDoc) (t : ObjectId) :
  plays_in t ms -> exists r, In r (team_groups ms) /\ agg_id r = t.
Proof.
  intro Hp. apply pair_keys in Hp.
  apply (group_keys_in N.eqb sum3 N.eqb_eq) in Hp.
  change (In t (map fst (group_teams (flat_map pairs ms)))) in Hp.
  rewrite <- team_groups_ids in Hp. apply in_map_iff in Hp.
  destruct Hp as [r [Hid Hin]]. now exists r.
Qed.

Lemma team_groups_nodup (ms : list MatchDoc) :
  NoDup (map agg_id (team_groups ms)).
Proof.
  rewrite team_groups_ids. apply (group_keys_nodup N.eqb sum3 N.eqb_eq).
Qed.

Lemma flat_map_pairs_length (ms : list MatchDoc) :
  List.length (flat_map pairs ms) = (2 * List.length ms)%nat.
Proof. induction ms as [|m ms IH]; simpl; [reflexivity|]. rewrite IH. lia. Qed.

Lemma team_groups_length (ms : list MatchDoc) :
  (List.length (team_groups ms) <= 2 * List.length ms)%nat.
Proof.
  unfold team_groups, group_teams. rewrite length_map.
  rewrite <- flat_map_pairs_length.
  rewrite <- (length_map pair_row (flat_map pairs ms)).
  apply (group_length N.eqb sum3 N.eqb_eq).
Qed.

Lemma teams_aggregate_run (mf : option (list ObjectId)) (stat : TeamStat)
  (limit : Z) (d : Database) :
  teams_aggregate mf stat limit (Some d)
  = (match team_pipeline mf stat limit (db_match d) with
     | Ok rows => Ok (flat_map (join_team d) rows)
     | Raise e => Raise e
     end, Some d).
Proof.
  unfold teams_aggregate. run_app.
  destruct (team_pipeline mf stat limit (db_match d)); reflexivity.
Qed.

Lemma leaderboard_teams_run (scope : Scope) (country city : option string)
  (stat : TeamStat) (limit : Z) (d : Database) :
  leaderboard_teams scope country city stat limit (Some d)
  = match team_match_filter d scope country city with
    | Some [] => (Ok [], Some d)
    | mf => teams_aggregate mf stat limit (Some d)
    end.
Proof.
  unfold leaderboard_teams, team_match_filter, bind at 1, require_db at 1.
  destruct scope; try reflexivity; destruct (map t_id _); reflexivity.
Qed.

Lemma team_pipeline_groups (mf : option (list ObjectId)) (stat : TeamStat)
  (limit : Z) (ms : list MatchDoc) :
  team_pipeline mf stat limit ms
  = mongo_limit limit (sort_desc (team_stat_key stat)
                                 (team_groups (stage_match mf ms))).
Proof. reflexivity. Qed.

Lemma join_team_in (d : Database) (aggs : list TeamAgg) (row : TeamRow) :
  In row (flat_map (join_team d) aggs)
  <-> exists r team,
        In r aggs
        /\ find_one (fun t => N.eqb (t_id t) (agg_id r)) (db_team d) = Some team
        /\ row = mkTeamRow (agg_id r) (t_name team) (t_country team)
                           (t_city team) (agg_goals r) (agg_wins r)
                           (agg_points r).
Proof.
  rewrite in_flat_map. unfold join_team. split.
  - intros [r [Hin Hrow]].
    destruct (find_one _ (db_team d)) as [team|] eqn:Hf; [|destruct Hrow].
    destruct Hrow as [<-|[]]. exists r, team. auto.
  - intros [r [team [Hin [Hf ->]]]]. exists r. split; [exact Hin|].
    rewrite Hf. now left.
Qed.

Lemma join_team_ids (d : Database) (aggs : list TeamAgg) (t : ObjectId) :
  In t (map row_team_id (flat_map (join_team d) aggs)) ->
  In t (map agg_id aggs).
Proof.
  intro H. apply in_map_iff in H. destruct H as [row [<- Hin]].
  apply join_team_in in Hin. destruct Hin as [r [team [Hr [_ ->]]]].
  simpl. now apply in_map.
Qed.

Lemma join_team_nodup (d : Database) (aggs : list TeamAgg) :
  NoDup (map agg_id aggs) ->
  NoDup (map row_team_id (flat_map (join_team d) aggs)).
Proof.
  induction aggs as [|a aggs IH]; simpl; [constructor|].
  intro Hnd. inversion Hnd as [|x xs Hnotin Hnd']; subst.
  rewrite map_app. unfold join_team at 1.
  destruct (find_one _ (db_team d)); simpl; [|now apply IH].
  constructor; [|now apply IH].
  intro H. apply Hnotin. now apply (join_team_ids d).
Qed.

Lemma NoDup_firstn {A : Type} (n : nat) (l : list A) :
  NoDup l -> NoDup (firstn n l).
Proof.
  intro H. rewrite <- (firstn_skipn n l) in H.
  now apply NoDup_app_remove_r in H.
Qed.

Lemma mongo_limit_nodup {A B : Type} (f : A -> B) (limit : Z)
  (rows out : list A) :
  mongo_limit limit rows = Ok out -> NoDup (map f rows) -> NoDup (map f out).
Proof.
  unfold mongo_limit. destruct (_ || _); [discriminate|].
  destruct (limit <=? 0); [discriminate|].
  intros H Hnd. inversion H; subst. rewrite <- firstn_map.
  now apply NoDup_firstn.
Qed.

Lemma stage_match_none (ms : list MatchDoc) : stage_match (Some []) ms = [].
Proof. simpl. apply filter_none. reflexivity. Qed.

Lemma in_firstn {A : Type} (n : nat) (l : list A) (x : A) :
  In x (firstn n l) -> In x l.
Proof.
  intro H. rewrite <- (firstn_skipn n l). apply in_or_app. now left.
Qed.

Lemma filter_all {A : Type} (p : A -> bool) (l : list A) :
  (forall x, In x l -> p x = true) -> filter p l = l.
Proof.
  induction l as [|a l IH]; simpl; intro H; [reflexivity|].
  rewrite (H a (or_introl eq_refl)). f_equal. apply IH.
  intros x Hx. apply H. now right.
Qed.

(** ** The candidate matches *)

Lemma param_matches_key (param : option string) (v : string) :
  key_matches (truthy param) (Some v) = param_matches param v.
Proof.
  unfold key_matches, truthy, param_matches.
  destruct param as [x|]; [|reflexivity].
  destruct (String.eqb x EmptyString); reflexivity.
Qed.

Lemma in_scope_filter (scope : Scope) (country city : option string)
  (t : TeamDoc) :
  scope <> ScopeGlobal ->
  team_matches (team_filter scope country city) t
  = in_scope scope country city t.
Proof.
  unfold team_matches, team_filter, in_scope. destruct scope; simpl.
  - congruence.
  - intros _. rewrite param_matches_key. apply andb_true_r.
  - intros _. now rewrite !param_matches_key.
Qed.

Lemma candidate_iff (d : Database) (scope : Scope)
  (country city : option string) (m : MatchDoc) :
  candidate d scope country city m = true
  <-> scope = ScopeGlobal
      \/ exists team,
           In team (db_team d)
           /\ in_scope scope country city team = true
           /\ (home_team_id m = t_id team \/ away_team_id m = t_id team).
Proof.
  assert (H : existsb (fun t => in_scope scope country city t
                                && (N.eqb (t_id t) (home_team_id m)
                                    || N.eqb (t_id t) (away_team_id m)))
                      (db_team d) = true
              <-> exists team,
                    In team (db_team d)
                    /\ in_scope scope country city team = true
                    /\ (home_team_id m = t_id team
                        \/ away_team_id m = t_id team)).
  { rewrite existsb_exists. split; intros [t [Hin Ht]]; exists t.
    - apply andb_true_iff in Ht. destruct Ht as [Hs Hside].
      apply orb_true_iff in Hside. rewrite !N.eqb_eq in Hside.
      repeat split; [exact Hin|exact Hs|]. destruct Hside; auto.
    - destruct Ht as [Hs Hside]. split; [exact Hin|].
      apply andb_true_iff. split; [exact Hs|].
      apply orb_true_iff. rewrite !N.eqb_eq. destruct Hside; auto. }
  unfold candidate. destruct scope.
  - split; auto.
  - rewrite H. split; [auto|]. intros [Hg|Hx]; [discriminate|exact Hx].
  - rewrite H. split; [auto|]. intros [Hg|Hx]; [discriminate|exact Hx].
Qed.

Lemma stage_candidate (d : Database) (scope : Scope)
  (country city : option string) (m : MatchDoc) :
  candidate d scope country city m
  = match team_match_filter d scope country city with
    | None => true
    | Some ids => oid_in (home_team_id m) ids || oid_in (away_team_id m) ids
    end.
Proof.
  apply Bool.eq_iff_eq_true. rewrite candidate_iff.
  destruct (Scope_eqb scope ScopeGlobal) eqn:Es.
  - destruct scope; try discriminate. simpl. split; auto.
  - assert (Hne : scope <> ScopeGlobal) by (intro; subst; discriminate).
    assert (Hmf : team_match_filter d scope country city
                  = Some (map t_id
                            (find_all
                               (team_matches (team_filter scope country city))
                               (db_team d))))
      by (destruct scope; [congruence|reflexivity|reflexivity]).
    rewrite Hmf. rewrite orb_true_iff. unfold oid_in.
    rewrite !existsb_exists. split.
    + intros [Hg|[team [Hin [Hs Hside]]]]; [congruence|].
      assert (Hid : In (t_id team)
                      (map t_id
                         (find_all
                            (team_matches (team_filter scope country city))
                            (db_team d)))).
      { apply in_map. unfold find_all. apply filter_In.
        split; [exact Hin|]. now rewrite in_scope_filter. }
      destruct Hside as [Hh|Ha]; [left|right]; exists (t_id team);
        (split; [exact Hid|apply N.eqb_eq; assumption]).
    + assert (Hback : forall o x,
                In x (map t_id
                        (find_all
                           (team_matches (team_filter scope country city))
                           (db_team d))) ->
                N.eqb o x = true ->
                exists team, In team (db_team d)
                  /\ in_scope scope country city team = true
                  /\ o = t_id team).
      { intros o x Hx Heq. apply N.eqb_eq in Heq. subst x.
        apply in_map_iff in Hx. destruct Hx as [team [Hid Hin]].
        unfold find_all in Hin. apply filter_In in Hin.
        destruct Hin as [Hin Hm]. rewrite in_scope_filter in Hm by exact Hne.
        exists team. auto. }
      intros [[x [Hx Heq]]|[x [Hx Heq]]];
        destruct (Hback _ x Hx Heq) as [team [H1 [H2 H3]]];
        right; exists team; auto.
Qed.

Lemma candidates_stage (d : Database) (scope : Scope)
  (country city : option string) :
  candidates d scope country city
  = stage_match (team_match_filter d scope country city) (db_match d).
Proof.
  unfold candidates, stage_match.
  destruct (team_match_filter d scope country city) as [ids|] eqn:E.
  - apply filter_ext. intro m. rewrite stage_candidate, E. reflexivity.
  - apply filter_all. intros m _. rewrite stage_candidate, E. reflexivity.
Qed.

Lemma candidates_global (d : Database) (country city : option string) :
  candidates d ScopeGlobal country city = db_match d.
Proof. unfold candidates. apply filter_all. reflexivity. Qed.

(** ** Places of the teams *)

Lemma playing_in (t : ObjectId) (ms : list MatchDoc) :
  In t (playing ms) <-> plays_in t ms.
Proof.
  unfold playing, plays_in. rewrite (distinct_in N.eqb N.eqb_eq).
  rewrite in_flat_map. split; intros [m [Hm Ht]]; exists m; simpl in *;
    intuition.
Qed.

Lemma team_stat_key_sound (stat : TeamStat) (ms : list MatchDoc)
  (r : TeamAgg) :
  In r (team_groups ms) ->
  team_stat_key stat r = team_stat stat (agg_id r) ms.
Proof.
  intro H. destruct (team_groups_sound ms r H) as [Hg [Hw [Hd [Hp _]]]].
  destruct stat; simpl; congruence.
Qed.

Lemma team_groups_count (p : Z -> bool) (stat : TeamStat)
  (ms : list MatchDoc) :
  List.length (filter (fun r => p (team_stat_key stat r)) (team_groups ms))
  = List.length (filter (fun t => p (team_stat stat t ms)) (playing ms)).
Proof.
  apply (filter_length_transfer agg_id).
  - apply team_groups_nodup.
  - apply distinct_nodup, N.eqb_eq.
  - intro t. rewrite playing_in. split.
    + intro H. destruct (team_groups_complete ms t H) as [r [Hr Hid]].
      apply in_map_iff. now exists r.
    + intro H. apply in_map_iff in H. destruct H as [r [Hid Hr]]. subst t.
      apply (team_groups_sound ms r Hr).
  - intros r Hr. now rewrite (team_stat_key_sound stat ms r Hr).
Qed.

Lemma leaderboard_teams_sound (scope : Scope) (country city : option string)
  (stat : TeamStat) (limit : Z) (d : Database) (rows : list TeamRow)
  (s' : option Database) :
  leaderboard_teams scope country city stat limit (Some d) = (Ok rows, s') ->
  NoDup (map row_team_id rows)
  /\ forall row, In row rows ->
       exists r team,
         In r (team_groups (candidates d scope country city))
         /\ find_one (fun t => N.eqb (t_id t) (agg_id r)) (db_team d)
            = Some team
         /\ row = mkTeamRow (agg_id r) (t_name team) (t_country team)
                            (t_city team) (agg_goals r) (agg_wins r)
                            (agg_points r).
Proof.
  rewrite leaderboard_teams_run, candidates_stage.
  set (mf := team_match_filter d scope country city).
  assert (Hagg : teams_aggregate mf stat limit (Some d) = (Ok rows, s') ->
                 NoDup (map row_team_id rows)
                 /\ forall row, In row rows ->
                      exists r team,
                        In r (team_groups (stage_match mf (db_match d)))
                        /\ find_one (fun t => N.eqb (t_id t) (agg_id r))
                                    (db_team d) = Some team
                        /\ row = mkTeamRow (agg_id r) (t_name team)
                                   (t_country team) (t_city team)
                                   (agg_goals r) (agg_wins r) (agg_points r)).
  { rewrite teams_aggregate_run, team_pipeline_groups.
    destruct (mongo_limit _ _) as [out|] eqn:Hl; [|discriminate].
    intro H. inversion H; subst. split.
    - apply join_team_nodup. apply (mongo_limit_nodup agg_id _ _ _ Hl).
      apply (Permutation_NoDup (l := map agg_id
                                  (team_groups (stage_match mf (db_match d))))).
      + apply Permutation_map. symmetry. apply sort_desc_perm.
      + apply team_groups_nodup.
    - intros row Hrow. apply join_team_in in Hrow.
      destruct Hrow as [r [team [Hr [Hf Hrow]]]]. exists r, team.
      split; [|auto].
      apply (mongo_limit_in _ _ _ _ Hl) in Hr. now apply sort_desc_in in Hr. }
  destruct mf as [[|i ids]|]; try exact Hagg.
  intro H. inversion H; subst. split; [constructor|intros row []].
Qed.

Lemma leaderboard_teams_total (scope : Scope) (country city : option string)
  (stat : TeamStat) (limit : Z) (d : Database) :
  0 < limit <= int64_max ->
  exists rows,
    leaderboard_teams scope country city stat limit (Some d)
    = (Ok rows, Some d).
Proof.
  intro Hl. rewrite leaderboard_teams_run.
  destruct (team_match_filter d scope country city) as [[|i ids]|];
    try (now exists []);
    rewrite teams_aggregate_run, team_pipeline_groups,
      (mongo_limit_ok _ _ Hl); eexists; reflexivity.
Qed.

(** A stored team of a candidate match is returned when at most
    [limit] teams rank at least as high. *)
Lemma leaderboard_teams_listed (scope : Scope) (country city : option string)
  (stat : TeamStat) (limit : Z) (d : Database) (t : ObjectId)
  (team : TeamDoc) :
  0 < limit <= int64_max ->
  find_one (fun x => N.eqb (t_id x) t) (db_team d) = Some team ->
  plays_in t (candidates d scope country city) ->
  Z.of_nat (teams_at_least stat
              (team_stat stat t (candidates d scope country city))
              (candidates d scope country city)) <= limit ->
  exists rows,
    leaderboard_teams scope country city stat limit (Some d)
    = (Ok rows, Some d)
    /\ In (mkTeamRow t (t_name team) (t_country team) (t_city team)
             (goals_of t (candidates d scope country city))
             (wins_of t (candidates d scope country city))
             (wins_of t (candidates d scope country city) * 3
              + draws_of t (candidates d scope country city)))
          rows.
Proof.
  intros Hl Hteam Hplays Hrank. rewrite leaderboard_teams_run.
  unfold teams_at_least in Hrank. rewrite candidates_stage in *.
  set (mf := team_match_filter d scope country city) in *.
  set (ms := stage_match mf (db_match d)) in *.
  assert (Hagg : exists rows,
             teams_aggregate mf stat limit (Some d) = (Ok rows, Some d)
             /\ In (mkTeamRow t (t_name team) (t_country team) (t_city team)
                      (goals_of t ms) (wins_of t ms)
                      (wins_of t ms * 3 + draws_of t ms))
                   rows).
  { rewrite teams_aggregate_run, team_pipeline_groups,
      (mongo_limit_ok _ _ Hl). fold ms.
    eexists. split; [reflexivity|]. apply join_team_in.
    destruct (team_groups_complete _ t Hplays) as [r [Hr Hid]].
    destruct (team_groups_sound _ r Hr) as [Hg [Hw [Hd [Hp _]]]].
    exists r, team. split.
    - apply sort_limit_in; [exact Hr|].
      rewrite (team_groups_count (Z.leb (team_stat_key stat r)) stat ms).
      rewrite (team_stat_key_sound stat ms r Hr), Hid. lia.
    - rewrite Hid in *. split; [exact Hteam|].
      rewrite <- Hg, <- Hw, <- Hd, <- Hp. reflexivity. }
  destruct mf as [[|i ids]|]; try exact Hagg.
  exfalso. unfold ms in Hplays. rewrite stage_match_none in Hplays.
  destruct Hplays as [m [[] _]].
Qed.

(** A team is not returned when [limit] teams or more rank higher. *)
Lemma leaderboard_teams_cut (scope : Scope) (country city : option string)
  (stat : TeamStat) (limit : Z) (d : Database) (t : ObjectId)
  (rows : list TeamRow) (s' : option Database) :
  leaderboard_teams scope country city stat limit (Some d) = (Ok rows, s') ->
  limit <= Z.of_nat (teams_above stat
                       (team_stat stat t (candidates d scope country city))
                       (candidates d scope country city)) ->
  ~ In t (map row_team_id rows).
Proof.
  rewrite leaderboard_teams_run. unfold teams_above.
  rewrite candidates_stage.
  set (mf := team_match_filter d scope country city).
  set (ms := stage_match mf (db_match d)).
  assert (Hagg : teams_aggregate mf stat limit (Some d) = (Ok rows, s') ->
            limit <= Z.of_nat
                       (List.length
                          (filter (fun x => team_stat stat t ms
                                            <? team_stat stat x ms)
                                  (playing ms))) ->
            ~ In t (map row_team_id rows)).
  { rewrite teams_aggregate_run, team_pipeline_groups. fold ms.
    unfold mongo_limit.
    destruct (_ || _); [discriminate|].
    destruct (limit <=? 0) eqn:E; [discriminate|].
    intros H Hrank Hin. inversion H; subst rows. clear H.
    apply in_map_iff in Hin. destruct Hin as [row [Hid Hrow]].
    apply join_team_in in Hrow. destruct Hrow as [r [team [Hr [_ Hrow]]]].
    subst row. simpl in Hid.
    assert (Hgr : In r (team_groups ms)).
    { apply in_firstn in Hr. now apply sort_desc_in in Hr. }
    assert (Hlt : team_stat stat t ms < team_stat_key stat r).
    { apply (sort_limit_out (team_stat_key stat) (team_stat stat t ms)
               (team_groups ms) (Z.to_nat limit)); [|exact Hr].
      rewrite (team_groups_count (Z.ltb (team_stat stat t ms)) stat ms).
      lia. }
    rewrite (team_stat_key_sound stat ms r Hgr), Hid in Hlt. lia. }
  destruct mf as [[|i ids]|]; try exact Hagg.
  intros H _. inversion H. simpl. tauto.
Qed.

(** C6: the candidate matches of a team leaderboard are all stored
    matches for the scope global and otherwise the stored matches whose
    home or away team is a stored team that matches the country (and,
    for the scope city, the city).  Every candidate match becomes
    exactly two rows, the home row with the home score as goals, a win
    of 1 exactly when the home score is greater and a draw of 1 exactly
    when the scores are equal, and the mirrored away row.  Every row
    the leaderboard returns belongs to a team of a candidate match, no
    team is returned twice, and the row carries the team's goals and
    wins summed over its home and away appearances in the candidate
    matches, with points equal to wins times 3 plus draws times 1, and
    the name, country and city of the stored team.  A
    stored team of a candidate match is returned when at most [limit]
    teams of candidate matches have a statistic at least as high, and
    is not returned when [limit] or more have a higher one. *)
Theorem leaderboard_teams_sums :
  forall (d : Database) (scope : Scope) (country city : option string)
         (stat : TeamStat) (limit : Z),
    let cands := candidates d scope country city in
    (forall m,
       In m cands
       <-> In m (db_match d)
           /\ (scope = ScopeGlobal
               \/ exists team,
                    In team (db_team d)
                    /\ in_scope scope country city team = true
                    /\ (home_team_id m = t_id team
                        \/ away_team_id m = t_id team)))
    /\ (0 < limit <= int64_max ->
        exists rows,
          leaderboard_teams scope country city stat limit (Some d)
          = (Ok rows, Some d))
    /\ (forall m,
          exists wh wa dr,
            pairs m = [ mkPair (home_team_id m) (home_score m) (away_score m)
                               wh dr;
                        mkPair (away_team_id m) (away_score m) (home_score m)
                               wa dr ]
            /\ (wh = 1 /\ home_score m > away_score m
                \/ wh = 0 /\ ~ home_score m > away_score m)
            /\ (wa = 1 /\ away_score m > home_score m
                \/ wa = 0 /\ ~ away_score m > home_score m)
            /\ (dr = 1 /\ home_score m = away_score m
                \/ dr = 0 /\ home_score m <> away_score m))
    /\ List.length (flat_map pairs cands) = (2 * List.length cands)%nat
    /\ (forall rows s',
          leaderboard_teams scope country city stat limit (Some d)
          = (Ok rows, s') ->
          NoDup (map row_team_id rows)
          /\ forall row, In row rows ->
               plays_in (row_team_id row) cands
               /\ (exists team,
                     find_one (fun x => N.eqb (t_id x) (row_team_id row))
                              (db_team d) = Some team
                     /\ row_team_name row = t_name team
                     /\ row_country row = t_country team
                     /\ row_city row = t_city team)
               /\ row_goals row = goals_of (row_team_id row) cands
               /\ row_wins row = wins_of (row_team_id row) cands
               /\ row_points row
                  = wins_of (row_team_id row) cands * 3
                    + draws_of (row_team_id row) cands * 1)
    /\ (forall t team,
          0 < limit <= int64_max ->
          find_one (fun x => N.eqb (t_id x) t) (db_team d) = Some team ->
          plays_in t cands ->
          Z.of_nat (teams_at_least stat (team_stat stat t cands) cands)
          <= limit ->
          exists rows row,
            leaderboard_teams scope country city stat limit (Some d)
            = (Ok rows, Some d)
            /\ In row rows
            /\ row_team_id row = t
            /\ row_goals row = goals_of t cands
            /\ row_wins row = wins_of t cands
            /\ row_points row = wins_of t cands * 3 + draws_of t cands * 1)
    /\ (forall t rows s',
          leaderboard_teams scope country city stat limit (Some d)
          = (Ok rows, s') ->
          limit <= Z.of_nat (teams_above stat (team_stat stat t cands) cands) ->
          ~ In t (map row_team_id rows)).
Proof.
  intros d scope country city stat limit cands.
  split.
  { intro m. unfold cands, candidates. rewrite filter_In, candidate_iff.
    reflexivity. }
  split; [apply leaderboard_teams_total|].
  split.
  { intro m. unfold pairs. do 3 eexists. split; [reflexivity|].
    unfold cond.
    destruct (home_score m >? away_score m) eqn:E1;
      destruct (away_score m >? home_score m) eqn:E2;
      destruct (home_score m =? away_score m) eqn:E3;
      repeat split; lia. }
  split; [apply flat_map_pairs_length|].
  split.
  { intros rows s' Hrun.
    destruct (leaderboard_teams_sound _ _ _ _ _ _ _ _ Hrun) as [Hnd Hrows].
    split; [exact Hnd|]. intros row Hin.
    destruct (Hrows row Hin) as [r [team [Hr [Hf ->]]]]. simpl.
    destruct (team_groups_sound _ r Hr) as [Hg [Hw [Hd [Hp Hplay]]]].
    fold cands in Hg, Hw, Hd, Hplay.
    split; [exact Hplay|].
    split; [exists team; repeat split; exact Hf|].
    repeat split; try assumption. rewrite Hp, Hw, Hd. lia. }
  split.
  { intros t team Hl Hteam Hplays Hrank.
    destruct (leaderboard_teams_listed scope country city stat limit d t team
                Hl Hteam Hplays Hrank) as [rows [Hrun Hin]].
    exists rows. eexists. split; [exact Hrun|]. split; [exact Hin|].
    simpl. fold cands. repeat split. lia. }
  intros t rows s' Hrun Hrank.
  exact (leaderboard_teams_cut scope country city stat limit d t rows s'
           Hrun Hrank).
Qed.

(** Instance of [leaderboard_teams_sums]: the points table of the
    scenario after the home side has scored, cut to one row.  The
    Falcons, with 3 points, are returned; the Eagles, with none, are
    not. *)
Lemma leaderboard_teams_sums_witness :
  (0 < 1 <= int64_max
   /\ find_one (fun x => N.eqb (t_id x) 1%N) (db_team Scenario.db_one_goal)
      = Some Scenario.falcons_doc
   /\ plays_in 1%N (candidates Scenario.db_one_goal ScopeGlobal None None)
   /\ Z.of_nat (teams_at_least StatTeamPoints
                  (team_stat StatTeamPoints 1%N
                     (candidates Scenario.db_one_goal ScopeGlobal None None))
                  (candidates Scenario.db_one_goal ScopeGlobal None None))
      <= 1)
  /\ exists rows row,
      leaderboard_teams ScopeGlobal None None StatTeamPoints 1
        (Some Scenario.db_one_goal) = (Ok rows, Some Scenario.db_one_goal)
      /\ In row rows
      /\ row_team_id row = 1%N
      /\ row_goals row = 1
      /\ row_wins row = 1
      /\ row_points row = 3.
Proof.
  assert (Hl : 0 < 1 <= int64_max) by (unfold int64_max; lia).
  assert (Hplays : plays_in 1%N
                     (candidates Scenario.db_one_goal ScopeGlobal None None)).
  { exists Scenario.match_one_goal. split; [left; reflexivity|now left]. }
  assert (Hrank : Z.of_nat (teams_at_least StatTeamPoints
                    (team_stat StatTeamPoints 1%N
                       (candidates Scenario.db_one_goal ScopeGlobal None None))
                    (candidates Scenario.db_one_goal ScopeGlobal None None))
                  <= 1) by (vm_compute; discriminate).
  split; [repeat split; try reflexivity; try apply Hl; assumption|].
  destruct (proj1 (proj2 (proj2 (proj2 (proj2 (proj2
              (leaderboard_teams_sums Scenario.db_one_goal ScopeGlobal None
                 None StatTeamPoints 1))))))
              1%N Scenario.falcons_doc Hl eq_refl Hplays Hrank)
    as [rows [row [H1 [H2 [H3 [H4 [H5 H6]]]]]]].
  exists rows, row. repeat split; assumption.
Defined.

Lemma side_sum_snoc (hf af : MatchDoc -> Z) (t : ObjectId)
  (ms : list MatchDoc) (m : MatchDoc) :
  side_sum hf af t (ms ++ [m])
  = side_sum hf af t ms
    + (if N.eqb (home_team_id m) t then hf m else 0)
    + (if N.eqb (away_team_id m) t then af m else 0).
Proof. induction ms as [|x ms IH]; simpl; [lia|]. rewrite IH. lia. Qed.

Lemma start_match_run (now : Z) (payload : MatchStart) (d : Database)
  (home away : ObjectId) :
  ObjectId_of_str (ms_home_team_id payload) = Some home ->
  ObjectId_of_str (ms_away_team_id payload) = Some away ->
  let m0 := mkMatchDoc (next_oid d) home away now None [] 0 0 None in
  start_match now payload (Some d)
  = (Ok m0,
     Some (mkDatabase (db_team d) (db_player d) (db_match d ++ [m0])
                      (N.succ (next_oid d)))).
Proof.
  intros Hh Ha m0. unfold start_match. run_app.
  rewrite (to_object_id_str_ok _ _ Hh), (to_object_id_str_ok _ _ Ha).
  reflexivity.
Qed.

(** C9 (as amended): the team leaderboard takes every stored match of
    its scope, ended or not.  A match that [start_match] has just
    created is not ended, stands at 0-0, and yields a home row and an
    away row with draw 1 each; the global scope always selects it, and
    a scope of country or city does when one of its teams is a stored
    team that matches.  In every leaderboard whose scope selects the
    match, the draws (and with them the points) of every team grow by
    1 for each side of the new match the team is on, wins and goals
    staying as they were: when the two sides differ, each gets 1 draw
    and 1 point.  The leaderboard shows a participating team with
    these points when the team is stored and at most [limit] teams of
    the selected matches have a statistic at least as high; it does
    not show a team when [limit] or more have a higher one. *)
Theorem start_match_counts_as_draw :
  forall (d : Database) (now : Z) (payload : MatchStart)
         (home away : ObjectId),
    ObjectId_of_str (ms_home_team_id payload) = Some home ->
    ObjectId_of_str (ms_away_team_id payload) = Some away ->
    exists m0 d',
      start_match now payload (Some d) = (Ok m0, Some d')
      /\ db_match d' = db_match d ++ [m0]
      /\ ended_at m0 = None
      /\ winner_team_id m0 = None
      /\ pairs m0 = [ mkPair home 0 0 0 1; mkPair away 0 0 0 1 ]
      /\ (forall country city,
            candidate d' ScopeGlobal country city m0 = true)
      /\ (forall scope country city,
            candidate d' scope country city m0 = true
            <-> scope = ScopeGlobal
                \/ exists team,
                     In team (db_team d)
                     /\ in_scope scope country city team = true
                     /\ (home = t_id team \/ away = t_id team))
      /\ (forall scope country city,
            candidate d' scope country city m0 = true ->
            let before := candidates d scope country city in
            let after := candidates d' scope country city in
            after = before ++ [m0]
            /\ (forall t,
                  draws_of t after
                  = draws_of t before
                    + cond (N.eqb home t) + cond (N.eqb away t)
                  /\ wins_of t after = wins_of t before
                  /\ goals_of t after = goals_of t before)
            /\ (home <> away ->
                draws_of home after = draws_of home before + 1
                /\ draws_of away after = draws_of away before + 1)
            /\ (forall stat limit t team,
                  0 < limit <= int64_max ->
                  t = home \/ t = away ->
                  find_one (fun x => N.eqb (t_id x) t) (db_team d)
                  = Some team ->
                  Z.of_nat (teams_at_least stat (team_stat stat t after) after)
                  <= limit ->
                  exists rows row,
                    leaderboard_teams scope country city stat limit (Some d')
                    = (Ok rows, Some d')
                    /\ In row rows
                    /\ row_team_id row = t
                    /\ row_goals row = goals_of t before
                    /\ row_wins row = wins_of t before
                    /\ row_points row
                       = wins_of t before * 3 + draws_of t before
                         + cond (N.eqb home t) + cond (N.eqb away t))
            /\ (forall stat limit t rows s',
                  leaderboard_teams scope country city stat limit (Some d')
                  = (Ok rows, s') ->
                  limit
                  <= Z.of_nat (teams_above stat (team_stat stat t after) after) ->
                  ~ In t (map row_team_id rows))).
Proof.
  intros d now payload home away Hh Ha.
  rewrite (start_match_run now payload d home away Hh Ha).
  set (m0 := mkMatchDoc (next_oid d) home away now None [] 0 0 None).
  set (d' := mkDatabase (db_team d) (db_player d) (db_match d ++ [m0])
                        (N.succ (next_oid d))).
  exists m0, d'. split; [reflexivity|].
  do 4 (split; [reflexivity|]).
  split; [reflexivity|].
  split; [intros scope country city;
          exact (candidate_iff d' scope country city m0)|].
  intros scope country city Hc before after.
  assert (Hafter : after = before ++ [m0]).
  { unfold after, before, candidates. simpl db_match.
    rewrite filter_app. simpl filter.
    change (candidate d' scope country city)
      with (candidate d scope country city) in *.
    now rewrite Hc. }
  assert (Hsums : forall t,
             draws_of t after
             = draws_of t before + cond (N.eqb home t) + cond (N.eqb away t)
             /\ wins_of t after = wins_of t before
             /\ goals_of t after = goals_of t before).
  { intro t. rewrite Hafter. unfold draws_of, wins_of, goals_of.
    rewrite !side_sum_snoc. simpl. unfold cond.
    destruct (N.eqb home t), (N.eqb away t); repeat split; lia. }
  split; [exact Hafter|]. split; [exact Hsums|]. split.
  { intro Hne. split.
    - destruct (Hsums home) as [-> _].
      rewrite N.eqb_refl. destruct (N.eqb away home) eqn:E;
        [apply N.eqb_eq in E; congruence|]. simpl. lia.
    - destruct (Hsums away) as [-> _].
      rewrite N.eqb_refl. destruct (N.eqb home away) eqn:E;
        [apply N.eqb_eq in E; congruence|]. simpl. lia. }
  split.
  { intros stat limit t team Hl Ht Hteam Hrank.
    assert (Hplays : plays_in t after).
    { exists m0. split; [rewrite Hafter; apply in_or_app; right; now left|].
      simpl. destruct Ht; auto. }
    destruct (leaderboard_teams_listed scope country city stat limit d'
                t team Hl Hteam Hplays Hrank) as [rows [Hrun Hin]].
    exists rows. eexists. split; [exact Hrun|]. split; [exact Hin|].
    simpl. fold after. destruct (Hsums t) as [Hd [Hw Hg]].
    rewrite Hd, Hw, Hg. repeat split. lia. }
  intros stat limit t rows s' Hrun Hrank.
  exact (leaderboard_teams_cut scope country city stat limit d' t rows s'
           Hrun Hrank).
Qed.

(** Instance of [start_match_counts_as_draw]: the Falcons have played
    nothing; as soon as their first match is started the points table
    lists them with 1 point. *)
Lemma start_match_counts_as_draw_witness :
  (ObjectId_of_str Scenario.id1 = Some 1%N
   /\ ObjectId_of_str Scenario.id2 = Some 2%N)
  /\ exists m0 d' rows row,
      start_match 3 (mkMatchStart Scenario.id1 Scenario.id2)
        (Some Scenario.db_two_teams) = (Ok m0, Some d')
      /\ ended_at m0 = None
      /\ leaderboard_teams ScopeGlobal None None StatTeamPoints 20 (Some d')
         = (Ok rows, Some d')
      /\ In row rows
      /\ row_team_id row = 1%N
      /\ row_points row = 1.
Proof.
  split; [split; reflexivity|].
  destruct (start_match_counts_as_draw Scenario.db_two_teams 3
              (mkMatchStart Scenario.id1 Scenario.id2) 1%N 2%N
              eq_refl eq_refl)
    as [m0 [d' [H1 [H2 [H3 [_ [_ [Hg [_ Hs]]]]]]]]].
  assert (Hl : 0 < 20 <= int64_max) by (unfold int64_max; lia).
  assert (Hd : d' = mkDatabase (db_team Scenario.db_two_teams)
                      (db_player Scenario.db_two_teams)
                      (db_match Scenario.db_two_teams
                       ++ [ mkMatchDoc 3%N 1%N 2%N 3 None [] 0 0 None ])
                      4%N).
  { vm_compute in H1. injection H1 as _ Hd. symmetry. exact Hd. }
  destruct (Hs ScopeGlobal None None (Hg None None))
    as [_ [_ [_ [Hlisted _]]]].
  assert (Hrank : Z.of_nat (teams_at_least StatTeamPoints
                    (team_stat StatTeamPoints 1%N
                       (candidates d' ScopeGlobal None None))
                    (candidates d' ScopeGlobal None None)) <= 20)
    by (rewrite Hd; vm_compute; discriminate).
  destruct (Hlisted StatTeamPoints 20 1%N Scenario.falcons_doc Hl
              (or_introl eq_refl) eq_refl Hrank)
    as [rows [row [Hrun [Hin [Hid [_ [_ Hp]]]]]]].
  exists m0, d', rows, row. repeat split; assumption.
Defined.

(** C9, as stated, fails for a team entered on both sides of a match:
    starting that match grants the team 2 draws and 2 points. *)
Lemma start_match_counts_as_draw_counterexample :
  serve_all Scenario.falcons_self_match (Some empty_db)
  = Some Scenario.db_falcons_self_match
  /\ draws_of 1%N (db_match Scenario.db_falcons_self_match) = 2
  /\ leaderboard_teams ScopeGlobal None None StatTeamPoints 20
       (Some Scenario.db_falcons_self_match)
     = (Ok [ mkTeamRow 1%N "Falcons" "X" "Y" 0 0 2 ],
        Some Scenario.db_falcons_self_match).
Proof. repeat split; vm_compute; reflexivity. Qed.

(** * The player leaderboard *)

Lemma player_groups_rows (stat : PlayerStat) (ms : list MatchDoc) :
  player_groups stat ms
  = mongo_group IdField_eqb Z.add (stat_rows stat (unwind_events ms)).
Proof. destruct stat; reflexivity. Qed.

Lemma stat_rows_cons (stat : PlayerStat) (e : Event) (es : list Event) :
  stat_rows stat (e :: es)
  = match stat_key stat e with
    | Some k => (k, 1) :: stat_rows stat es
    | None => stat_rows stat es
    end.
Proof.
  unfold stat_rows, stat_key, type_in, pid.
  destruct stat; destruct (e_type e) eqn:E;
    do 4 (simpl; rewrite ?E); reflexivity.
Qed.

Lemma credited_key (stat : PlayerStat) (k : IdField) (e : Event) :
  credited stat k e
  = match stat_key stat e with
    | Some k' => IdField_eqb k' k
    | None => false
    end.
Proof.
  unfold credited, stat_key.
  destruct stat; destruct (e_type e); simpl;
    rewrite ?orb_false_r; reflexivity.
Qed.

Lemma stat_rows_total (stat : PlayerStat) (k : IdField) (es : list Event) :
  total IdField_eqb Z.add 0 k (stat_rows stat es)
  = count_events (credited stat k) es.
Proof.
  unfold count_events.
  induction es as [|e es IH]; [destruct stat; reflexivity|].
  rewrite stat_rows_cons. simpl filter. rewrite credited_key.
  destruct (stat_key stat e) as [k'|]; [|exact IH].
  rewrite total_cons. simpl fst. simpl snd.
  destruct (IdField_eqb k' k); [|exact IH].
  rewrite IH. simpl List.length. lia.
Qed.

Lemma stat_rows_keys (stat : PlayerStat) (k : IdField) (es : list Event) :
  In k (map fst (stat_rows stat es))
  <-> exists e, In e es /\ credited stat k e = true.
Proof.
  induction es as [|e es IH].
  - destruct stat; simpl; (split; [tauto|intros [e [[] _]]]).
  - assert (Hstep :
      In k (map fst (stat_rows stat (e :: es)))
      <-> credited stat k e = true \/ In k (map fst (stat_rows stat es))).
    { rewrite stat_rows_cons, credited_key.
      destruct (stat_key stat e) as [k'|]; simpl.
      - rewrite IdField_eqb_eq. tauto.
      - split; [auto|]. intros [H|H]; [discriminate|exact H]. }
    rewrite Hstep, IH. split.
    + intros [H|[e' [Hin H]]]; [exists e|exists e']; simpl; auto.
    + intros [e' [[<-|Hin] H]]; [now left|right; now exists e'].
Qed.

Lemma stat_rows_length (stat : PlayerStat) (es : list Event) :
  (List.length (stat_rows stat es) <= List.length es)%nat.
Proof.
  assert (H : forall f g : Event -> bool,
             (List.length (filter f (filter g es)) <= List.length es)%nat).
  { intros f g. pose proof (filter_length_le f (filter g es)).
    pose proof (filter_length_le g es). lia. }
  unfold stat_rows. destruct stat; rewrite length_map; apply H.
Qed.

Lemma count_events_pos (f : Event -> bool) (es : list Event) :
  0 < count_events f es <-> exists e, In e es /\ f e = true.
Proof.
  unfold count_events. split.
  - intro H. destruct (filter f es) as [|e l] eqn:E; [simpl in H; lia|].
    exists e. apply filter_In. rewrite E. now left.
  - intros [e He]. apply filter_In in He.
    destruct (filter f es); [destruct He|simpl; lia].
Qed.

Lemma player_groups_sound (stat : PlayerStat) (ms : list MatchDoc)
  (k : IdField) (c : Z) :
  In (k, c) (player_groups stat ms) ->
  c = count_events (credited stat k) (unwind_events ms) /\ 0 < c.
Proof.
  rewrite player_groups_rows. intro Hin.
  assert (Hc : c = count_events (credited stat k) (unwind_events ms)).
  { rewrite <- stat_rows_total.
    apply (group_row IdField_eqb Z.add 0 IdField_eqb_eq Z.add_assoc
             Z.add_comm Z.add_0_r k c _ Hin). }
  split; [exact Hc|]. rewrite Hc. apply count_events_pos.
  apply stat_rows_keys.
  apply (group_keys_in IdField_eqb Z.add IdField_eqb_eq).
  apply in_map_iff. now exists (k, c).
Qed.

Lemma player_groups_complete (stat : PlayerStat) (ms : list MatchDoc)
  (k : IdField) :
  0 < count_events (credited stat k) (unwind_events ms) ->
  In (k, count_events (credited stat k) (unwind_events ms))
     (player_groups stat ms).
Proof.
  intro Hpos. apply count_events_pos in Hpos. apply stat_rows_keys in Hpos.
  apply (group_keys_in IdField_eqb Z.add IdField_eqb_eq) in Hpos.
  rewrite <- player_groups_rows in Hpos. apply in_map_iff in Hpos.
  destruct Hpos as [[k' c] [Hk Hin]]. simpl in Hk. subst k'.
  destruct (player_groups_sound stat ms k c Hin) as [<- _]. exact Hin.
Qed.

Lemma player_groups_nodup (stat : PlayerStat) (ms : list MatchDoc) :
  NoDup (map fst (player_groups stat ms)).
Proof.
  rewrite player_groups_rows.
  apply (group_keys_nodup IdField_eqb Z.add IdField_eqb_eq).
Qed.

Lemma player_groups_length (stat : PlayerStat) (ms : list MatchDoc) :
  (List.length (player_groups stat ms)
   <= List.length (unwind_events ms))%nat.
Proof.
  rewrite player_groups_rows.
  pose proof (group_length IdField_eqb Z.add IdField_eqb_eq
                (stat_rows stat (unwind_events ms))).
  pose proof (stat_rows_length stat (unwind_events ms)). lia.
Qed.

(** ** Places of the players *)

Lemma credited_named (stat : PlayerStat) (k : IdField) (e : Event) :
  credited stat k e = true ->
  k = e_player_id e \/ k = e_secondary_player_id e.
Proof.
  unfold credited.
  destruct stat; rewrite ?orb_true_iff, ?andb_true_iff, ?IdField_eqb_eq;
    intuition (subst; auto).
Qed.

Lemma credited_ids_in (stat : PlayerStat) (k : IdField) (es : list Event) :
  In k (credited_ids stat es) <-> 0 < tally stat k es.
Proof.
  unfold credited_ids, named_ids.
  rewrite filter_In, (distinct_in IdField_eqb IdField_eqb_eq), Z.ltb_lt.
  split; [tauto|]. intro H. split; [|exact H].
  unfold tally in H. apply count_events_pos in H.
  destruct H as [e [He Hc]]. apply in_flat_map. exists e.
  split; [exact He|]. simpl. destruct (credited_named _ _ _ Hc); auto.
Qed.

Lemma credited_ids_nodup (stat : PlayerStat) (es : list Event) :
  NoDup (credited_ids stat es).
Proof. apply NoDup_filter, distinct_nodup, IdField_eqb_eq. Qed.

Lemma player_groups_count (p : Z -> bool) (stat : PlayerStat)
  (ms : list MatchDoc) :
  List.length (filter (fun g => p (snd g)) (player_groups stat ms))
  = List.length (filter (fun k => p (tally stat k (unwind_events ms)))
                        (credited_ids stat (unwind_events ms))).
Proof.
  apply (filter_length_transfer fst).
  - apply player_groups_nodup.
  - apply credited_ids_nodup.
  - intro k. rewrite credited_ids_in. split.
    + intro H. apply in_map_iff.
      exists (k, tally stat k (unwind_events ms)). split; [reflexivity|].
      now apply player_groups_complete.
    + intro H. apply in_map_iff in H. destruct H as [[k' c] [Hk Hin]].
      simpl in Hk. subst k'.
      destruct (player_groups_sound _ _ _ _ Hin) as [Hc Hpos].
      unfold tally. now rewrite <- Hc.
  - intros [k c] Hin. simpl.
    destruct (player_groups_sound _ _ _ _ Hin) as [Hc _].
    unfold tally. now rewrite <- Hc.
Qed.

Lemma players_aggregate_run (ids : option (list ObjectId)) (stat : PlayerStat)
  (limit : Z) (d : Database) :
  players_aggregate ids stat limit (Some d)
  = (match player_pipeline stat limit (db_match d) with
     | Ok rows => Ok (flat_map (join_player d) (keep_scoped ids rows))
     | Raise e => Raise e
     end, Some d).
Proof.
  unfold players_aggregate. run_app.
  destruct (player_pipeline stat limit (db_match d)); reflexivity.
Qed.

Lemma leaderboard_players_run (scope : Scope) (country city : option string)
  (stat : PlayerStat) (limit : Z) (d : Database) :
  leaderboard_players scope country city stat limit (Some d)
  = match scoped_player_ids d scope country city with
    | Some [] => (Ok [], Some d)
    | ids => players_aggregate ids stat limit (Some d)
    end.
Proof.
  unfold leaderboard_players, scoped_player_ids, bind at 1, require_db at 1.
  destruct (filter_is_empty _); [reflexivity|].
  destruct (map p_id _); reflexivity.
Qed.

Lemma join_player_in (d : Database) (rows : list (IdField * Z))
  (row : PlayerRow) :
  In row (flat_map (join_player d) rows)
  <-> exists o c p,
        In (IdOid o, c) rows
        /\ find_one (fun x => N.eqb (p_id x) o) (db_player d) = Some p
        /\ row = mkPlayerRow o (p_name p) (current_team_name d p) c
                             (p_country p) (p_city p).
Proof.
  rewrite in_flat_map. unfold join_player, current_team_name. split.
  - intros [[k c] [Hin Hrow]]. simpl in Hrow.
    destruct k as [| |o]; try destruct Hrow.
    destruct (find_one _ (db_player d)) as [p|] eqn:Hf; [|destruct Hrow].
    destruct Hrow as [<-|[]]. exists o, c, p. auto.
  - intros [o [c [p [Hin [Hf ->]]]]]. exists (IdOid o, c).
    split; [exact Hin|]. simpl. rewrite Hf. now left.
Qed.

Lemma join_player_nodup (d : Database) (rows : list (IdField * Z)) :
  NoDup (map fst rows) ->
  NoDup (map row_player_id (flat_map (join_player d) rows)).
Proof.
  induction rows as [|[k c] rows IH]; simpl; [constructor|].
  intro Hnd. inversion Hnd as [|x xs Hnotin Hnd']; subst.
  rewrite map_app. unfold join_player at 1. simpl.
  destruct k as [| |o]; simpl; try now apply IH.
  destruct (find_one _ (db_player d)); simpl; [|now apply IH].
  constructor; [|now apply IH].
  intro H. apply Hnotin. apply in_map_iff in H. destruct H as [row [Hid Hin]].
  apply join_player_in in Hin. destruct Hin as [o' [c' [p' [Hr [_ ->]]]]].
  simpl in Hid. subst o'. apply in_map_iff. now exists (IdOid o, c').
Qed.

Lemma keep_scoped_in (ids : option (list ObjectId))
  (rows : list (IdField * Z)) (o : ObjectId) (c : Z) :
  In (IdOid o, c) (keep_scoped ids rows)
  <-> In (IdOid o, c) rows
      /\ match ids with Some l => In o l | None => True end.
Proof.
  unfold keep_scoped. destruct ids as [l|]; [|tauto].
  rewrite filter_In. simpl. unfold oid_in. rewrite existsb_exists.
  split; intros [H1 H2]; (split; [exact H1|]).
  - destruct H2 as [x [Hx Heq]]. apply N.eqb_eq in Heq. now subst.
  - exists o. split; [exact H2|apply N.eqb_refl].
Qed.

Lemma keep_scoped_nodup (ids : option (list ObjectId))
  (rows : list (IdField * Z)) :
  NoDup (map fst rows) -> NoDup (map fst (keep_scoped ids rows)).
Proof.
  unfold keep_scoped. destruct ids; [apply NoDup_map_filter|auto].
Qed.

Lemma leaderboard_players_sound (scope : Scope) (country city : option string)
  (stat : PlayerStat) (limit : Z) (d : Database) (rows : list PlayerRow)
  (s' : option Database) :
  leaderboard_players scope country city stat limit (Some d) = (Ok rows, s') ->
  NoDup (map row_player_id rows)
  /\ forall row, In row rows ->
       exists p,
         find_one (fun x => N.eqb (p_id x) (row_player_id row)) (db_player d)
         = Some p
         /\ row = mkPlayerRow (row_player_id row) (p_name p)
                    (current_team_name d p)
                    (stat_of stat (row_player_id row) (db_match d))
                    (p_country p) (p_city p)
         /\ 0 < row_count row
         /\ match scoped_player_ids d scope country city with
            | Some l => In (row_player_id row) l
            | None => True
            end.
Proof.
  rewrite leaderboard_players_run.
  set (ids := scoped_player_ids d scope country city).
  assert (Hagg : players_aggregate ids stat limit (Some d) = (Ok rows, s') ->
    NoDup (map row_player_id rows)
    /\ forall row, In row rows ->
         exists p,
           find_one (fun x => N.eqb (p_id x) (row_player_id row)) (db_player d)
           = Some p
           /\ row = mkPlayerRow (row_player_id row) (p_name p)
                      (current_team_name d p)
                      (stat_of stat (row_player_id row) (db_match d))
                      (p_country p) (p_city p)
           /\ 0 < row_count row
           /\ match ids with
              | Some l => In (row_player_id row) l
              | None => True
              end).
  { rewrite players_aggregate_run. unfold player_pipeline.
    destruct (mongo_limit _ _) as [out|] eqn:Hl; [|discriminate].
    intro H. inversion H; subst. split.
    - apply join_player_nodup, keep_scoped_nodup.
      apply (mongo_limit_nodup fst _ _ _ Hl).
      apply (Permutation_NoDup (l := map fst (player_groups stat (db_match d)))).
      + apply Permutation_map. symmetry. apply sort_desc_perm.
      + apply player_groups_nodup.
    - intros row Hrow. apply join_player_in in Hrow.
      destruct Hrow as [o [c [p [Hr [Hf ->]]]]]. simpl.
      apply keep_scoped_in in Hr. destruct Hr as [Hr Hscope].
      apply (mongo_limit_in _ _ _ _ Hl) in Hr. apply sort_desc_in in Hr.
      destruct (player_groups_sound _ _ _ _ Hr) as [Hc Hpos].
      exists p. unfold stat_of. rewrite <- Hc. auto. }
  destruct ids as [[|i l]|]; try exact Hagg.
  intro H. inversion H; subst. split; [constructor|intros row []].
Qed.

Lemma leaderboard_players_total (scope : Scope) (country city : option string)
  (stat : PlayerStat) (limit : Z) (d : Database) :
  0 < limit <= int64_max ->
  exists rows,
    leaderboard_players scope country city stat limit (Some d)
    = (Ok rows, Some d).
Proof.
  intro Hl. rewrite leaderboard_players_run.
  destruct (scoped_player_ids d scope country city) as [[|i ids]|];
    try (now exists []);
    rewrite players_aggregate_run; unfold player_pipeline;
    rewrite (mongo_limit_ok _ _ Hl); eexists; reflexivity.
Qed.

(** A stored player in scope with a credited event is returned when at
    most [limit] credited identities rank at least as high. *)
Lemma leaderboard_players_listed (scope : Scope)
  (country city : option string) (stat : PlayerStat) (limit : Z)
  (d : Database) (o : ObjectId) (p : PlayerDoc) :
  0 < limit <= int64_max ->
  find_one (fun x => N.eqb (p_id x) o) (db_player d) = Some p ->
  match scoped_player_ids d scope country city with
  | Some l => In o l
  | None => True
  end ->
  0 < stat_of stat o (db_match d) ->
  Z.of_nat (ids_at_least stat (stat_of stat o (db_match d))
              (unwind_events (db_match d))) <= limit ->
  exists rows,
    leaderboard_players scope country city stat limit (Some d)
    = (Ok rows, Some d)
    /\ In (mkPlayerRow o (p_name p) (current_team_name d p)
             (stat_of stat o (db_match d)) (p_country p) (p_city p))
          rows.
Proof.
  intros Hl Hp Hscope Hpos Hrank. rewrite leaderboard_players_run.
  set (ids := scoped_player_ids d scope country city) in *.
  assert (Hagg : exists rows,
             players_aggregate ids stat limit (Some d) = (Ok rows, Some d)
             /\ In (mkPlayerRow o (p_name p) (current_team_name d p)
                      (stat_of stat o (db_match d)) (p_country p) (p_city p))
                   rows).
  { rewrite players_aggregate_run. unfold player_pipeline.
    rewrite (mongo_limit_ok _ _ Hl).
    eexists. split; [reflexivity|]. apply join_player_in.
    exists o, (stat_of stat o (db_match d)), p.
    split; [|auto]. apply keep_scoped_in. split; [|exact Hscope].
    apply sort_limit_in; [now apply player_groups_complete|].
    cbn [snd].
    rewrite (player_groups_count (Z.leb (stat_of stat o (db_match d)))).
    unfold ids_at_least in Hrank. lia. }
  destruct ids as [[|i l]|]; try exact Hagg. destruct Hscope.
Qed.

(** A player is not returned when [limit] credited identities or more
    rank higher. *)
Lemma leaderboard_players_cut (scope : Scope) (country city : option string)
  (stat : PlayerStat) (limit : Z) (d : Database) (o : ObjectId)
  (rows : list PlayerRow) (s' : option Database) :
  leaderboard_players scope country city stat limit (Some d) = (Ok rows, s') ->
  limit <= Z.of_nat (ids_above stat (stat_of stat o (db_match d))
                       (unwind_events (db_match d))) ->
  ~ In o (map row_player_id rows).
Proof.
  rewrite leaderboard_players_run.
  set (ids := scoped_player_ids d scope country city).
  assert (Hagg : players_aggregate ids stat limit (Some d) = (Ok rows, s') ->
            limit <= Z.of_nat (ids_above stat (stat_of stat o (db_match d))
                                 (unwind_events (db_match d))) ->
            ~ In o (map row_player_id rows)).
  { rewrite players_aggregate_run. unfold player_pipeline, mongo_limit.
    destruct (_ || _); [discriminate|].
    destruct (limit <=? 0) eqn:E; [discriminate|].
    intros H Hrank Hin. inversion H; subst rows. clear H.
    apply in_map_iff in Hin. destruct Hin as [row [Hid Hrow]].
    apply join_player_in in Hrow.
    destruct Hrow as [o' [c [p [Hr [_ Hrow]]]]]. subst row.
    simpl in Hid. subst o'.
    apply keep_scoped_in in Hr. destruct Hr as [Hr _].
    assert (Hgr : In (IdOid o, c) (player_groups stat (db_match d))).
    { apply in_firstn in Hr. now apply sort_desc_in in Hr. }
    destruct (player_groups_sound _ _ _ _ Hgr) as [Hc _].
    assert (Hlt : stat_of stat o (db_match d) < snd (IdOid o, c)).
    { apply (sort_limit_out snd (stat_of stat o (db_match d))
               (player_groups stat (db_match d)) (Z.to_nat limit));
        [|exact Hr].
      rewrite (player_groups_count (Z.ltb (stat_of stat o (db_match d)))).
      unfold ids_above in Hrank. lia. }
    simpl in Hlt. unfold stat_of in Hlt. lia. }
  destruct ids as [[|i l]|]; try exact Hagg.
  intros H _. inversion H. simpl. tauto.
Qed.

(** C1 (as amended): with [stat = assists] the player leaderboard
    credits a goal event to its secondary player and an assist event
    to its primary player.  Every row it returns is the row of a
    stored player in scope, no player is returned twice, and the row's
    count is
    the number of events, over all matches, credited to that player.
    A stored player in scope with at least one credited event is
    returned when at most [limit] credited identities, the absent
    player of unassisted goals included, have a count at least as
    high, and is not returned when [limit] or more have a higher one.
    In particular, when some match holds a goal event with secondary
    player P and an assist event with primary player Q, P and Q stored,
    in scope and within these places, both are returned, each with the
    number of its credited events, which is at least 1. *)
Theorem leaderboard_assists_credit :
  forall (d : Database) (scope : Scope) (country city : option string)
         (limit : Z),
    let es := unwind_events (db_match d) in
    (forall k e,
       credited StatAssists k e = true
       <-> (e_type e = goal /\ e_secondary_player_id e = k)
           \/ (e_type e = assist /\ e_player_id e = k))
    /\ (forall rows s',
          leaderboard_players scope country city StatAssists limit (Some d)
          = (Ok rows, s') ->
          NoDup (map row_player_id rows)
          /\ forall row, In row rows ->
               row_count row = assists_of (row_player_id row) (db_match d)
               /\ 0 < row_count row
               /\ (exists p,
                     find_one (fun x => N.eqb (p_id x) (row_player_id row))
                              (db_player d) = Some p)
               /\ match scoped_player_ids d scope country city with
                  | Some l => In (row_player_id row) l
                  | None => True
                  end)
    /\ (forall o p,
          0 < limit <= int64_max ->
          find_one (fun x => N.eqb (p_id x) o) (db_player d) = Some p ->
          match scoped_player_ids d scope country city with
          | Some l => In o l
          | None => True
          end ->
          0 < assists_of o (db_match d) ->
          Z.of_nat (ids_at_least StatAssists (assists_of o (db_match d)) es)
          <= limit ->
          exists rows row,
            leaderboard_players scope country city StatAssists limit (Some d)
            = (Ok rows, Some d)
            /\ In row rows
            /\ row_player_id row = o
            /\ row_count row = assists_of o (db_match d))
    /\ (forall o rows s',
          leaderboard_players scope country city StatAssists limit (Some d)
          = (Ok rows, s') ->
          limit
          <= Z.of_nat (ids_above StatAssists (assists_of o (db_match d)) es) ->
          ~ In o (map row_player_id rows))
    /\ (forall m g a P Q pP pQ,
          In m (db_match d) ->
          In g (events m) -> In a (events m) ->
          e_type g = goal -> e_secondary_player_id g = IdOid P ->
          e_type a = assist -> e_player_id a = IdOid Q ->
          find_one (fun x => N.eqb (p_id x) P) (db_player d) = Some pP ->
          find_one (fun x => N.eqb (p_id x) Q) (db_player d) = Some pQ ->
          match scoped_player_ids d scope country city with
          | Some l => In P l /\ In Q l
          | None => True
          end ->
          0 < limit <= int64_max ->
          Z.of_nat (ids_at_least StatAssists (assists_of P (db_match d)) es)
          <= limit ->
          Z.of_nat (ids_at_least StatAssists (assists_of Q (db_match d)) es)
          <= limit ->
          exists rows rowP rowQ,
            leaderboard_players scope country city StatAssists limit (Some d)
            = (Ok rows, Some d)
            /\ In rowP rows /\ row_player_id rowP = P
            /\ row_count rowP = assists_of P (db_match d)
            /\ 1 <= row_count rowP
            /\ In rowQ rows /\ row_player_id rowQ = Q
            /\ row_count rowQ = assists_of Q (db_match d)
            /\ 1 <= row_count rowQ).
Proof.
  intros d scope country city limit es.
  assert (Hcomplete : forall o p,
    0 < limit <= int64_max ->
    find_one (fun x => N.eqb (p_id x) o) (db_player d) = Some p ->
    match scoped_player_ids d scope country city with
    | Some l => In o l
    | None => True
    end ->
    0 < assists_of o (db_match d) ->
    Z.of_nat (ids_at_least StatAssists (assists_of o (db_match d)) es)
    <= limit ->
    exists rows row,
      leaderboard_players scope country city StatAssists limit (Some d)
      = (Ok rows, Some d)
      /\ In row rows
      /\ row_player_id row = o
      /\ row_count row = assists_of o (db_match d)).
  { intros o p Hl Hp Hscope Hpos Hrank.
    destruct (leaderboard_players_listed scope country city StatAssists
                limit d o p Hl Hp Hscope Hpos Hrank) as [rows [Hrun Hin]].
    exists rows. eexists. split; [exact Hrun|]. split; [exact Hin|].
    split; reflexivity. }
  split.
  { intros k e. unfold credited.
    rewrite orb_true_iff, !andb_true_iff, !IdField_eqb_eq.
    destruct (e_type e); simpl; intuition congruence. }
  split.
  { intros rows s' Hrun.
    destruct (leaderboard_players_sound _ _ _ _ _ _ _ _ Hrun) as [Hnd Hrows].
    split; [exact Hnd|]. intros row Hin.
    destruct (Hrows row Hin) as [p [Hp [Hrow [Hpos Hsc]]]].
    split; [rewrite Hrow at 1; reflexivity|].
    split; [exact Hpos|]. split; [now exists p|exact Hsc]. }
  split; [exact Hcomplete|].
  split.
  { intros o rows s' Hrun Hrank.
    exact (leaderboard_players_cut scope country city StatAssists limit d o
             rows s' Hrun Hrank). }
  intros m g a P Q pP pQ Hm Hg Ha Hgt Hgs Hat Hap HP HQ Hscope Hl HrP HrQ.
  assert (Hin : forall e, In e (events m) -> In e es).
  { intros e He. unfold es, unwind_events. apply in_flat_map. now exists m. }
  assert (HcP : 0 < assists_of P (db_match d)).
  { apply count_events_pos. exists g. split; [now apply Hin|].
    unfold credited. rewrite Hgt, Hgs. simpl. now rewrite N.eqb_refl. }
  assert (HcQ : 0 < assists_of Q (db_match d)).
  { apply count_events_pos. exists a. split; [now apply Hin|].
    unfold credited. rewrite Hat, Hap. simpl. now rewrite N.eqb_refl. }
  assert (HsP : match scoped_player_ids d scope country city with
                | Some l => In P l | None => True end)
    by (destruct (scoped_player_ids d scope country city); tauto).
  assert (HsQ : match scoped_player_ids d scope country city with
                | Some l => In Q l | None => True end)
    by (destruct (scoped_player_ids d scope country city); tauto).
  destruct (Hcomplete P pP Hl HP HsP HcP HrP)
    as [rows [rowP [Hrun [H1 [H2 H3]]]]].
  destruct (Hcomplete Q pQ Hl HQ HsQ HcQ HrQ)
    as [rows' [rowQ [Hrun' [H4 [H5 H6]]]]].
  rewrite Hrun in Hrun'. inversion Hrun'; subst rows'.
  exists rows, rowP, rowQ.
  repeat split; try assumption; lia.
Qed.

(** Instance of [leaderboard_assists_credit]: in the scenario P assisted
    a goal and Q has an assist event; with limit 2 both are listed with
    one assist. *)
Lemma leaderboard_assists_credit_witness :
  (In Scenario.match_assisted (db_match Scenario.db_assisted)
   /\ In Scenario.goal_assisted (events Scenario.match_assisted)
   /\ In Scenario.assist_alone (events Scenario.match_assisted)
   /\ e_type Scenario.goal_assisted = goal
   /\ e_secondary_player_id Scenario.goal_assisted = IdOid 3%N
   /\ e_type Scenario.assist_alone = assist
   /\ e_player_id Scenario.assist_alone = IdOid 4%N
   /\ find_one (fun x => N.eqb (p_id x) 3%N) (db_player Scenario.db_assisted)
      = Some Scenario.player_p_doc
   /\ find_one (fun x => N.eqb (p_id x) 4%N) (db_player Scenario.db_assisted)
      = Some Scenario.player_q_doc
   /\ scoped_player_ids Scenario.db_assisted ScopeGlobal None None = None
   /\ 0 < 2 <= int64_max
   /\ Z.of_nat (ids_at_least StatAssists
                  (assists_of 3%N (db_match Scenario.db_assisted))
                  (unwind_events (db_match Scenario.db_assisted))) <= 2
   /\ Z.of_nat (ids_at_least StatAssists
                  (assists_of 4%N (db_match Scenario.db_assisted))
                  (unwind_events (db_match Scenario.db_assisted))) <= 2)
  /\ exists rows rowP rowQ,
      leaderboard_players ScopeGlobal None None StatAssists 2
        (Some Scenario.db_assisted) = (Ok rows, Some Scenario.db_assisted)
      /\ In rowP rows /\ row_player_id rowP = 3%N /\ row_count rowP = 1
      /\ In rowQ rows /\ row_player_id rowQ = 4%N /\ row_count rowQ = 1.
Proof.
  assert (Hl : 0 < 2 <= int64_max) by (unfold int64_max; lia).
  assert (Hm : In Scenario.match_assisted (db_match Scenario.db_assisted))
    by (left; reflexivity).
  assert (Hg : In Scenario.goal_assisted (events Scenario.match_assisted))
    by (left; reflexivity).
  assert (Ha : In Scenario.assist_alone (events Scenario.match_assisted))
    by (right; left; reflexivity).
  assert (HrP : Z.of_nat (ids_at_least StatAssists
                    (assists_of 3%N (db_match Scenario.db_assisted))
                    (unwind_events (db_match Scenario.db_assisted))) <= 2)
    by (vm_compute; discriminate).
  assert (HrQ : Z.of_nat (ids_at_least StatAssists
                    (assists_of 4%N (db_match Scenario.db_assisted))
                    (unwind_events (db_match Scenario.db_assisted))) <= 2)
    by (vm_compute; discriminate).
  split; [repeat split; try reflexivity; try apply Hl; assumption|].
  destruct (proj2 (proj2 (proj2 (proj2
              (leaderboard_assists_credit Scenario.db_assisted ScopeGlobal
                 None None 2))))
              Scenario.match_assisted Scenario.goal_assisted
              Scenario.assist_alone 3%N 4%N Scenario.player_p_doc
              Scenario.player_q_doc Hm Hg Ha eq_refl eq_refl eq_refl eq_refl
              eq_refl eq_refl I Hl HrP HrQ)
    as [rows [rowP [rowQ [H1 [H2 [H3 [H4 [_ [H5 [H6 [H7 _]]]]]]]]]]].
  exists rows, rowP, rowQ. repeat split; assumption.
Defined.

(** C1, as stated, fails where the truncation comes before the rows
    without a player are dropped.  The match holds two goals without
    an assister, a goal assisted by P and an assist of Q, so P and Q
    are the two credited players, with one assist each; the assists
    leaderboard with limit 2 returns one row only, because the group
    of the absent assister has taken the first of the two places. *)
Lemma leaderboard_assists_credit_counterexample :
  leaderboard_players ScopeGlobal None None StatAssists 2
    (Some Scenario.db_unassisted)
  = (Ok [ mkPlayerRow 3%N "P" (Some "Falcons") 1 (Some "X") (Some "Y") ],
     Some Scenario.db_unassisted)
  /\ player_pipeline StatAssists 2 (db_match Scenario.db_unassisted)
     = Ok [ (IdNone, 2); (IdOid 3%N, 1) ]
  /\ assists_of 3%N (db_match Scenario.db_unassisted) = 1
  /\ assists_of 4%N (db_match Scenario.db_unassisted) = 1
  /\ find_one (fun x => N.eqb (p_id x) 4%N)
              (db_player Scenario.db_unassisted)
     = Some Scenario.player_q_doc
  /\ scoped_player_ids Scenario.db_unassisted ScopeGlobal None None = None.
Proof. repeat split; vm_compute; reflexivity. Qed.

(** C2 (the code departs from it): [leaderboard_players] sorts and
    truncates all groups first and drops the players outside the scope
    afterwards.  In the scenario P, of country X, has one goal and Q, of
    country W, has two; the goals leaderboard of country X with limit 1
    keeps Q's row at the truncation, then drops it, and returns nothing,
    although P is stored, is in scope and has a goal.  Dropping before
    the sort and the truncation returns P with one goal. *)
Theorem leaderboard_players_scope_after_limit :
  leaderboard_players ScopeCountry (Some "X") None StatGoals 1
    (Some Scenario.db_outscored)
  = (Ok [], Some Scenario.db_outscored)
  /\ scoped_player_ids Scenario.db_outscored ScopeCountry (Some "X") None
     = Some [ 3%N ]
  /\ find_one (fun x => N.eqb (p_id x) 3%N) (db_player Scenario.db_outscored)
     = Some Scenario.player_p_doc
  /\ stat_of StatGoals 3%N (db_match Scenario.db_outscored) = 1
  /\ stat_of StatGoals 4%N (db_match Scenario.db_outscored) = 2
  /\ player_pipeline StatGoals 1 (db_match Scenario.db_outscored)
     = Ok [ (IdOid 4%N, 2) ]
  /\ players_aggregate_scope_first (Some [ 3%N ]) StatGoals 1
       (Some Scenario.db_outscored)
     = (Ok [ mkPlayerRow 3%N "P" (Some "Falcons") 1 (Some "X") (Some "Y") ],
        Some Scenario.db_outscored).
Proof. repeat split; vm_compute; reflexivity. Qed.

(** C7: a team leaderboard with scope country or city whose filter
    matches no stored team, and a player leaderboard whose country or
    city filter matches no stored player, return the empty list as a
    successful result.  They do so for every limit, also for one that
    the aggregation would reject: the pipeline is not run. *)
Theorem leaderboard_empty_scope :
  forall (d : Database) (scope : Scope) (country city : option string),
    (forall stat limit,
       scope <> ScopeGlobal ->
       find_all (team_matches (team_filter scope country city)) (db_team d)
       = [] ->
       leaderboard_teams scope country city stat limit (Some d)
       = (Ok [], Some d))
    /\ (forall stat limit,
          filter_is_empty (player_filter scope country city) = false ->
          find_all (player_matches (player_filter scope country city))
                   (db_player d) = [] ->
          leaderboard_players scope country city stat limit (Some d)
          = (Ok [], Some d)).
Proof.
  intros d scope country city. split.
  - intros stat limit Hscope Hnone. rewrite leaderboard_teams_run.
    unfold team_match_filter. rewrite Hnone.
    destruct scope; [congruence|reflexivity|reflexivity].
  - intros stat limit Hfilter Hnone. rewrite leaderboard_players_run.
    unfold scoped_player_ids. rewrite Hfilter, Hnone. reflexivity.
Qed.

(** Instance of [leaderboard_empty_scope]: no team and no player of the
    scenario is of country "Q"; limit 0 is one the aggregation rejects. *)
Lemma leaderboard_empty_scope_witness :
  (ScopeCountry <> ScopeGlobal
   /\ find_all (team_matches (team_filter ScopeCountry (Some "Q") None))
               (db_team Scenario.db_one_goal) = []
   /\ filter_is_empty (player_filter ScopeCountry (Some "Q") None) = false
   /\ find_all (player_matches (player_filter ScopeCountry (Some "Q") None))
               (db_player Scenario.db_one_goal) = [])
  /\ leaderboard_teams ScopeCountry (Some "Q") None StatTeamGoals 0
       (Some Scenario.db_one_goal) = (Ok [], Some Scenario.db_one_goal)
  /\ leaderboard_players ScopeCountry (Some "Q") None StatGoals 0
       (Some Scenario.db_one_goal) = (Ok [], Some Scenario.db_one_goal)
  /\ fst (leaderboard_players ScopeGlobal None None StatGoals 0
            (Some Scenario.db_one_goal))
     = Raise OperationFailure.
Proof.
  assert (Hs : ScopeCountry <> ScopeGlobal) by discriminate.
  split; [repeat split; try reflexivity; exact Hs|].
  split; [|split; [|reflexivity]].
  - exact (proj1 (leaderboard_empty_scope Scenario.db_one_goal ScopeCountry
                    (Some "Q") None) StatTeamGoals 0 Hs eq_refl).
  - exact (proj2 (leaderboard_empty_scope Scenario.db_one_goal ScopeCountry
                    (Some "Q") None) StatGoals 0 eq_refl eq_refl).
Defined.

(** * Further properties: the match lifecycle *)

Lemma evolves_refl (m : MatchDoc) : evolves m m.
Proof.
  unfold evolves. repeat split; try lia. exists []. now rewrite app_nil_r.
Qed.

Lemma evolves_trans (a b c : MatchDoc) :
  evolves a b -> evolves b c -> evolves a c.
Proof.
  unfold evolves.
  intros [H1 [H2 [H3 [H4 [[s1 H5] [H6 H7]]]]]]
         [G1 [G2 [G3 [G4 [[s2 G5] [G6 G7]]]]]].
  repeat split; try congruence; try lia.
  exists (s1 ++ s2). rewrite G5, H5. now rewrite app_assoc.
Qed.

Lemma evolves_score_update (m : MatchDoc) (ev : Event) (x : MatchDoc) :
  evolves x (score_update m ev x).
Proof.
  unfold evolves, score_update.
  destruct (e_type ev);
    repeat match goal with
           | |- context [if ?b then _ else _] => destruct b
           end;
    simpl; repeat split; try lia; now exists [ev].
Qed.

Lemma evolves_set_ended (now : Z) (w : option ObjectId) (x : MatchDoc) :
  evolves x (set_ended now w x).
Proof.
  unfold evolves. simpl. repeat split; try lia.
  exists []. now rewrite app_nil_r.
Qed.

Lemma Forall2_evolves_refl (l : list MatchDoc) : Forall2 evolves l l.
Proof. induction l; constructor; [apply evolves_refl|assumption]. Qed.

Lemma Forall2_evolves_trans (l1 l2 l3 : list MatchDoc) :
  Forall2 evolves l1 l2 -> Forall2 evolves l2 l3 -> Forall2 evolves l1 l3.
Proof.
  intro H. revert l3. induction H as [|a b l1 l2 Hab H IH]; intros l3 H3.
  - inversion H3. constructor.
  - inversion H3 as [|b' c l2' l3' Hbc H3']; subst.
    constructor; [now apply (evolves_trans a b c)|now apply IH].
Qed.

Lemma update_one_evolves (p : MatchDoc -> bool) (f : MatchDoc -> MatchDoc)
  (l : list MatchDoc) :
  (forall x, evolves x (f x)) -> Forall2 evolves l (update_one p f l).
Proof.
  intro Hf. induction l as [|a l IH]; simpl; [constructor|].
  destruct (p a); constructor; auto using evolves_refl, Forall2_evolves_refl.
Qed.

Lemma matches_extend_refl (d : Database) : matches_extend d d.
Proof.
  exists (db_match d), []. split; [now rewrite app_nil_r|].
  apply Forall2_evolves_refl.
Qed.

Lemma matches_extend_step (d0 d d' : Database) :
  step d d' -> matches_extend d0 d -> matches_extend d0 d'.
Proof.
  intros Hst [old [new [Heq Hev]]].
  assert (Hupd : forall p f,
             (forall x, evolves x (f x)) ->
             matches_extend d0 (set_matches d (update_one p f (db_match d)))).
  { intros p f Hf.
    pose proof (update_one_evolves p f (db_match d) Hf) as H.
    rewrite Heq in H at 1. apply Forall2_app_inv_l in H.
    destruct H as [old' [new' [Ho [_ Hl]]]].
    exists old', new'. split; [exact Hl|].
    now apply (Forall2_evolves_trans _ old). }
  destruct Hst.
  - exists old, new. auto.
  - exists old, new. auto.
  - exists old, new. auto.
  - exists old, (new ++ [mkMatchDoc (next_oid d) home away now None [] 0 0 None]).
    simpl. rewrite Heq, app_assoc. auto.
  - apply Hupd. apply evolves_score_update.
  - apply Hupd. apply evolves_set_ended.
Qed.

(** X1: whatever requests are served, no stored match is removed or
    moved: the match collection afterwards is the old one, match by
    match, followed by the matches started since.  Each old match keeps
    its identity, its two teams and its start time, its event log is
    the old log with events added at the end, and neither score has
    decreased. *)
Theorem matches_only_grow :
  forall (reqs : list (Z * Request)) (d d' : Database),
    serve_all reqs (Some d) = Some d' ->
    exists old new,
      db_match d' = old ++ new
      /\ Forall2 (fun m m' =>
                    m_id m' = m_id m
                    /\ home_team_id m' = home_team_id m
                    /\ away_team_id m' = away_team_id m
                    /\ started_at m' = started_at m
                    /\ (exists suffix, events m' = events m ++ suffix)
                    /\ home_score m <= home_score m'
                    /\ away_score m <= away_score m')
                 (db_match d) old.
Proof.
  intros reqs d d' Hrun.
  exact (serve_all_invariant (matches_extend d) (matches_extend_step d)
           reqs d d' (matches_extend_refl d) Hrun).
Qed.

(** Instance of [matches_only_grow]: from the started match of the
    scenario to the state after the home side's goal. *)
Lemma matches_only_grow_witness :
  serve_all [ (6, AddEvent Scenario.id5
                    (Scenario.event_of goal (Some Scenario.id1)
                                       (Some Scenario.id3) None)) ]
            (Some (Scenario.state_of Scenario.setup))
  = Some Scenario.db_one_goal
  /\ exists old new,
      db_match Scenario.db_one_goal = old ++ new
      /\ Forall2 evolves (db_match (Scenario.state_of Scenario.setup)) old.
Proof.
  split; [reflexivity|].
  exact (matches_only_grow
           [ (6, AddEvent Scenario.id5
                   (Scenario.event_of goal (Some Scenario.id1)
                                      (Some Scenario.id3) None)) ]
           (Scenario.state_of Scenario.setup) Scenario.db_one_goal eq_refl).
Defined.

Lemma score_update_total (m : MatchDoc) (ev : Event) :
  score_total m -> score_total (score_update m ev m).
Proof.
  intros [Hs [Hh Ha]]. unfold score_total, score_update.
  destruct (e_type ev) eqn:Ety;
    destruct (IdField_eqb (e_team_id ev) (IdOid (home_team_id m))) eqn:E1;
    destruct (IdField_eqb (e_team_id ev) (IdOid (away_team_id m))) eqn:E2;
    simpl; rewrite !count_events_snoc; unfold scoring in *;
    simpl; rewrite Ety, E1, E2; simpl; lia.
Qed.

Lemma step_totals_consistent (d d' : Database) :
  step d d' -> totals_consistent d -> totals_consistent d'.
Proof.
  intros Hst Hinv. destruct Hst; try exact Hinv; intros x Hin; simpl in Hin.
  - apply in_app_or in Hin. destruct Hin as [Hin|[<-|[]]]; [now apply Hinv|].
    repeat split; simpl; lia.
  - apply in_update_one in Hin. destruct Hin as [Hin|[y [Hy ->]]];
      [now apply Hinv|].
    assert (y = m) by (unfold find_one in *; congruence). subst y.
    apply score_update_total. apply Hinv. now apply (find_one_has_id oid).
  - apply in_update_one in Hin. destruct Hin as [Hin|[y [Hy ->]]];
      [now apply Hinv|].
    assert (Hy' : score_total y).
    { apply Hinv. now apply (find_one_has_id oid). }
    exact Hy'.
Qed.

(** X2: in every state reached from the empty store, for every match,
    also one with the same team on both sides, the two scores are not
    negative and add up to the number of logged goal and own-goal events
    whose team is the home or the away team: each such event has moved
    exactly one counter by one, and no other event has moved any. *)
Theorem scores_add_up :
  forall (reqs : list (Z * Request)) (d : Database) (m : MatchDoc),
    serve_all reqs (Some empty_db) = Some d ->
    In m (db_match d) ->
    home_score m + away_score m = count_events (scoring m) (events m)
    /\ 0 <= home_score m
    /\ 0 <= away_score m.
Proof.
  intros reqs d m Hrun Hin.
  assert (Hc : totals_consistent d).
  { apply (serve_all_invariant totals_consistent step_totals_consistent
             reqs empty_db d); [intros x []|exact Hrun]. }
  exact (Hc m Hin).
Qed.

(** Instance of [scores_add_up]: the match of the scenario at 1-0. *)
Lemma scores_add_up_witness :
  (serve_all Scenario.one_goal (Some empty_db) = Some Scenario.db_one_goal
   /\ In Scenario.match_one_goal (db_match Scenario.db_one_goal))
  /\ home_score Scenario.match_one_goal + away_score Scenario.match_one_goal
     = count_events (scoring Scenario.match_one_goal)
                    (events Scenario.match_one_goal)
  /\ 0 <= home_score Scenario.match_one_goal
  /\ 0 <= away_score Scenario.match_one_goal.
Proof.
  assert (H1 : serve_all Scenario.one_goal (Some empty_db)
               = Some Scenario.db_one_goal) by reflexivity.
  assert (H2 : In Scenario.match_one_goal (db_match Scenario.db_one_goal))
    by (left; reflexivity).
  split; [split; assumption|].
  exact (scores_add_up Scenario.one_goal Scenario.db_one_goal
           Scenario.match_one_goal H1 H2).
Defined.

Lemma to_object_id_str_error (s : string) (e : Exception) :
  to_object_id_str s = Raise e -> e = invalid_id s.
Proof.
  unfold to_object_id_str. destruct (ObjectId_of_str s); congruence.
Qed.

Lemma convert_id_error (f : option string) (e : Exception) :
  convert_id f = Raise e -> exists id_str, e = invalid_id id_str.
Proof.
  unfold convert_id. destruct f as [s|]; [|discriminate].
  destruct (String.eqb s EmptyString); [discriminate|].
  destruct (to_object_id_str s) eqn:E; [discriminate|].
  intro H. inversion H; subst. exists s. now apply to_object_id_str_error.
Qed.

Lemma mongo_limit_error {A : Type} (limit : Z) (rows : list A)
  (e : Exception) :
  mongo_limit limit rows = Raise e -> e = OperationFailure \/ e = OverflowError.
Proof.
  unfold mongo_limit. destruct (_ || _); [intro H; inversion H; auto|].
  destruct (limit <=? 0); [intro H; inversion H; auto|discriminate].
Qed.

Lemma create_team_fails (now : Z) (team : TeamCreate) (d : Database)
  (e : Exception) :
  fst (create_team now team (Some d)) = Raise e ->
  snd (create_team now team (Some d)) = Some d /\ e = team_conflict.
Proof.
  unfold create_team, create_document_team. run_app.
  destruct (find_one _ (db_team d)); simpl; [|discriminate].
  intro H. inversion H. auto.
Qed.

Lemma create_player_fails (now : Z) (player : PlayerCreate) (d : Database)
  (e : Exception) :
  fst (create_player now player (Some d)) = Raise e ->
  snd (create_player now player (Some d)) = Some d
  /\ exists id_str, e = invalid_id id_str.
Proof.
  unfold create_player. run_app.
  destruct (convert_id (pc_team_id player)) eqn:E; simpl; [discriminate|].
  intro H. inversion H; subst. split; [reflexivity|].
  now apply (convert_id_error (pc_team_id player)).
Qed.

Lemma start_match_fails (now : Z) (payload : MatchStart) (d : Database)
  (e : Exception) :
  fst (start_match now payload (Some d)) = Raise e ->
  snd (start_match now payload (Some d)) = Some d
  /\ exists id_str, e = invalid_id id_str.
Proof.
  unfold start_match. run_app.
  destruct (to_object_id_str (ms_home_team_id payload)) eqn:E1; simpl.
  - destruct (to_object_id_str (ms_away_team_id payload)) eqn:E2; simpl;
      [discriminate|].
    intro H. inversion H; subst. split; [reflexivity|].
    exists (ms_away_team_id payload). now apply to_object_id_str_error.
  - intro H. inversion H; subst. split; [reflexivity|].
    exists (ms_home_team_id payload). now apply to_object_id_str_error.
Qed.

Lemma add_event_fails (now : Z) (match_id : string) (event : EventCreate)
  (d : Database) (e : Exception) :
  fst (add_event now match_id event (Some d)) = Raise e ->
  snd (add_event now match_id event (Some d)) = Some d
  /\ ((exists id_str, e = invalid_id id_str) \/ e = not_found).
Proof.
  destruct (ObjectId_of_str match_id) as [oid|] eqn:Hid.
  - destruct (find_one (has_id oid) (db_match d)) as [m|] eqn:Hf.
    + destruct (convert_id (ec_team_id event)) as [t|] eqn:Ht;
        [destruct (convert_id (ec_player_id event)) as [p|] eqn:Hp;
         [destruct (convert_id (ec_secondary_player_id event)) as [s|] eqn:Hs
         |]|].
      * rewrite (add_event_found d now match_id event oid m t p s
                   Hid Hf Ht Hp Hs). discriminate.
      * unfold add_event. run_app. rewrite (to_object_id_str_ok _ _ Hid).
        rewrite Hf. simpl. rewrite Ht, Hp, Hs. simpl.
        intro H. inversion H; subst. split; [reflexivity|]. left.
        now apply (convert_id_error (ec_secondary_player_id event)).
      * unfold add_event. run_app. rewrite (to_object_id_str_ok _ _ Hid).
        rewrite Hf. simpl. rewrite Ht, Hp. simpl.
        intro H. inversion H; subst. split; [reflexivity|]. left.
        now apply (convert_id_error (ec_player_id event)).
      * unfold add_event. run_app. rewrite (to_object_id_str_ok _ _ Hid).
        rewrite Hf. simpl. rewrite Ht. simpl.
        intro H. inversion H; subst. split; [reflexivity|]. left.
        now apply (convert_id_error (ec_team_id event)).
    + unfold add_event. run_app. rewrite (to_object_id_str_ok _ _ Hid).
      rewrite Hf. simpl. intro H. inversion H. auto.
  - unfold add_event, to_object_id_str. run_app. rewrite Hid. simpl.
    intro H. inversion H. split; [reflexivity|]. left. now exists match_id.
Qed.

Lemma end_match_fails (now : Z) (match_id : string) (d : Database)
  (e : Exception) :
  fst (end_match now match_id (Some d)) = Raise e ->
  snd (end_match now match_id (Some d)) = Some d
  /\ ((exists id_str, e = invalid_id id_str) \/ e = not_found).
Proof.
  destruct (ObjectId_of_str match_id) as [oid|] eqn:Hid.
  - destruct (find_one (has_id oid) (db_match d)) as [m|] eqn:Hf.
    + rewrite (end_match_found d now match_id oid m Hid Hf). discriminate.
    + unfold end_match. run_app. rewrite (to_object_id_str_ok _ _ Hid).
      rewrite Hf. simpl. intro H. inversion H. auto.
  - unfold end_match, to_object_id_str. run_app. rewrite Hid. simpl.
    intro H. inversion H. split; [reflexivity|]. left. now exists match_id.
Qed.

Lemma get_match_fails (match_id : string) (d : Database) (e : Exception) :
  fst (get_match match_id (Some d)) = Raise e ->
  (exists id_str, e = invalid_id id_str) \/ e = not_found.
Proof.
  unfold get_match. run_app.
  destruct (to_object_id_str match_id) eqn:E; simpl.
  - destruct (find_one _ _); simpl; [discriminate|].
    intro H. inversion H. auto.
  - intro H. inversion H; subst. left. exists match_id.
    now apply to_object_id_str_error.
Qed.

Lemma leaderboard_teams_fails (scope : Scope) (country city : option string)
  (stat : TeamStat) (limit : Z) (d : Database) (e : Exception) :
  fst (leaderboard_teams scope country city stat limit (Some d)) = Raise e ->
  e = OperationFailure \/ e = OverflowError.
Proof.
  rewrite leaderboard_teams_run.
  destruct (team_match_filter d scope country city) as [[|i l]|];
    try discriminate;
    rewrite teams_aggregate_run; simpl;
    destruct (team_pipeline _ _ _ _) eqn:E; try discriminate;
    intro H; inversion H; subst;
    rewrite team_pipeline_groups in E; now apply mongo_limit_error in E.
Qed.

Lemma leaderboard_players_fails (scope : Scope) (country city : option string)
  (stat : PlayerStat) (limit : Z) (d : Database) (e : Exception) :
  fst (leaderboard_players scope country city stat limit (Some d)) = Raise e ->
  e = OperationFailure \/ e = OverflowError.
Proof.
  rewrite leaderboard_players_run.
  destruct (scoped_player_ids d scope country city) as [[|i l]|];
    try discriminate;
    rewrite players_aggregate_run; simpl;
    destruct (player_pipeline _ _ _) eqn:E; try discriminate;
    intro H; inversion H; subst;
    unfold player_pipeline in E; now apply mongo_limit_error in E.
Qed.

Lemma error_of_raise {A : Type} (r : result A) (e : Exception) :
  error_of r = Some e -> r = Raise e.
Proof. destruct r; simpl; congruence. Qed.

(** X3: a request that raises has written nothing: on a configured
    store every handler validates its identifiers and looks up its
    match or team before its first write, so the store after a failed
    request is the store before it.  The exception is the 400 of a
    malformed identifier, the 404 of a match that is not found, the 400
    of an existing team, or a failure of the aggregation's [$limit];
    it is never the 500 of an unconfigured store. *)
Theorem failed_request_writes_nothing :
  forall (now : Z) (r : Request) (d : Database) (e : Exception),
    serve_error now r (Some d) = Some e ->
    serve now r (Some d) = Some d
    /\ handler_error e
    /\ e <> HTTPException 500 "Database not configured".
Proof.
  intros now r d e H.
  assert (Hmain : serve now r (Some d) = Some d /\ handler_error e).
  { unfold handler_error.
    destruct r; simpl in *; apply error_of_raise in H.
    - destruct (create_team_fails _ _ _ _ H). auto.
    - destruct (create_player_fails _ _ _ _ H). auto.
    - destruct (start_match_fails _ _ _ _ H). auto.
    - destruct (add_event_fails _ _ _ _ _ H) as [? [?|?]]; auto.
    - destruct (end_match_fails _ _ _ _ H) as [? [?|?]]; auto.
    - split; [apply get_match_state|].
      destruct (get_match_fails _ _ _ H); auto.
    - split; [apply leaderboard_teams_state|].
      destruct (leaderboard_teams_fails _ _ _ _ _ _ _ H); auto.
    - split; [apply leaderboard_players_state|].
      destruct (leaderboard_players_fails _ _ _ _ _ _ _ H); auto. }
  destruct Hmain as [Hs He]. split; [exact Hs|]. split; [exact He|].
  destruct He as [[s Hs']|[Hn|[Hc|[Ho|Ho]]]]; subst e; discriminate.
Qed.

(** Instance of [failed_request_writes_nothing]: an event sent to a
    match that does not exist. *)
Lemma failed_request_writes_nothing_witness :
  serve_error 9 (AddEvent Scenario.id4
                   (Scenario.event_of goal (Some Scenario.id1) None None))
              (Some Scenario.db_one_goal) = Some not_found
  /\ serve 9 (AddEvent Scenario.id4
                (Scenario.event_of goal (Some Scenario.id1) None None))
           (Some Scenario.db_one_goal) = Some Scenario.db_one_goal
  /\ handler_error not_found
  /\ not_found <> HTTPException 500 "Database not configured".
Proof.
  split; [reflexivity|].
  exact (failed_request_writes_nothing 9
           (AddEvent Scenario.id4
              (Scenario.event_of goal (Some Scenario.id1) None None))
           Scenario.db_one_goal not_found eq_refl).
Defined.

(** * Further properties: identities *)

Lemma hex_digit_char (v : N) :
  (v < 16)%N -> hex_digit (hex_char v) = Some v.
Proof.
  intro H.
  assert (Hv : (v = 0 \/ v = 1 \/ v = 2 \/ v = 3 \/ v = 4 \/ v = 5 \/ v = 6
                \/ v = 7 \/ v = 8 \/ v = 9 \/ v = 10 \/ v = 11 \/ v = 12
                \/ v = 13 \/ v = 14 \/ v = 15)%N) by lia.
  repeat (destruct Hv as [Hv|Hv]; [subst v; reflexivity|]). subst. reflexivity.
Qed.

Lemma hex_string_length (n : nat) (v : N) (acc : string) :
  String.length (hex_string n v acc) = (n + String.length acc)%nat.
Proof.
  revert v acc. induction n as [|n IH]; intros v acc; simpl; [reflexivity|].
  rewrite IH. simpl. lia.
Qed.

Lemma hex_char_no_space (v : N) :
  (v < 16)%N -> is_space (hex_char v) = false.
Proof.
  intro H.
  assert (Hv : (v = 0 \/ v = 1 \/ v = 2 \/ v = 3 \/ v = 4 \/ v = 5 \/ v = 6
                \/ v = 7 \/ v = 8 \/ v = 9 \/ v = 10 \/ v = 11 \/ v = 12
                \/ v = 13 \/ v = 14 \/ v = 15)%N) by lia.
  repeat (destruct Hv as [Hv|Hv]; [subst v; reflexivity|]). subst. reflexivity.
Qed.

Lemma fromhex_hex_string (n : nat) (v : N) (rest : string) :
  fromhex (hex_string (2 * n) v rest) None
  = option_map (app (bytes_of n v)) (fromhex rest None).
Proof.
  revert v rest. induction n as [|n IH]; intros v rest.
  - simpl. now destruct (fromhex rest None).
  - replace (2 * S n)%nat with (S (S (2 * n))) by lia.
    cbn [hex_string bytes_of].
    rewrite N.Div0.div_div. change (16 * 16)%N with 256%N.
    rewrite IH. cbn [fromhex].
    rewrite hex_char_no_space by (apply N.mod_lt; lia).
    rewrite hex_digit_char by (apply N.mod_lt; lia).
    rewrite hex_digit_char by (apply N.mod_lt; lia).
    replace (16 * ((v / 16) mod 16) + v mod 16)%N with (v mod 256)%N.
    + destruct (fromhex rest None) as [bs|]; simpl; [|reflexivity].
      now rewrite <- app_assoc.
    + change 256%N with (16 * 16)%N.
      rewrite (N.Div0.mod_mul_r v 16 16). lia.
Qed.

Lemma bytes_value_snoc (bs : list N) (b : N) :
  bytes_value (bs ++ [b]) = (256 * bytes_value bs + b)%N.
Proof. unfold bytes_value. now rewrite fold_left_app. Qed.

Lemma bytes_of_length (n : nat) (v : N) : List.length (bytes_of n v) = n.
Proof.
  revert v. induction n as [|n IH]; intro v; simpl; [reflexivity|].
  rewrite length_app, IH. simpl. lia.
Qed.

Lemma bytes_of_value (n : nat) (v : N) :
  bytes_value (bytes_of n v) = (v mod 256 ^ N.of_nat n)%N.
Proof.
  revert v. induction n as [|n IH]; intro v.
  - simpl. now rewrite N.mod_1_r.
  - cbn [bytes_of]. rewrite bytes_value_snoc, IH.
    rewrite Nat2N.inj_succ, N.pow_succ_r'.
    rewrite (N.Div0.mod_mul_r v 256 (256 ^ N.of_nat n)). lia.
Qed.

(** [ObjectId(str(oid)) == oid]. *)
Lemma ObjectId_roundtrip (o : ObjectId) :
  (o < ObjectId_bound)%N -> ObjectId_of_str (ObjectId_str o) = Some o.
Proof.
  intro H. unfold ObjectId_of_str, ObjectId_str.
  rewrite hex_string_length.
  replace (Nat.eqb (24 + String.length EmptyString) 24) with true
    by reflexivity.
  change 24%nat with (2 * 12)%nat. rewrite fromhex_hex_string.
  cbn [fromhex option_map]. rewrite app_nil_r. f_equal.
  unfold ObjectId_of_bytes. rewrite bytes_of_length.
  change (Nat.eqb 12 12) with true. cbv iota.
  rewrite bytes_of_value.
  replace (256 ^ N.of_nat 12)%N with ObjectId_bound by reflexivity.
  now apply N.mod_small.
Qed.

(** [ObjectId] accepts 24 characters with whitespace between bytes,
    and keeps the eleven bytes it reads; whitespace inside a byte is
    refused, as is any other character. *)
Example ObjectId_of_str_whitespace :
  ObjectId_of_str "0000000000000000000001  " = Some (2 ^ 96 + 2 ^ 88 + 1)%N
  /\ ObjectId_of_str " 0000000000000000000001 "
     = ObjectId_of_str "0000000000000000000001  "
  /\ ObjectId_of_str "0000000000000000000001  "
     <> ObjectId_of_str "000000000000000000000001"
  /\ ObjectId_of_str "00000000000000000000 0 1" = None
  /\ ObjectId_of_str "00000000000000000000000g" = None
  /\ ObjectId_of_str "0000000000000000000001" = None.
Proof. repeat split; try reflexivity. discriminate. Qed.

Lemma bytes_value_bound (bs : list N) :
  Forall (fun b => (b < 256)%N) bs ->
  (bytes_value bs < 256 ^ N.of_nat (List.length bs))%N.
Proof.
  induction bs as [|b bs IH] using rev_ind; intro H.
  - reflexivity.
  - apply Forall_app in H. destruct H as [H1 H2].
    rewrite bytes_value_snoc, length_app. simpl List.length.
    replace (List.length bs + 1)%nat with (S (List.length bs)) by lia.
    rewrite Nat2N.inj_succ, N.pow_succ_r'.
    specialize (IH H1). inversion H2; subst. lia.
Qed.

Lemma bytes_value_inj (bs bs' : list N) :
  List.length bs = List.length bs' ->
  Forall (fun b => (b < 256)%N) bs -> Forall (fun b => (b < 256)%N) bs' ->
  bytes_value bs = bytes_value bs' -> bs = bs'.
Proof.
  revert bs'. induction bs as [|b bs IH] using rev_ind; intros bs' Hlen H H' Hv.
  - destruct bs'; [reflexivity|discriminate].
  - destruct bs' as [|b0 bs0] using rev_ind;
      [rewrite length_app in Hlen; simpl in Hlen; lia|].
    clear IHbs0. rewrite !length_app in Hlen. simpl in Hlen.
    apply Forall_app in H. destruct H as [H1 H2].
    apply Forall_app in H'. destruct H' as [H1' H2'].
    inversion H2; subst. inversion H2'; subst.
    rewrite !bytes_value_snoc in Hv.
    assert (Hb : b = b0 /\ bytes_value bs = bytes_value bs0) by lia.
    destruct Hb as [-> Hb]. f_equal. apply IH; [lia|assumption|assumption|exact Hb].
Qed.

(** Identifiers are equal exactly when their bytes are. *)
Lemma ObjectId_of_bytes_inj (bs bs' : list N) :
  (List.length bs <= 12)%nat -> (List.length bs' <= 12)%nat ->
  Forall (fun b => (b < 256)%N) bs -> Forall (fun b => (b < 256)%N) bs' ->
  ObjectId_of_bytes bs = ObjectId_of_bytes bs' -> bs = bs'.
Proof.
  intros Hl Hl' H H' Heq.
  pose proof (bytes_value_bound bs H) as Hb.
  pose proof (bytes_value_bound bs' H') as Hb'.
  assert (Hpow : forall n m : nat, (n < m)%nat ->
            (2 * 256 ^ N.of_nat n <= 256 ^ N.of_nat m)%N).
  { intros n m Hnm. replace m with (S n + (m - S n))%nat by lia.
    rewrite Nat2N.inj_add, N.pow_add_r, Nat2N.inj_succ, N.pow_succ_r'.
    assert (256 ^ N.of_nat (m - S n) <> 0)%N
      by (apply N.pow_nonzero; discriminate).
    nia. }
  assert (Hp8 : forall n : nat,
            (2 ^ (8 * N.of_nat n) = 256 ^ N.of_nat n)%N).
  { intro n. rewrite N.pow_mul_r. reflexivity. }
  assert (H12 : forall l : list N, (List.length l <= 12)%nat ->
            (256 ^ N.of_nat (List.length l) <= 2 ^ 96)%N).
  { intros l Hle. change (2 ^ 96)%N with (256 ^ N.of_nat 12)%N.
    apply N.pow_le_mono_r; [discriminate|lia]. }
  pose proof (H12 bs Hl) as Hc. pose proof (H12 bs' Hl') as Hc'.
  unfold ObjectId_of_bytes in Heq. rewrite !Hp8 in Heq.
  destruct (Nat.eqb (List.length bs) 12) eqn:E;
    destruct (Nat.eqb (List.length bs') 12) eqn:E'.
  - apply Nat.eqb_eq in E, E'. apply bytes_value_inj; congruence.
  - apply Nat.eqb_eq in E. rewrite E in Hb.
    change (256 ^ N.of_nat 12)%N with (2 ^ 96)%N in Hb. lia.
  - apply Nat.eqb_eq in E'. rewrite E' in Hb'.
    change (256 ^ N.of_nat 12)%N with (2 ^ 96)%N in Hb'. lia.
  - assert (Hlen : List.length bs = List.length bs').
    { destruct (Nat.lt_trichotomy (List.length bs) (List.length bs'))
        as [Hlt|[Heq'|Hgt]]; [|exact Heq'|].
      - pose proof (Hpow _ _ Hlt). lia.
      - pose proof (Hpow _ _ Hgt). lia. }
    apply bytes_value_inj; try assumption. rewrite Hlen in Heq. lia.
Qed.

Lemma find_one_app_miss {A : Type} (p : A -> bool) (l l' : list A) :
  (forall x, In x l -> p x = false) ->
  find_one p (l ++ l') = find_one p l'.
Proof.
  unfold find_one. induction l as [|a l IH]; simpl; intro H; [reflexivity|].
  rewrite (H a (or_introl eq_refl)). apply IH. intros x Hx. apply H. now right.
Qed.

Lemma create_team_step_fresh (now : Z) (team : TeamCreate) (d : Database) :
  exists d', snd (create_team now team (Some d)) = Some d' /\ step_fresh d d'.
Proof.
  unfold create_team, create_document_team. run_app.
  destruct (find_one _ (db_team d)) eqn:Hf; simpl.
  - exists d. split; [reflexivity|constructor].
  - eexists. split; [reflexivity|].
    now apply (fresh_team d (mkTeamDoc (next_oid d) (name team) (country team)
                               (city team) (coach team) (logo_url team)
                               now now)).
Qed.

Lemma create_player_step_fresh (now : Z) (player : PlayerCreate)
  (d : Database) :
  exists d', snd (create_player now player (Some d)) = Some d'
             /\ step_fresh d d'.
Proof.
  unfold create_player. run_app.
  destruct (convert_id (pc_team_id player)) as [t|]; simpl.
  - eexists. split; [reflexivity|].
    now apply (fresh_player d
                 (mkPlayerDoc (next_oid d) (pc_name player)
                    (pc_position player) t (pc_number player)
                    (pc_country player) (pc_city player)
                    (pc_avatar_url player) now now)).
  - exists d. split; [reflexivity|constructor].
Qed.

Lemma start_match_step_fresh (now : Z) (payload : MatchStart) (d : Database) :
  exists d', snd (start_match now payload (Some d)) = Some d'
             /\ step_fresh d d'.
Proof.
  unfold start_match. run_app.
  destruct (to_object_id_str (ms_home_team_id payload)) as [h|]; simpl;
    [|exists d; split; [reflexivity|constructor]].
  destruct (to_object_id_str (ms_away_team_id payload)) as [a|]; simpl;
    [|exists d; split; [reflexivity|constructor]].
  eexists. split; [reflexivity|].
  now apply (fresh_start d (mkMatchDoc (next_oid d) h a now None [] 0 0 None)).
Qed.

Lemma add_event_step_fresh (now : Z) (match_id : string)
  (event : EventCreate) (d : Database) :
  exists d', snd (add_event now match_id event (Some d)) = Some d'
             /\ step_fresh d d'.
Proof.
  destruct (ObjectId_of_str match_id) as [oid|] eqn:Hid.
  - destruct (find_one (has_id oid) (db_match d)) as [m|] eqn:Hf.
    + destruct (convert_id (ec_team_id event)) as [t|] eqn:Ht;
        [destruct (convert_id (ec_player_id event)) as [p|] eqn:Hp;
         [destruct (convert_id (ec_secondary_player_id event)) as [s|] eqn:Hs
         |]|].
      * rewrite (add_event_found d now match_id event oid m t p s
                   Hid Hf Ht Hp Hs). simpl.
        eexists. split; [reflexivity|]. apply fresh_update.
        intro x. apply score_update_id.
      * unfold add_event. run_app. rewrite (to_object_id_str_ok _ _ Hid).
        rewrite Hf. simpl. rewrite Ht, Hp, Hs. simpl.
        exists d. split; [reflexivity|constructor].
      * unfold add_event. run_app. rewrite (to_object_id_str_ok _ _ Hid).
        rewrite Hf. simpl. rewrite Ht, Hp. simpl.
        exists d. split; [reflexivity|constructor].
      * unfold add_event. run_app. rewrite (to_object_id_str_ok _ _ Hid).
        rewrite Hf. simpl. rewrite Ht. simpl.
        exists d. split; [reflexivity|constructor].
    + unfold add_event. run_app. rewrite (to_object_id_str_ok _ _ Hid).
      rewrite Hf. simpl. exists d. split; [reflexivity|constructor].
  - unfold add_event, to_object_id_str. run_app. rewrite Hid. simpl.
    exists d. split; [reflexivity|constructor].
Qed.

Lemma end_match_step_fresh (now : Z) (match_id : string) (d : Database) :
  exists d', snd (end_match now match_id (Some d)) = Some d'
             /\ step_fresh d d'.
Proof.
  destruct (ObjectId_of_str match_id) as [oid|] eqn:Hid.
  - destruct (find_one (has_id oid) (db_match d)) as [m|] eqn:Hf.
    + rewrite (end_match_found d now match_id oid m Hid Hf). simpl.
      eexists. split; [reflexivity|]. apply fresh_update. reflexivity.
    + unfold end_match. run_app. rewrite (to_object_id_str_ok _ _ Hid).
      rewrite Hf. simpl. exists d. split; [reflexivity|constructor].
  - unfold end_match, to_object_id_str. run_app. rewrite Hid. simpl.
    exists d. split; [reflexivity|constructor].
Qed.

Lemma serve_step_fresh (now : Z) (r : Request) (d : Database) :
  exists d', serve now r (Some d) = Some d' /\ step_fresh d d'.
Proof.
  destruct r; simpl.
  - apply create_team_step_fresh.
  - apply create_player_step_fresh.
  - apply start_match_step_fresh.
  - apply add_event_step_fresh.
  - apply end_match_step_fresh.
  - rewrite get_match_state. exists d. split; [reflexivity|constructor].
  - rewrite leaderboard_teams_state. exists d. split; [reflexivity|constructor].
  - rewrite leaderboard_players_state.
    exists d. split; [reflexivity|constructor].
Qed.

Lemma serve_all_invariant_fresh (P : Database -> Prop) :
  (forall d d', step_fresh d d' -> P d -> P d') ->
  forall reqs d d',
    P d -> serve_all reqs (Some d) = Some d' -> P d'.
Proof.
  intros Hstep reqs. induction reqs as [|[now r] reqs IH]; simpl.
  - intros d d' HP Heq. inversion Heq. now subst.
  - intros d d' HP Heq.
    destruct (serve_step_fresh now r d) as [d1 [Hs Hst]].
    rewrite Hs in Heq. eapply IH; [|exact Heq]. eapply Hstep; eauto.
Qed.

Lemma step_ids_fresh (d d' : Database) :
  step_fresh d d' -> ids_fresh d -> ids_fresh d'.
Proof.
  unfold ids_fresh. intros Hst [Ht [Hp Hm]].
  destruct Hst; simpl; try (repeat split; assumption).
  - repeat split; intros x Hx;
      [apply in_app_or in Hx; destruct Hx as [Hx|[<-|[]]];
       [specialize (Ht x Hx)|]|specialize (Hp x Hx)|specialize (Hm x Hx)];
      lia.
  - repeat split; intros x Hx;
      [specialize (Ht x Hx)
      |apply in_app_or in Hx; destruct Hx as [Hx|[<-|[]]];
       [specialize (Hp x Hx)|]
      |specialize (Hm x Hx)]; lia.
  - repeat split; intros x Hx;
      [specialize (Ht x Hx)|specialize (Hp x Hx)
      |apply in_app_or in Hx; destruct Hx as [Hx|[<-|[]]];
       [specialize (Hm x Hx)|]]; lia.
  - repeat split; try assumption. intros x Hx.
    apply in_update_one in Hx. destruct Hx as [Hx|[y [Hy ->]]];
      [now apply Hm|].
    rewrite H. apply Hm. unfold find_one in Hy. now apply find_some in Hy.
Qed.

Lemma reachable_ids_fresh (reqs : list (Z * Request)) (d : Database) :
  serve_all reqs (Some empty_db) = Some d -> ids_fresh d.
Proof.
  apply (serve_all_invariant_fresh ids_fresh step_ids_fresh reqs empty_db d).
  repeat split; intros x [].
Qed.

(** X4: in every state reached from the empty store, while identities
    fit twelve bytes, the match that [start_match] returns is stored
    under an identity no earlier match carries, and [get_match] called
    with the printed identity of that match returns exactly it: not
    ended, no events, 0-0, no winner. *)
Theorem start_match_then_get :
  forall (reqs : list (Z * Request)) (d d' : Database) (now : Z)
         (payload : MatchStart) (m0 : MatchDoc),
    serve_all reqs (Some empty_db) = Some d ->
    (next_oid d < ObjectId_bound)%N ->
    start_match now payload (Some d) = (Ok m0, Some d') ->
    get_match (ObjectId_str (m_id m0)) (Some d') = (Ok m0, Some d')
    /\ (forall m, In m (db_match d) -> m_id m <> m_id m0)
    /\ ended_at m0 = None
    /\ events m0 = []
    /\ home_score m0 = 0
    /\ away_score m0 = 0
    /\ winner_team_id m0 = None.
Proof.
  intros reqs d d' now payload m0 Hrun Hb Hstart.
  destruct (reachable_ids_fresh reqs d Hrun) as [_ [_ Hm]].
  unfold start_match in Hstart. run_app.
  revert Hstart. unfold bind, lift, require_db, put_db, ret. simpl.
  destruct (to_object_id_str (ms_home_team_id payload)) as [h|]; simpl;
    [|discriminate].
  destruct (to_object_id_str (ms_away_team_id payload)) as [a|]; simpl;
    [|discriminate].
  intro H. inversion H; subst. simpl. clear H.
  split.
  - pose proof (to_object_id_str_ok _ _ (ObjectId_roundtrip _ Hb)) as Hs.
    set (id_str := ObjectId_str (next_oid d)) in *. clearbody id_str.
    unfold get_match. run_app. rewrite Hs. simpl.
    rewrite find_one_app_miss.
    + simpl. unfold has_id. simpl. rewrite N.eqb_refl. reflexivity.
    + intros x Hx. unfold has_id. apply N.eqb_neq.
      specialize (Hm x Hx). lia.
  - repeat split. intros m Hin Heq. specialize (Hm m Hin). lia.
Qed.

(** Instance of [start_match_then_get]: the match of the scenario. *)
Lemma start_match_then_get_witness :
  (serve_all [ (1, CreateTeam Scenario.falcons);
               (2, CreateTeam Scenario.eagles) ] (Some empty_db)
   = Some Scenario.db_two_teams
   /\ (next_oid Scenario.db_two_teams < ObjectId_bound)%N
   /\ start_match 3 (mkMatchStart Scenario.id1 Scenario.id2)
        (Some Scenario.db_two_teams)
      = (Ok (mkMatchDoc 3%N 1%N 2%N 3 None [] 0 0 None),
         Some (mkDatabase (db_team Scenario.db_two_teams) []
                  [ mkMatchDoc 3%N 1%N 2%N 3 None [] 0 0 None ] 4%N)))
  /\ get_match "000000000000000000000003"
       (Some (mkDatabase (db_team Scenario.db_two_teams) []
                [ mkMatchDoc 3%N 1%N 2%N 3 None [] 0 0 None ] 4%N))
     = (Ok (mkMatchDoc 3%N 1%N 2%N 3 None [] 0 0 None),
        Some (mkDatabase (db_team Scenario.db_two_teams) []
                [ mkMatchDoc 3%N 1%N 2%N 3 None [] 0 0 None ] 4%N)).
Proof.
  assert (Hb : (next_oid Scenario.db_two_teams < ObjectId_bound)%N)
    by reflexivity.
  split; [repeat split; try reflexivity; exact Hb|].
  exact (proj1 (start_match_then_get
                  [ (1, CreateTeam Scenario.falcons);
                    (2, CreateTeam Scenario.eagles) ]
                  Scenario.db_two_teams _ 3
                  (mkMatchStart Scenario.id1 Scenario.id2) _
                  eq_refl Hb eq_refl)).
Defined.

(** * Further properties: ending and late events *)

Lemma update_one_absorb {A : Type} (p : A -> bool) (f g : A -> A)
  (l : list A) :
  (forall x, p x = true -> p (f x) = true) ->
  (forall x, g (f x) = f x) ->
  update_one p g (update_one p f l) = update_one p f l.
Proof.
  intros Hp Hg. induction l as [|a l IH]; simpl; [reflexivity|].
  destruct (p a) eqn:Ha; simpl.
  - rewrite (Hp a Ha), Hg. reflexivity.
  - rewrite Ha, IH. reflexivity.
Qed.

Lemma end_match_ok_inv (d : Database) (now : Z) (match_id : string)
  (m1 : MatchDoc) (d1 : Database) :
  end_match now match_id (Some d) = (Ok (Some m1), Some d1) ->
  exists oid m,
    ObjectId_of_str match_id = Some oid
    /\ find_one (has_id oid) (db_match d) = Some m
    /\ m1 = set_ended now (outcome (home_score m) (away_score m)
                                   (home_team_id m) (away_team_id m)) m
    /\ d1 = set_matches d
              (update_one (has_id oid)
                 (set_ended now (outcome (home_score m) (away_score m)
                                         (home_team_id m) (away_team_id m)))
                 (db_match d)).
Proof.
  intro H.
  destruct (ObjectId_of_str match_id) as [oid|] eqn:Hid.
  - destruct (find_one (has_id oid) (db_match d)) as [m|] eqn:Hf.
    + rewrite (end_match_found d now match_id oid m Hid Hf) in H.
      inversion H. exists oid, m. auto.
    + revert H. unfold end_match. run_app.
      rewrite (to_object_id_str_ok _ _ Hid). rewrite Hf. discriminate.
  - revert H. unfold end_match, to_object_id_str. run_app. rewrite Hid.
    discriminate.
Qed.

(** X5: ending a match again, with no event in between, decides the
    same winner: the second [end_match] succeeds, changes nothing but
    the end timestamp, and when it is served at the same time as the
    first it leaves the whole store as the first left it. *)
Theorem end_match_twice :
  forall (d d1 : Database) (now1 now2 : Z) (match_id : string)
         (m1 : MatchDoc),
    end_match now1 match_id (Some d) = (Ok (Some m1), Some d1) ->
    exists m2 d2,
      end_match now2 match_id (Some d1) = (Ok (Some m2), Some d2)
      /\ winner_team_id m2 = winner_team_id m1
      /\ ended_at m2 = Some now2
      /\ events m2 = events m1
      /\ home_score m2 = home_score m1
      /\ away_score m2 = away_score m1
      /\ (now2 = now1 -> m2 = m1 /\ d2 = d1).
Proof.
  intros d d1 now1 now2 match_id m1 H.
  destruct (end_match_ok_inv _ _ _ _ _ H) as [oid [m [Hid [Hf [Hm1 Hd1]]]]].
  destruct (find_one_has_id _ _ _ Hf) as [Hm _].
  set (w := outcome (home_score m) (away_score m)
                    (home_team_id m) (away_team_id m)) in *.
  assert (Hf1 : find_one (has_id oid) (db_match d1) = Some m1).
  { rewrite Hd1, Hm1. simpl. apply find_update_one; [exact Hf|].
    unfold has_id. simpl. rewrite Hm. apply N.eqb_refl. }
  rewrite (end_match_found d1 now2 match_id oid m1 Hid Hf1).
  assert (Hw : outcome (home_score m1) (away_score m1)
                       (home_team_id m1) (away_team_id m1) = w).
  { rewrite Hm1. reflexivity. }
  rewrite Hw. eexists. eexists. split; [reflexivity|].
  do 5 (split; [rewrite Hm1; reflexivity|]).
  intro Hnow. subst now2. split; [rewrite Hm1; reflexivity|].
  rewrite Hd1. unfold set_matches. simpl. f_equal.
  apply update_one_absorb; [|reflexivity].
  intros x Hx. exact Hx.
Qed.

(** Instance of [end_match_twice]: the scenario's match at 1-0, ended
    at time 7 and again at time 9. *)
Lemma end_match_twice_witness :
  end_match 7 Scenario.id5 (Some Scenario.db_one_goal)
  = (Ok (Some (set_ended 7 (Some 1%N) Scenario.match_one_goal)),
     Some (set_matches Scenario.db_one_goal
             [ set_ended 7 (Some 1%N) Scenario.match_one_goal ]))
  /\ exists m2 d2,
      end_match 9 Scenario.id5
        (Some (set_matches Scenario.db_one_goal
                 [ set_ended 7 (Some 1%N) Scenario.match_one_goal ]))
      = (Ok (Some m2), Some d2)
      /\ winner_team_id m2 = Some 1%N
      /\ ended_at m2 = Some 9.
Proof.
  split; [reflexivity|].
  destruct (end_match_twice Scenario.db_one_goal
              (set_matches Scenario.db_one_goal
                 [ set_ended 7 (Some 1%N) Scenario.match_one_goal ])
              7 9 Scenario.id5
              (set_ended 7 (Some 1%N) Scenario.match_one_goal) eq_refl)
    as [m2 [d2 [H1 [H2 [H3 _]]]]].
  exists m2, d2. repeat split; assumption.
Defined.

Lemma add_event_ok_inv (d : Database) (now : Z) (match_id : string)
  (event : EventCreate) (m' : MatchDoc) (s' : option Database)
  (oid : ObjectId) (m : MatchDoc) :
  ObjectId_of_str match_id = Some oid ->
  find_one (has_id oid) (db_match d) = Some m ->
  add_event now match_id event (Some d) = (Ok (Some m'), s') ->
  exists t p s,
    convert_id (ec_team_id event) = Ok t
    /\ convert_id (ec_player_id event) = Ok p
    /\ convert_id (ec_secondary_player_id event) = Ok s
    /\ m' = score_update m (stored_event now event t p s) m.
Proof.
  intros Hid Hf H.
  destruct (convert_id (ec_team_id event)) as [t|] eqn:Ht;
    [destruct (convert_id (ec_player_id event)) as [p|] eqn:Hp;
     [destruct (convert_id (ec_secondary_player_id event)) as [s|] eqn:Hs
     |]|].
  - rewrite (add_event_found d now match_id event oid m t p s
               Hid Hf Ht Hp Hs) in H.
    inversion H. exists t, p, s. auto.
  - revert H. unfold add_event. run_app.
    rewrite (to_object_id_str_ok _ _ Hid). rewrite Hf. simpl.
    rewrite Ht, Hp, Hs. discriminate.
  - revert H. unfold add_event. run_app.
    rewrite (to_object_id_str_ok _ _ Hid). rewrite Hf. simpl.
    rewrite Ht, Hp. discriminate.
  - revert H. unfold add_event. run_app.
    rewrite (to_object_id_str_ok _ _ Hid). rewrite Hf. simpl.
    rewrite Ht. discriminate.
Qed.

(** X6: [add_event] does not look at whether the match has ended and
    touches neither its end timestamp nor its stored winner.  So when a
    match was ended as a draw and the home team then scores, the event
    is accepted, the stored winner stays empty, and the winner that the
    new scores give is the home team. *)
Theorem add_event_after_end :
  forall (d : Database) (now : Z) (match_id : string) (event : EventCreate)
         (oid : ObjectId) (m m' : MatchDoc) (s' : option Database),
    ObjectId_of_str match_id = Some oid ->
    find_one (has_id oid) (db_match d) = Some m ->
    add_event now match_id event (Some d) = (Ok (Some m'), s') ->
    ended_at m' = ended_at m
    /\ winner_team_id m' = winner_team_id m
    /\ (ec_type event = goal ->
        convert_id (ec_team_id event) = Ok (IdOid (home_team_id m)) ->
        home_score m = away_score m ->
        winner_team_id m = None ->
        winner_team_id m' = None
        /\ outcome (home_score m') (away_score m')
                   (home_team_id m') (away_team_id m')
           = Some (home_team_id m)).
Proof.
  intros d now match_id event oid m m' s' Hid Hf H.
  destruct (add_event_ok_inv _ _ _ _ _ _ _ _ Hid Hf H)
    as [t [p [s [Ht [Hp [Hs Hm']]]]]].
  assert (Hkeep : ended_at m' = ended_at m
                  /\ winner_team_id m' = winner_team_id m).
  { rewrite Hm'. unfold score_update.
    destruct (e_type _);
      repeat match goal with
             | |- context [if ?b then _ else _] => destruct b
             end; split; reflexivity. }
  destruct Hkeep as [He Hw]. split; [exact He|]. split; [exact Hw|].
  intros Hty Hteam Heq Hnone. split; [congruence|].
  rewrite Ht in Hteam. inversion Hteam; subst t.
  rewrite Hm'. unfold score_update, stored_event. simpl. rewrite Hty.
  rewrite N.eqb_refl. simpl.
  unfold outcome. rewrite Heq.
  destruct (away_score m + 1 >? away_score m) eqn:E; [reflexivity|lia].
Qed.

(** Instance of [add_event_after_end]: the scenario's match, ended as a
    goalless draw, receives a goal of the home side. *)
Lemma add_event_after_end_witness :
  (ObjectId_of_str Scenario.id5 = Some 5%N
   /\ find_one (has_id 5%N) (db_match Scenario.db_ended_draw)
      = Some Scenario.match_ended_draw
   /\ fst (add_event 7 Scenario.id5
             (Scenario.event_of goal (Some Scenario.id1) (Some Scenario.id3)
                                None)
             (Some Scenario.db_ended_draw))
      = Ok (Some (mkMatchDoc 5%N 1%N 2%N 5 (Some 6)
                    [ mkEvent goal (IdOid 1%N) (IdOid 3%N) IdNone None None 7 ]
                    1 0 None)))
  /\ winner_team_id
       (mkMatchDoc 5%N 1%N 2%N 5 (Some 6)
          [ mkEvent goal (IdOid 1%N) (IdOid 3%N) IdNone None None 7 ]
          1 0 None) = None
  /\ outcome 1 0 1%N 2%N = Some 1%N.
Proof.
  split; [repeat split; reflexivity|].
  exact (proj2 (proj2
           (add_event_after_end Scenario.db_ended_draw 7 Scenario.id5
              (Scenario.event_of goal (Some Scenario.id1) (Some Scenario.id3)
                                 None)
              5%N Scenario.match_ended_draw _ _ eq_refl eq_refl eq_refl))
           eq_refl eq_refl eq_refl eq_refl).
Defined.

(** * Further properties: order and size of the leaderboards *)

Lemma descending_join {A B : Type} (ka : A -> Z) (kb : B -> Z)
  (g : A -> list B) (l : list A) :
  (forall a, g a = [] \/ exists b, g a = [b] /\ kb b = ka a) ->
  descending ka l ->
  descending kb (flat_map g l)
  /\ (forall b, In b (flat_map g l) -> exists a, In a l /\ kb b = ka a)
  /\ (List.length (flat_map g l) <= List.length l)%nat.
Proof.
  unfold descending. intros Hg. induction l as [|x tl IH]; intro H.
  - simpl. repeat split; [constructor|intros b []|lia].
  - apply StronglySorted_inv in H. destruct H as [Htl Hx].
    destruct (IH Htl) as [IH1 [IH2 IH3]]. simpl.
    destruct (Hg x) as [Hnil|[b [Hb Hk]]].
    + rewrite Hnil. simpl. repeat split; [exact IH1| |lia].
      intros b Hb. destruct (IH2 b Hb) as [a [Ha Hk]]. exists a. auto.
    + rewrite Hb. simpl. repeat split.
      * constructor; [exact IH1|].
        rewrite Forall_forall in *. intros z Hz.
        destruct (IH2 z Hz) as [a [Ha Hka]]. specialize (Hx a Ha). lia.
      * intros z [<-|Hz]; [exists x; auto|].
        destruct (IH2 z Hz) as [a [Ha Hka]]. exists a. auto.
      * lia.
Qed.

Lemma mongo_limit_descending {A : Type} (key : A -> Z) (limit : Z)
  (rows out : list A) :
  mongo_limit limit rows = Ok out ->
  descending key rows ->
  descending key out /\ Z.of_nat (List.length out) <= limit.
Proof.
  unfold mongo_limit. destruct (_ || _); [discriminate|].
  destruct (limit <=? 0) eqn:E; [discriminate|].
  intros H Hd. inversion H; subst. split; [now apply descending_firstn|].
  pose proof (firstn_le_length (Z.to_nat limit) rows). lia.
Qed.

Lemma join_player_shape (d : Database) (r : IdField * Z) :
  join_player d r = []
  \/ exists b, join_player d r = [b] /\ row_count b = snd r.
Proof.
  unfold join_player. destruct (fst r); auto.
  destruct (find_one _ (db_player d)); auto.
  right. eexists. split; reflexivity.
Qed.

Lemma join_team_shape (stat : TeamStat) (d : Database) (r : TeamAgg) :
  join_team d r = []
  \/ exists b, join_team d r = [b] /\ row_stat stat b = team_stat_key stat r.
Proof.
  unfold join_team. destruct (find_one _ (db_team d)); auto.
  right. eexists. split; [reflexivity|]. destruct stat; reflexivity.
Qed.

Lemma keep_scoped_descending (ids : option (list ObjectId))
  (rows : list (IdField * Z)) :
  descending snd rows ->
  descending snd (keep_scoped ids rows)
  /\ (List.length (keep_scoped ids rows) <= List.length rows)%nat.
Proof.
  unfold keep_scoped. destruct ids; intro H.
  - split; [now apply descending_filter|apply filter_length_le].
  - split; [exact H|lia].
Qed.

Lemma players_aggregate_sorted (ids : option (list ObjectId))
  (stat : PlayerStat) (limit : Z) (d : Database) (rows : list PlayerRow)
  (s' : option Database) :
  players_aggregate ids stat limit (Some d) = (Ok rows, s') ->
  descending row_count rows /\ Z.of_nat (List.length rows) <= limit.
Proof.
  rewrite players_aggregate_run. unfold player_pipeline.
  destruct (mongo_limit _ _) as [out|] eqn:Hl; [|discriminate].
  intro H. inversion H; subst.
  destruct (mongo_limit_descending snd _ _ _ Hl (sort_desc_descending snd _))
    as [Hd Hlen].
  destruct (keep_scoped_descending ids out Hd) as [Hk1 Hk2].
  destruct (descending_join snd row_count (join_player d) _
              (join_player_shape d) Hk1) as [J1 [_ J3]].
  split; [exact J1|lia].
Qed.

(** X7: whatever the statistic and the scope, the list the player
    leaderboard returns is in descending order of its counts and, when
    it is not empty, has at most [limit] rows; the query leaves the
    store as it was. *)
Theorem leaderboard_players_sorted :
  forall (d : Database) (scope : Scope) (country city : option string)
         (stat : PlayerStat) (limit : Z) (rows : list PlayerRow)
         (s' : option Database),
    leaderboard_players scope country city stat limit (Some d)
    = (Ok rows, s') ->
    StronglySorted (fun a b => row_count a >= row_count b) rows
    /\ (rows <> [] -> Z.of_nat (List.length rows) <= limit)
    /\ s' = Some d.
Proof.
  intros d scope country city stat limit rows s' H.
  assert (Hs : s' = Some d).
  { pose proof (leaderboard_players_state scope country city stat limit d)
      as Hst. rewrite H in Hst. exact Hst. }
  rewrite leaderboard_players_run in H.
  destruct (scoped_player_ids d scope country city) as [[|i l]|].
  - inversion H; subst. split; [constructor|]. split; [congruence|reflexivity].
  - destruct (players_aggregate_sorted _ _ _ _ _ _ H). auto.
  - destruct (players_aggregate_sorted _ _ _ _ _ _ H). auto.
Qed.

(** Instance of [leaderboard_players_sorted]: the goals leaderboard of
    the scenario in which Q has scored twice and P once. *)
Lemma leaderboard_players_sorted_witness :
  leaderboard_players ScopeGlobal None None StatGoals 20
    (Some Scenario.db_outscored)
  = (Ok [ mkPlayerRow 4%N "Q" (Some "Eagles") 2 (Some "W") (Some "Z");
          mkPlayerRow 3%N "P" (Some "Falcons") 1 (Some "X") (Some "Y") ],
     Some Scenario.db_outscored)
  /\ StronglySorted (fun a b => row_count a >= row_count b)
       [ mkPlayerRow 4%N "Q" (Some "Eagles") 2 (Some "W") (Some "Z");
         mkPlayerRow 3%N "P" (Some "Falcons") 1 (Some "X") (Some "Y") ].
Proof.
  split; [reflexivity|].
  exact (proj1 (leaderboard_players_sorted Scenario.db_outscored ScopeGlobal
                  None None StatGoals 20 _ _ eq_refl)).
Defined.

Lemma teams_aggregate_sorted (mf : option (list ObjectId))
  (stat : TeamStat) (limit : Z) (d : Database) (rows : list TeamRow)
  (s' : option Database) :
  teams_aggregate mf stat limit (Some d) = (Ok rows, s') ->
  descending (row_stat stat) rows /\ Z.of_nat (List.length rows) <= limit.
Proof.
  rewrite teams_aggregate_run, team_pipeline_groups.
  destruct (mongo_limit _ _) as [out|] eqn:Hl; [|discriminate].
  intro H. inversion H; subst.
  destruct (mongo_limit_descending (team_stat_key stat) _ _ _ Hl
              (sort_desc_descending (team_stat_key stat) _)) as [Hd Hlen].
  destruct (descending_join (team_stat_key stat) (row_stat stat)
              (join_team d) _ (join_team_shape stat d) Hd) as [J1 [_ J3]].
  split; [exact J1|lia].
Qed.

(** X8: the list the team leaderboard returns is in descending order of
    the requested statistic (goals, wins or points) and, when it is not
    empty, has at most [limit] rows; the query leaves the store as it
    was. *)
Theorem leaderboard_teams_sorted :
  forall (d : Database) (scope : Scope) (country city : option string)
         (stat : TeamStat) (limit : Z) (rows : list TeamRow)
         (s' : option Database),
    leaderboard_teams scope country city stat limit (Some d)
    = (Ok rows, s') ->
    StronglySorted (fun a b => row_stat stat a >= row_stat stat b) rows
    /\ (rows <> [] -> Z.of_nat (List.length rows) <= limit)
    /\ s' = Some d.
Proof.
  intros d scope country city stat limit rows s' H.
  assert (Hs : s' = Some d).
  { pose proof (leaderboard_teams_state scope country city stat limit d)
      as Hst. rewrite H in Hst. exact Hst. }
  rewrite leaderboard_teams_run in H.
  destruct (team_match_filter d scope country city) as [[|i l]|].
  - inversion H; subst. split; [constructor|]. split; [congruence|reflexivity].
  - destruct (teams_aggregate_sorted _ _ _ _ _ _ H). auto.
  - destruct (teams_aggregate_sorted _ _ _ _ _ _ H). auto.
Qed.

(** Instance of [leaderboard_teams_sorted]: the points table of the
    scenario at 1-0. *)
Lemma leaderboard_teams_sorted_witness :
  leaderboard_teams ScopeGlobal None None StatTeamPoints 20
    (Some Scenario.db_one_goal)
  = (Ok Scenario.rows_one_goal, Some Scenario.db_one_goal)
  /\ StronglySorted (fun a b => row_points a >= row_points b)
       Scenario.rows_one_goal.
Proof.
  split; [reflexivity|].
  exact (proj1 (leaderboard_teams_sorted Scenario.db_one_goal ScopeGlobal
                  None None StatTeamPoints 20 _ _ eq_refl)).
Defined.

(** * Further properties: what the leaderboards count *)

(** X9: for the statistics goals, yellow and red the player
    leaderboard counts, for every returned player, the events of that
    type, over all matches, whose primary player is that player; own
    goals and substitutions count for nobody under any statistic.
    Every returned row belongs to a stored player and shows that
    player's name, country, city and the name of the team the player is
    on when the query is made.  A stored player in scope with at least
    one such event is returned when at most [limit] credited
    identities have a count at least as high, and is not returned when
    [limit] or more have a higher one. *)
Theorem leaderboard_players_counts :
  forall (d : Database) (scope : Scope) (country city : option string)
         (stat : PlayerStat) (limit : Z),
    (forall k e,
       stat <> StatAssists ->
       (credited stat k e = true
        <-> e_type e = stat_type stat /\ e_player_id e = k))
    /\ (forall k e,
          e_type e = own_goal \/ e_type e = substitution ->
          credited stat k e = false)
    /\ (forall rows s',
          leaderboard_players scope country city stat limit (Some d)
          = (Ok rows, s') ->
          forall row, In row rows ->
            exists p,
              find_one (fun x => N.eqb (p_id x) (row_player_id row))
                       (db_player d) = Some p
              /\ row_count row
                 = count_events (credited stat (IdOid (row_player_id row)))
                                (unwind_events (db_match d))
              /\ row_player_name row = p_name p
              /\ row_player_team row = current_team_name d p
              /\ row_player_country row = p_country p
              /\ row_player_city row = p_city p)
    /\ (forall o p,
          0 < limit <= int64_max ->
          find_one (fun x => N.eqb (p_id x) o) (db_player d) = Some p ->
          match scoped_player_ids d scope country city with
          | Some l => In o l
          | None => True
          end ->
          0 < count_events (credited stat (IdOid o))
                           (unwind_events (db_match d)) ->
          Z.of_nat (ids_at_least stat
                      (count_events (credited stat (IdOid o))
                                    (unwind_events (db_match d)))
                      (unwind_events (db_match d))) <= limit ->
          exists rows row,
            leaderboard_players scope country city stat limit (Some d)
            = (Ok rows, Some d)
            /\ In row rows
            /\ row_player_id row = o
            /\ row_count row
               = count_events (credited stat (IdOid o))
                              (unwind_events (db_match d)))
    /\ (forall o rows s',
          leaderboard_players scope country city stat limit (Some d)
          = (Ok rows, s') ->
          limit
          <= Z.of_nat (ids_above stat
                         (count_events (credited stat (IdOid o))
                                       (unwind_events (db_match d)))
                         (unwind_events (db_match d))) ->
          ~ In o (map row_player_id rows)).
Proof.
  intros d scope country city stat limit. split.
  { intros k e Hstat. unfold credited.
    destruct stat; try congruence; simpl;
      rewrite andb_true_iff, IdField_eqb_eq;
      destruct (e_type e); simpl; intuition congruence. }
  split.
  { intros k e [H|H]; unfold credited; destruct stat; rewrite H; reflexivity. }
  split.
  { intros rows s' Hrun row Hin.
    destruct (leaderboard_players_sound _ _ _ _ _ _ _ _ Hrun) as [_ Hrows].
    destruct (Hrows row Hin) as [p [Hp [Hrow _]]].
    exists p. split; [exact Hp|]. rewrite Hrow at 1 3 4 5 6. simpl.
    repeat split. }
  split.
  { intros o p Hl Hp Hscope Hpos Hrank.
    destruct (leaderboard_players_listed scope country city stat limit d o p
                Hl Hp Hscope Hpos Hrank) as [rows [Hrun Hin]].
    exists rows. eexists. split; [exact Hrun|]. split; [exact Hin|].
    split; reflexivity. }
  intros o rows s' Hrun Hrank.
  exact (leaderboard_players_cut scope country city stat limit d o rows s'
           Hrun Hrank).
Qed.

(** Instance of [leaderboard_players_counts]: the goals of Q in the
    scenario in which Q has scored twice and P once, with limit 1. *)
Lemma leaderboard_players_counts_witness :
  (0 < 1 <= int64_max
   /\ find_one (fun x => N.eqb (p_id x) 4%N) (db_player Scenario.db_outscored)
      = Some Scenario.player_q_doc
   /\ scoped_player_ids Scenario.db_outscored ScopeGlobal None None = None
   /\ 0 < count_events (credited StatGoals (IdOid 4%N))
                       (unwind_events (db_match Scenario.db_outscored))
   /\ Z.of_nat (ids_at_least StatGoals
                  (count_events (credited StatGoals (IdOid 4%N))
                     (unwind_events (db_match Scenario.db_outscored)))
                  (unwind_events (db_match Scenario.db_outscored))) <= 1)
  /\ exists rows row,
      leaderboard_players ScopeGlobal None None StatGoals 1
        (Some Scenario.db_outscored) = (Ok rows, Some Scenario.db_outscored)
      /\ In row rows
      /\ row_player_id row = 4%N
      /\ row_count row = 2.
Proof.
  assert (Hl : 0 < 1 <= int64_max) by (unfold int64_max; lia).
  assert (Hpos : 0 < count_events (credited StatGoals (IdOid 4%N))
                       (unwind_events (db_match Scenario.db_outscored)))
    by reflexivity.
  assert (Hrank : Z.of_nat (ids_at_least StatGoals
                    (count_events (credited StatGoals (IdOid 4%N))
                       (unwind_events (db_match Scenario.db_outscored)))
                    (unwind_events (db_match Scenario.db_outscored))) <= 1)
    by (vm_compute; discriminate).
  split; [repeat split; try reflexivity; try apply Hl; assumption|].
  exact (proj1 (proj2 (proj2 (proj2
           (leaderboard_players_counts Scenario.db_outscored ScopeGlobal
              None None StatGoals 1))))
           4%N Scenario.player_q_doc Hl eq_refl I Hpos Hrank).
Defined.

(** X10: the scope of the team leaderboard selects matches, not teams.
    A stored team that does not match the country or city of the query
    is still listed when it has played a stored team that does and at
    most [limit] teams of candidate matches have a statistic at least
    as high; and every listed team, in scope or not, is credited only
    with its matches against or as an in-scope team: the candidate
    matches. *)
Theorem leaderboard_teams_lists_opponents :
  forall (d : Database) (scope : Scope) (country city : option string)
         (stat : TeamStat) (limit : Z) (m : MatchDoc) (t : ObjectId)
         (team opponent : TeamDoc),
    0 < limit <= int64_max ->
    scope <> ScopeGlobal ->
    In m (db_match d) ->
    (home_team_id m = t /\ away_team_id m = t_id opponent
     \/ away_team_id m = t /\ home_team_id m = t_id opponent) ->
    In opponent (db_team d) ->
    in_scope scope country city opponent = true ->
    find_one (fun x => N.eqb (t_id x) t) (db_team d) = Some team ->
    in_scope scope country city team = false ->
    Z.of_nat (teams_at_least stat
                (team_stat stat t (candidates d scope country city))
                (candidates d scope country city)) <= limit ->
    exists rows row,
      leaderboard_teams scope country city stat limit (Some d)
      = (Ok rows, Some d)
      /\ In row rows
      /\ row_team_id row = t
      /\ row_team_name row = t_name team
      /\ row_goals row = goals_of t (candidates d scope country city)
      /\ row_wins row = wins_of t (candidates d scope country city)
      /\ forall m', In m' (candidates d scope country city) ->
           exists other,
             In other (db_team d)
             /\ in_scope scope country city other = true
             /\ (home_team_id m' = t_id other \/ away_team_id m' = t_id other).
Proof.
  intros d scope country city stat limit m t team opponent
         Hl Hscope Hm Hsides Hopp Hin Hteam Hout Hrank.
  assert (Hplays : plays_in t (candidates d scope country city)).
  { exists m. split; [|destruct Hsides as [[H _]|[H _]]; auto].
    unfold candidates. apply filter_In. split; [exact Hm|].
    apply candidate_iff. right. exists opponent.
    split; [exact Hopp|]. split; [exact Hin|].
    destruct Hsides as [[_ H]|[_ H]]; auto. }
  destruct (leaderboard_teams_listed scope country city stat limit d t team
              Hl Hteam Hplays Hrank) as [rows [Hrun Hrow]].
  exists rows. eexists. split; [exact Hrun|]. split; [exact Hrow|].
  simpl. repeat split.
  intros m' Hm'. unfold candidates in Hm'. apply filter_In in Hm'.
  destruct Hm' as [_ Hc]. apply candidate_iff in Hc.
  destruct Hc as [Hg|Hc]; [congruence|exact Hc].
Qed.

(** Instance of [leaderboard_teams_lists_opponents]: the leaderboard of
    city Y lists the Eagles, of city Z, who played the Falcons. *)
Lemma leaderboard_teams_lists_opponents_witness :
  (0 < 2 <= int64_max
   /\ ScopeCity <> ScopeGlobal
   /\ In Scenario.match_one_goal (db_match Scenario.db_one_goal)
   /\ In Scenario.falcons_doc (db_team Scenario.db_one_goal)
   /\ in_scope ScopeCity (Some "X") (Some "Y") Scenario.falcons_doc = true
   /\ find_one (fun x => N.eqb (t_id x) 2%N) (db_team Scenario.db_one_goal)
      = Some (mkTeamDoc 2%N "Eagles" "X" "Z" None None 2 2)
   /\ in_scope ScopeCity (Some "X") (Some "Y")
               (mkTeamDoc 2%N "Eagles" "X" "Z" None None 2 2) = false
   /\ Z.of_nat (teams_at_least StatTeamGoals
                  (team_stat StatTeamGoals 2%N
                     (candidates Scenario.db_one_goal ScopeCity (Some "X")
                                 (Some "Y")))
                  (candidates Scenario.db_one_goal ScopeCity (Some "X")
                              (Some "Y"))) <= 2)
  /\ exists rows row,
      leaderboard_teams ScopeCity (Some "X") (Some "Y") StatTeamGoals 2
        (Some Scenario.db_one_goal) = (Ok rows, Some Scenario.db_one_goal)
      /\ In row rows
      /\ row_team_id row = 2%N
      /\ row_team_name row = "Eagles".
Proof.
  assert (Hl : 0 < 2 <= int64_max) by (unfold int64_max; lia).
  assert (Hs : ScopeCity <> ScopeGlobal) by discriminate.
  assert (Hm : In Scenario.match_one_goal (db_match Scenario.db_one_goal))
    by (left; reflexivity).
  assert (Ho : In Scenario.falcons_doc (db_team Scenario.db_one_goal))
    by (left; reflexivity).
  assert (Hrank : Z.of_nat (teams_at_least StatTeamGoals
                    (team_stat StatTeamGoals 2%N
                       (candidates Scenario.db_one_goal ScopeCity (Some "X")
                                   (Some "Y")))
                    (candidates Scenario.db_one_goal ScopeCity (Some "X")
                                (Some "Y"))) <= 2)
    by (vm_compute; discriminate).
  split; [repeat split; try reflexivity; try apply Hl; assumption|].
  destruct (leaderboard_teams_lists_opponents Scenario.db_one_goal ScopeCity
              (Some "X") (Some "Y") StatTeamGoals 2 Scenario.match_one_goal
              2%N (mkTeamDoc 2%N "Eagles" "X" "Z" None None 2 2)
              Scenario.falcons_doc Hl Hs Hm
              (or_intror (conj eq_refl eq_refl)) Ho eq_refl eq_refl eq_refl
              Hrank)
    as [rows [row [H1 [H2 [H3 [H4 _]]]]]].
  exists rows, row. repeat split; assumption.
Defined.

(** * Further properties: listings and creation *)

Section SortByNameFacts.
Context {A : Type}.
Variable nm : A -> string.

Lemma insert_by_name_perm (x : A) (l : list A) :
  Permutation (insert_by_name nm x l) (x :: l).
Proof.
  induction l as [|y tl IH]; simpl; [reflexivity|].
  destruct (String.leb (nm x) (nm y)); [reflexivity|].
  rewrite IH. apply perm_swap.
Qed.

Lemma sort_by_name_perm (l : list A) : Permutation (sort_by_name nm l) l.
Proof.
  induction l as [|x tl IH]; simpl; [reflexivity|].
  rewrite insert_by_name_perm. now constructor.
Qed.

Lemma insert_by_name_sorted (x : A) (l : list A) :
  by_name nm l -> by_name nm (insert_by_name nm x l).
Proof.
  unfold by_name. induction l as [|y tl IH]; simpl; intro H.
  - repeat constructor.
  - destruct (String.leb (nm x) (nm y)) eqn:E.
    + constructor; [exact H|]. constructor. exact E.
    + inversion H as [|y' tl' Htl Hhd]; subst.
      constructor; [now apply IH|].
      assert (Hyx : String.leb (nm y) (nm x) = true).
      { destruct (String.leb_total (nm x) (nm y)); congruence. }
      destruct tl as [|z tl]; simpl.
      * constructor. exact Hyx.
      * destruct (String.leb (nm x) (nm z)).
        -- constructor. exact Hyx.
        -- inversion Hhd; subst. constructor. assumption.
Qed.

Lemma sort_by_name_sorted (l : list A) : by_name nm (sort_by_name nm l).
Proof.
  induction l as [|x tl IH]; simpl; [constructor|].
  now apply insert_by_name_sorted.
Qed.

End SortByNameFacts.

Lemma perm_in_iff {A : Type} (x : A) (l l' : list A) :
  Permutation l l' -> (In x l <-> In x l').
Proof.
  intro H. split; apply Permutation_in; [exact H|now apply Permutation_sym].
Qed.

Lemma key_matches_truthy (k v : option string) :
  key_matches (truthy k) v = true
  <-> forall c, truthy k = Some c -> v = Some c.
Proof.
  unfold key_matches. destruct (truthy k) as [c|].
  - destruct v as [y|].
    + rewrite String.eqb_eq. split.
      * intros -> c' H. congruence.
      * intro H. specialize (H c eq_refl). congruence.
    + split; [discriminate|]. intro H. specialize (H c eq_refl). discriminate.
  - split; [intros _ c H; discriminate|reflexivity].
Qed.

(** X11: on a configured store [list_teams] never raises and changes
    nothing.  It returns, in ascending order of name, exactly the
    stored teams whose country equals the country parameter and whose
    city equals the city parameter, each as often as it is stored; a
    parameter that is absent or the empty string filters nothing. *)
Theorem list_teams_sorted_filtered :
  forall (d : Database) (country city : option string),
    exists teams,
      list_teams country city (Some d) = (Ok teams, Some d)
      /\ Permutation teams
           (filter (fun t =>
                      key_matches (truthy country) (Some (t_country t))
                      && key_matches (truthy city) (Some (t_city t)))
                   (db_team d))
      /\ Sorted (fun a b => String.leb (t_name a) (t_name b) = true) teams
      /\ (forall t,
            In t teams
            <-> In t (db_team d)
                /\ (forall c, truthy country = Some c -> t_country t = c)
                /\ (forall c, truthy city = Some c -> t_city t = c))
      /\ (truthy country = None -> truthy city = None ->
          Permutation teams (db_team d)).
Proof.
  intros d country city. eexists. split; [reflexivity|].
  split; [apply sort_by_name_perm|].
  split; [apply sort_by_name_sorted|]. split.
  - intro t. rewrite (perm_in_iff t _ _ (sort_by_name_perm t_name _)).
    unfold find_all, team_matches. simpl.
    rewrite filter_In, andb_true_iff, !key_matches_truthy.
    split.
    + intros [H1 [H2 H3]]. repeat split; [exact H1| |];
        intros c Hc; [specialize (H2 c Hc)|specialize (H3 c Hc)]; congruence.
    + intros [H1 [H2 H3]]. repeat split; [exact H1| |];
        intros c Hc; f_equal; auto.
  - intros Hc Hci. rewrite sort_by_name_perm.
    unfold find_all, team_matches. simpl. rewrite Hc, Hci. simpl.
    clear. induction (db_team d) as [|a l IH]; simpl; [constructor|].
    now constructor.
Qed.

(** Instance of [list_teams_sorted_filtered]: an empty country string
    filters nothing; the two teams of the scenario come back by name. *)
Lemma list_teams_sorted_filtered_witness :
  (truthy (Some EmptyString) = None /\ truthy None = None)
  /\ exists teams,
      list_teams (Some EmptyString) None (Some Scenario.db_two_teams)
      = (Ok teams, Some Scenario.db_two_teams)
      /\ map t_name teams = [ "Eagles"; "Falcons" ]
      /\ Permutation teams (db_team Scenario.db_two_teams).
Proof.
  split; [split; reflexivity|].
  destruct (list_teams_sorted_filtered Scenario.db_two_teams
              (Some EmptyString) None)
    as [teams [H1 [_ [_ [_ H5]]]]].
  exists teams. split; [exact H1|]. split; [|exact (H5 eq_refl eq_refl)].
  assert (Hc : list_teams (Some EmptyString) None (Some Scenario.db_two_teams)
               = (Ok [ mkTeamDoc 2%N "Eagles" "X" "Z" None None 2 2;
                       Scenario.falcons_doc ],
                  Some Scenario.db_two_teams)) by reflexivity.
  rewrite Hc in H1. inversion H1. reflexivity.
Defined.

Lemma list_players_run (team_id : option string) (d : Database) :
  list_players team_id (Some d)
  = match truthy team_id with
    | None => (Ok (sort_by_name p_name (db_player d)), Some d)
    | Some s =>
        match ObjectId_of_str s with
        | Some o =>
            (Ok (sort_by_name p_name
                   (find_all (on_team (Some o)) (db_player d))), Some d)
        | None => (Raise (invalid_id s), Some d)
        end
    end.
Proof.
  unfold list_players, to_object_id_str. run_app.
  destruct (truthy team_id) as [s|]; simpl.
  - destruct (ObjectId_of_str s); reflexivity.
  - unfold find_all, on_team. f_equal. f_equal. f_equal.
    induction (db_player d) as [|a l IH]; simpl; congruence.
Qed.

(** X12: [list_players] leaves the store as it is.  Without a team
    identifier, or with the empty string, it returns all stored players
    in ascending order of name.  With a well-formed identifier it
    returns, in that order, exactly the stored players whose team is
    that identifier, free agents excluded, whether or not such a team
    is stored.  With a malformed identifier it raises the 400
    "Invalid id". *)
Theorem list_players_by_team :
  forall (d : Database) (team_id : option string),
    snd (list_players team_id (Some d)) = Some d
    /\ (truthy team_id = None ->
        exists players,
          fst (list_players team_id (Some d)) = Ok players
          /\ Permutation players (db_player d)
          /\ Sorted (fun a b => String.leb (p_name a) (p_name b) = true)
                    players)
    /\ (forall s o,
          truthy team_id = Some s -> ObjectId_of_str s = Some o ->
          exists players,
            fst (list_players team_id (Some d)) = Ok players
            /\ Sorted (fun a b => String.leb (p_name a) (p_name b) = true)
                      players
            /\ forall p, In p players
                         <-> In p (db_player d) /\ p_team_id p = IdOid o)
    /\ (forall s,
          truthy team_id = Some s -> ObjectId_of_str s = None ->
          fst (list_players team_id (Some d)) = Raise (invalid_id s)).
Proof.
  intros d team_id. rewrite list_players_run. repeat split.
  - destruct (truthy team_id) as [s|]; [|reflexivity].
    destruct (ObjectId_of_str s); reflexivity.
  - intros ->. eexists. split; [reflexivity|].
    split; [apply sort_by_name_perm|apply sort_by_name_sorted].
  - intros s o -> ->. eexists. split; [reflexivity|].
    split; [apply sort_by_name_sorted|]. intro p.
    rewrite (perm_in_iff p _ _ (sort_by_name_perm p_name _)).
    unfold find_all, on_team. rewrite filter_In, IdField_eqb_eq. reflexivity.
  - intros s -> ->. reflexivity.
Qed.

(** Instance of [list_players_by_team]: the players of the Falcons in
    the scenario. *)
Lemma list_players_by_team_witness :
  (truthy (Some Scenario.id1) = Some Scenario.id1
   /\ ObjectId_of_str Scenario.id1 = Some 1%N)
  /\ exists players,
      fst (list_players (Some Scenario.id1) (Some Scenario.db_one_goal))
      = Ok players
      /\ Sorted (fun a b => String.leb (p_name a) (p_name b) = true) players
      /\ forall p, In p players
                   <-> In p (db_player Scenario.db_one_goal)
                       /\ p_team_id p = IdOid 1%N.
Proof.
  split; [split; reflexivity|].
  exact (proj1 (proj2 (proj2
           (list_players_by_team Scenario.db_one_goal (Some Scenario.id1))))
           Scenario.id1 1%N eq_refl eq_refl).
Defined.

(** X13: in every state reached from the empty store, [create_team]
    for a (name, country, city) no stored team has succeeds: it stores
    one new team after the others, under an identity no stored team
    has, with the fields of the request, and returns that document.
    [list_teams] without filters then lists it among one team more
    than before. *)
Theorem create_team_stores_and_lists :
  forall (reqs : list (Z * Request)) (d : Database) (now : Z)
         (team : TeamCreate),
    serve_all reqs (Some empty_db) = Some d ->
    ~ In (create_key team) (map team_key (db_team d)) ->
    exists doc d' listing,
      create_team now team (Some d) = (Ok (Some doc), Some d')
      /\ db_team d' = db_team d ++ [doc]
      /\ db_player d' = db_player d
      /\ db_match d' = db_match d
      /\ (forall t, In t (db_team d) -> t_id t <> t_id doc)
      /\ t_name doc = name team
      /\ t_country doc = country team
      /\ t_city doc = city team
      /\ t_coach doc = coach team
      /\ t_logo_url doc = logo_url team
      /\ list_teams None None (Some d') = (Ok listing, Some d')
      /\ In doc listing
      /\ List.length listing = S (List.length (db_team d)).
Proof.
  intros reqs d now team Hrun Hnew.
  destruct (reachable_ids_fresh reqs d Hrun) as [Ht _].
  assert (Hf : find_one (team_key_eqb (name team) (country team) (city team))
                        (db_team d) = None).
  { destruct (find_one _ (db_team d)) as [t|] eqn:E; [|reflexivity].
    exfalso. apply Hnew. unfold find_one in E. apply find_some in E.
    destruct E as [Hin Hk]. apply team_key_eqb_eq in Hk.
    apply in_map_iff. now exists t. }
  set (doc := mkTeamDoc (next_oid d) (name team) (country team) (city team)
                        (coach team) (logo_url team) now now).
  set (d' := mkDatabase (db_team d ++ [doc]) (db_player d) (db_match d)
                        (N.succ (next_oid d))).
  assert (Hc : create_team now team (Some d) = (Ok (Some doc), Some d')).
  { unfold create_team, create_document_team. run_app. rewrite Hf. simpl.
    rewrite find_one_app_miss.
    - simpl. rewrite N.eqb_refl. reflexivity.
    - intros x Hx. apply N.eqb_neq. specialize (Ht x Hx). lia. }
  exists doc, d'. eexists. split; [exact Hc|].
  do 3 (split; [reflexivity|]).
  split; [intros t Hin; specialize (Ht t Hin); simpl; lia|].
  do 5 (split; [reflexivity|]).
  split; [reflexivity|]. split.
  - apply (perm_in_iff doc _ _ (sort_by_name_perm t_name _)).
    unfold find_all. simpl. apply filter_In. split; [|reflexivity].
    apply in_or_app. right. now left.
  - rewrite (Permutation_length (sort_by_name_perm t_name _)).
    unfold find_all. simpl.
    replace (filter (team_matches (mkGeoFilter None None)) (db_team d ++ [doc]))
      with (db_team d ++ [doc]).
    + rewrite length_app. simpl. lia.
    + generalize (db_team d ++ [doc]). intro l.
      induction l as [|a l IH]; simpl; congruence.
Qed.

(** Instance of [create_team_stores_and_lists]: the Eagles are created
    after the Falcons. *)
Lemma create_team_stores_and_lists_witness :
  (serve_all [ (1, CreateTeam Scenario.falcons) ] (Some empty_db)
   = Some (mkDatabase [ Scenario.falcons_doc ] [] [] 2%N)
   /\ ~ In (create_key Scenario.eagles)
           (map team_key [ Scenario.falcons_doc ]))
  /\ exists doc d',
      create_team 2 Scenario.eagles
        (Some (mkDatabase [ Scenario.falcons_doc ] [] [] 2%N))
      = (Ok (Some doc), Some d')
      /\ t_name doc = "Eagles".
Proof.
  assert (Hnew : ~ In (create_key Scenario.eagles)
                      (map team_key [ Scenario.falcons_doc ])).
  { intros [H|[]]. discriminate. }
  split; [split; [reflexivity|exact Hnew]|].
  destruct (create_team_stores_and_lists
              [ (1, CreateTeam Scenario.falcons) ]
              (mkDatabase [ Scenario.falcons_doc ] [] [] 2%N) 2
              Scenario.eagles eq_refl Hnew)
    as [doc [d' [listing [H1 [_ [_ [_ [_ [H2 _]]]]]]]]].
  exists doc, d'. split; assumption.
Defined.

(** X14: in every state reached from the empty store, [create_player]
    whose team identifier is absent, empty or well formed succeeds
    without looking the team up: it stores one new player after the
    others, under an identity no stored player has, with the fields of
    the request and the converted team identifier, touches no team, and
    returns that document.  When a team identifier was given,
    [list_players] for it then lists the player. *)
Theorem create_player_stores_and_lists :
  forall (reqs : list (Z * Request)) (d : Database) (now : Z)
         (player : PlayerCreate) (t : IdField),
    serve_all reqs (Some empty_db) = Some d ->
    convert_id (pc_team_id player) = Ok t ->
    exists doc d',
      create_player now player (Some d) = (Ok (Some doc), Some d')
      /\ db_player d' = db_player d ++ [doc]
      /\ db_team d' = db_team d
      /\ db_match d' = db_match d
      /\ (forall p, In p (db_player d) -> p_id p <> p_id doc)
      /\ p_team_id doc = t
      /\ p_name doc = pc_name player
      /\ p_position doc = pc_position player
      /\ p_number doc = pc_number player
      /\ p_country doc = pc_country player
      /\ p_city doc = pc_city player
      /\ (forall s o,
            pc_team_id player = Some s -> ObjectId_of_str s = Some o ->
            exists players,
              list_players (Some s) (Some d') = (Ok players, Some d')
              /\ In doc players).
Proof.
  intros reqs d now player t Hrun Ht.
  destruct (reachable_ids_fresh reqs d Hrun) as [_ [Hp _]].
  set (doc := mkPlayerDoc (next_oid d) (pc_name player) (pc_position player) t
                          (pc_number player) (pc_country player)
                          (pc_city player) (pc_avatar_url player) now now).
  set (d' := mkDatabase (db_team d) (db_player d ++ [doc]) (db_match d)
                        (N.succ (next_oid d))).
  assert (Hc : create_player now player (Some d) = (Ok (Some doc), Some d')).
  { unfold create_player. run_app. rewrite Ht. simpl.
    rewrite find_one_app_miss.
    - simpl. rewrite N.eqb_refl. reflexivity.
    - intros x Hx. apply N.eqb_neq. specialize (Hp x Hx). lia. }
  exists doc, d'. split; [exact Hc|].
  do 3 (split; [reflexivity|]).
  split; [intros p Hin; specialize (Hp p Hin); simpl; lia|].
  do 6 (split; [reflexivity|]).
  intros s o Hs Ho.
  assert (Hne : String.eqb s EmptyString = false).
  { destruct (String.eqb s EmptyString) eqn:E; [|reflexivity].
    apply String.eqb_eq in E. subst s. discriminate. }
  assert (Hto : t = IdOid o).
  { revert Ht. unfold convert_id. rewrite Hs, Hne.
    rewrite (to_object_id_str_ok _ _ Ho). congruence. }
  rewrite list_players_run. simpl. rewrite Hne, Ho.
  eexists. split; [reflexivity|].
  apply (perm_in_iff doc _ _ (sort_by_name_perm p_name _)).
  unfold find_all, on_team. apply filter_In. split.
  - simpl. apply in_or_app. right. now left.
  - simpl. rewrite Hto. apply N.eqb_refl.
Qed.

(** Instance of [create_player_stores_and_lists]: a player is created
    for a team that is not stored. *)
Lemma create_player_stores_and_lists_witness :
  (serve_all [] (Some empty_db) = Some empty_db
   /\ convert_id (pc_team_id Scenario.player_p) = Ok (IdOid 1%N))
  /\ exists doc d',
      create_player 1 Scenario.player_p (Some empty_db)
      = (Ok (Some doc), Some d')
      /\ db_team d' = []
      /\ p_team_id doc = IdOid 1%N.
Proof.
  split; [split; reflexivity|].
  destruct (create_player_stores_and_lists [] empty_db 1 Scenario.player_p
              (IdOid 1%N) eq_refl eq_refl)
    as [doc [d' [H1 [_ [H3 [_ [_ [H6 _]]]]]]]].
  exists doc, d'. repeat split; assumption.
Defined.

(** * Further properties: formations *)

Section FormationFacts.
Context {P : Type}.

Lemma of_team_eq (o : ObjectId) (f : FormationDoc P) :
  of_team o f = true <-> f_team_id f = o.
Proof. unfold of_team. apply N.eqb_eq. Qed.

Lemma with_id_eq (o : ObjectId) (f : FormationDoc P) :
  with_id o f = true <-> f_id f = o.
Proof. unfold with_id. apply N.eqb_eq. Qed.

Lemma get_formation_run (team_id : string) (o : ObjectId) (d : Database)
  (fs : list (FormationDoc P)) :
  ObjectId_of_str team_id = Some o ->
  get_formation team_id (Some (d, fs))
  = (match find_one (of_team o) fs with
     | None => Ok (FormationDefault team_id)
     | Some doc => Ok (FormationStored doc)
     end, Some (d, fs)).
Proof.
  intro Ho. unfold get_formation. rewrite (to_object_id_str_ok _ _ Ho).
  now destruct (find_one (of_team o) fs).
Qed.

Lemma find_after_update (o : ObjectId) (g : FormationDoc P -> FormationDoc P)
  (fs : list (FormationDoc P)) (e : FormationDoc P) :
  (forall y, of_team o (g y) = true) ->
  find_one (of_team o) fs = Some e ->
  exists x,
    find_one (with_id (f_id e)) fs = Some x
    /\ find_one (of_team o) (update_one (with_id (f_id e)) g fs) = Some (g x).
Proof.
  intros Hg. unfold find_one.
  induction fs as [|a fs IH]; simpl; [discriminate|].
  intro Hf. destruct (with_id (f_id e) a) eqn:Ha.
  - exists a. split; [reflexivity|]. simpl. now rewrite Hg.
  - destruct (of_team o a) eqn:Ho.
    + inversion Hf; subst a. unfold with_id in Ha.
      rewrite N.eqb_refl in Ha. discriminate.
    + destruct (IH Hf) as [x [H1 H2]]. exists x. split; [exact H1|].
      simpl. now rewrite Ho.
Qed.

Lemma find_by_unique_id (fs : list (FormationDoc P)) (e : FormationDoc P) :
  NoDup (map f_id fs) -> In e fs -> find_one (with_id (f_id e)) fs = Some e.
Proof.
  unfold find_one. induction fs as [|a fs IH]; simpl; [tauto|].
  intros Hnd Hin. inversion Hnd as [|x xs Hnotin Hnd']; subst.
  destruct (with_id (f_id e) a) eqn:Ha.
  - destruct Hin as [Hin|Hin]; [now subst|].
    apply with_id_eq in Ha. exfalso. apply Hnotin. rewrite Ha.
    now apply in_map.
  - destruct Hin as [Hin|Hin]; [|now apply IH].
    subst a. unfold with_id in Ha. rewrite N.eqb_refl in Ha. discriminate.
Qed.

Lemma unique_id_eq (fs : list (FormationDoc P)) (x y : FormationDoc P) :
  NoDup (map f_id fs) -> In x fs -> In y fs -> f_id x = f_id y -> x = y.
Proof.
  intros Hnd Hx Hy Heq.
  pose proof (find_by_unique_id fs x Hnd Hx) as H1.
  pose proof (find_by_unique_id fs y Hnd Hy) as H2.
  rewrite Heq in H1. congruence.
Qed.

Lemma update_one_map {B : Type} (h : FormationDoc P -> B)
  (p : FormationDoc P -> bool) (g : FormationDoc P -> FormationDoc P)
  (fs : list (FormationDoc P)) :
  (forall y, In y fs -> p y = true -> h (g y) = h y) ->
  map h (update_one p g fs) = map h fs.
Proof.
  induction fs as [|a fs IH]; simpl; intro H; [reflexivity|].
  destruct (p a) eqn:Ha; simpl.
  - rewrite (H a (or_introl eq_refl) Ha). reflexivity.
  - rewrite IH; [reflexivity|]. intros y Hy. apply H. now right.
Qed.

Lemma update_one_keeps (p : FormationDoc P -> bool)
  (g : FormationDoc P -> FormationDoc P) (fs : list (FormationDoc P))
  (f : FormationDoc P) :
  In f fs -> p f = false -> In f (update_one p g fs).
Proof.
  induction fs as [|a fs IH]; simpl; [tauto|].
  intros [Hin|Hin] Hp.
  - subst a. rewrite Hp. now left.
  - destruct (p a); right; [exact Hin|now apply IH].
Qed.

Lemma one_per_team (fs : list (FormationDoc P)) (o : ObjectId) :
  NoDup (map f_team_id fs) ->
  (List.length (filter (of_team o) fs) <= 1)%nat.
Proof.
  induction fs as [|a fs IH]; simpl; intro Hnd; [lia|].
  inversion Hnd as [|x xs Hnotin Hnd']; subst.
  destruct (of_team o a) eqn:Ha; [|now apply IH].
  apply of_team_eq in Ha. rewrite filter_none; [simpl; lia|].
  intros y Hy. unfold of_team. apply N.eqb_neq. intro Hyo.
  apply Hnotin. rewrite Ha, <- Hyo. now apply in_map.
Qed.

Lemma save_formation_found (drv : Driver P) (now later : Z)
  (payload : FormationSave P) (d : Database) (fs : list (FormationDoc P))
  (o : ObjectId) (e : FormationDoc P) :
  ObjectId_of_str (fs_team_id payload) = Some o ->
  find_one (of_team o) fs = Some e ->
  update_error drv payload = None ->
  NoDup (map f_id fs) ->
  save_formation drv now later payload (Some (d, fs))
  = (Ok (Some (set_formation o payload now e)),
     Some (d, update_one (with_id (f_id e)) (set_formation o payload now) fs)).
Proof.
  intros Ho Hf Hu Hnd. unfold save_formation.
  rewrite (to_object_id_str_ok _ _ Ho), Hf, Hu. cbv zeta. f_equal. f_equal.
  apply find_update_one.
  - apply find_by_unique_id; [exact Hnd|].
    unfold find_one in Hf. now apply find_some in Hf.
  - unfold with_id. simpl. apply N.eqb_refl.
Qed.

Lemma save_formation_refused (drv : Driver P) (now later : Z)
  (payload : FormationSave P) (d : Database) (fs : list (FormationDoc P))
  (o : ObjectId) (e : Exception) :
  ObjectId_of_str (fs_team_id payload) = Some o ->
  write_error drv payload (find_one (of_team o) fs) = Some e ->
  save_formation drv now later payload (Some (d, fs))
  = (Raise e, Some (d, fs)).
Proof.
  intros Ho He. unfold save_formation, write_error in *.
  rewrite (to_object_id_str_ok _ _ Ho).
  destruct (find_one (of_team o) fs); now rewrite He.
Qed.

Lemma update_keeps_store_ok (now : Z) (payload : FormationSave P)
  (d : Database) (fs : list (FormationDoc P)) (o : ObjectId)
  (e : FormationDoc P) :
  store_ok (d, fs) ->
  find_one (of_team o) fs = Some e ->
  let fs' := update_one (with_id (f_id e)) (set_formation o payload now) fs in
  map f_id fs' = map f_id fs
  /\ map f_team_id fs' = map f_team_id fs
  /\ map f_created_at fs' = map f_created_at fs
  /\ store_ok (d, fs').
Proof.
  intros [Hid [Htm Hfresh]] Hf fs'. simpl in Hid, Htm, Hfresh.
  assert (He : In e fs /\ f_team_id e = o).
  { unfold find_one in Hf. apply find_some in Hf.
    split; [tauto|]. now apply of_team_eq. }
  destruct He as [Hin Hteam].
  assert (H1 : map f_id fs' = map f_id fs)
    by (apply update_one_map; reflexivity).
  assert (H2 : map f_team_id fs' = map f_team_id fs).
  { apply update_one_map. intros y Hy Hp. apply with_id_eq in Hp.
    rewrite (unique_id_eq fs y e Hid Hy Hin Hp). simpl. now rewrite Hteam. }
  assert (H3 : map f_created_at fs' = map f_created_at fs)
    by (apply update_one_map; reflexivity).
  split; [exact H1|]. split; [exact H2|]. split; [exact H3|].
  unfold store_ok. simpl. rewrite H1, H2.
  split; [exact Hid|]. split; [exact Htm|].
  intros f Hf'. apply in_update_one in Hf'.
  destruct Hf' as [Hf'|[x [Hx Hfx]]]; [now apply Hfresh|].
  subst f. simpl. apply Hfresh. unfold find_one in Hx.
  now apply find_some in Hx.
Qed.

Lemma nodup_snoc {A : Type} (l : list A) (x : A) :
  NoDup l -> ~ In x l -> NoDup (l ++ [x]).
Proof.
  induction l as [|a l IH]; simpl; intros Hnd Hx.
  - constructor; [tauto|constructor].
  - inversion Hnd as [|y ys Hnotin Hnd']; subst. constructor.
    + intro Hin. apply in_app_or in Hin. simpl in Hin.
      destruct Hin as [Hin|[Hin|[]]]; [tauto|]. subst. tauto.
    + apply IH; tauto.
Qed.

Lemma step_fresh_next (d d' : Database) :
  step_fresh d d' -> (next_oid d <= next_oid d')%N.
Proof. intro H. destruct H; simpl; lia. Qed.

Lemma serve_store_ok (drv : Driver P) (now later : Z) (r : StoreRequest P)
  (s : Store P) :
  store_ok s ->
  exists s', serve_store drv now later r (Some s) = Some s' /\ store_ok s'.
Proof.
  destruct s as [d fs]. intro Hok. destruct r as [c|payload|team_id]; simpl.
  - destruct (serve_step_fresh now c d) as [d' [Hs Hst]]. rewrite Hs.
    exists (d', fs). split; [reflexivity|].
    destruct Hok as [Hid [Htm Hfresh]]. repeat split; try assumption.
    simpl in *. intros f Hf. specialize (Hfresh f Hf).
    apply step_fresh_next in Hst. lia.
  - unfold save_formation.
    destruct (to_object_id_str (fs_team_id payload)) as [o|e] eqn:Ho;
      [|exists (d, fs); split; [reflexivity|exact Hok]].
    destruct (find_one (of_team o) fs) as [e|] eqn:Hf;
      [destruct (update_error drv payload)
      |destruct (insert_error drv payload)];
      try (exists (d, fs); split; [reflexivity|exact Hok]);
      cbv zeta; simpl.
    + eexists. split; [reflexivity|].
      apply (update_keeps_store_ok now payload d fs o e Hok Hf).
    + eexists. split; [reflexivity|].
      destruct Hok as [Hid [Htm Hfresh]]. simpl in *.
      unfold store_ok. simpl. rewrite !map_app. simpl.
      split; [|split].
      * apply nodup_snoc; [exact Hid|].
        intro Hin. apply in_map_iff in Hin. destruct Hin as [x [Hx Hin]].
        specialize (Hfresh x Hin). lia.
      * apply nodup_snoc; [exact Htm|].
        intro Hin. apply in_map_iff in Hin. destruct Hin as [x [Hx Hin]].
        pose proof (find_none _ _ Hf x Hin) as Hno.
        unfold of_team in Hno. apply N.eqb_neq in Hno. congruence.
      * intros f Hin. apply in_app_or in Hin.
        destruct Hin as [Hin|[Hin|[]]].
        -- specialize (Hfresh f Hin). lia.
        -- subst f. simpl. lia.
  - unfold get_formation.
    exists (d, fs). split; [|exact Hok].
    destruct (to_object_id_str team_id); [|reflexivity].
    now destruct (find_one _ fs).
Qed.

End FormationFacts.

(** An identifier of 24 characters with whitespace is accepted: the
    team has no formation, and the default is returned. *)
Example get_formation_whitespace :
  get_formation "0000000000000000000001  "
    (Some (empty_store (string * Z * Z)))
  = (Ok (FormationDefault "0000000000000000000001  "),
     Some (empty_store (string * Z * Z))).
Proof. reflexivity. Qed.

(** The encoder's limit in the model driver: a coordinate of 2^70
    makes the save fail with the driver's [OverflowError], and nothing
    is written. *)
Example save_formation_overflow :
  save_formation xy_driver 5 6
    (mkFormationSave Scenario.id1 "2-2" [ ("p1", 2 ^ 70, 0) ])
    (Some (empty_store (string * Z * Z)))
  = (Raise OverflowError, Some (empty_store (string * Z * Z))).
Proof. reflexivity. Qed.

(** X15: saving a formation and reading it back.  For any store and
    any payload whose team identifier is well formed and that the
    driver accepts for the write, [save_formation] succeeds (whether or
    not such a team exists), and [get_formation] for that team then
    returns a stored formation of that team with the name and the
    positions of the payload and the time of the save as [updated_at];
    in a store with distinct, already issued identities it is the
    document the save returned.  Before any save for a team,
    [get_formation] does not fail either: it returns the default, with
    the identifier as it was given. *)
Theorem save_formation_then_get :
  forall (P : Type) (drv : Driver P) (now later : Z)
         (payload : FormationSave P) (d : Database)
         (fs : list (FormationDoc P)) (o : ObjectId),
    ObjectId_of_str (fs_team_id payload) = Some o ->
    (find_one (of_team o) fs = None ->
     exists r,
       get_formation (fs_team_id payload) (Some (d, fs)) = (Ok r, Some (d, fs))
       /\ r = FormationDefault (fs_team_id payload)
       /\ response_name r = "Default"
       /\ response_positions r = [])
    /\ (write_error drv payload (find_one (of_team o) fs) = None ->
        exists saved s' doc,
          save_formation drv now later payload (Some (d, fs))
          = (Ok saved, Some s')
          /\ get_formation (fs_team_id payload) (Some s')
             = (Ok (FormationStored doc), Some s')
          /\ f_team_id doc = o
          /\ f_name doc = fs_name payload
          /\ f_positions doc = fs_positions payload
          /\ f_updated_at doc = now
          /\ (store_ok (d, fs) -> saved = Some doc)).
Proof.
  intros P drv now later payload d fs o Ho. split.
  { intro Hnone. eexists. rewrite (get_formation_run _ o _ _ Ho), Hnone.
    repeat split. }
  intro Hw. unfold write_error in Hw.
  destruct (find_one (of_team o) fs) as [e|] eqn:Hf.
  - destruct (find_after_update o (set_formation o payload now) fs e)
      as [x [Hx Hfound]]; [intro y; apply N.eqb_refl|exact Hf|].
    exists (find_one (with_id (f_id e))
              (update_one (with_id (f_id e)) (set_formation o payload now) fs)),
      (d, update_one (with_id (f_id e)) (set_formation o payload now) fs),
      (set_formation o payload now x).
    split.
    { unfold save_formation. rewrite (to_object_id_str_ok _ _ Ho), Hf, Hw.
      reflexivity. }
    unfold get_formation. rewrite (to_object_id_str_ok _ _ Ho), Hfound.
    split; [reflexivity|]. do 4 (split; [reflexivity|]).
    intros [Hnd _]. simpl in Hnd.
    apply find_update_one; [exact Hx|].
    unfold find_one in Hx. apply find_some in Hx. destruct Hx as [_ Hx].
    apply with_id_eq in Hx. apply with_id_eq. exact Hx.
  - set (doc := mkFormationDoc (next_oid d) o (fs_name payload)
                               (fs_positions payload) now later).
    exists (find_one (with_id (next_oid d)) (fs ++ [doc])),
      (next_identity d, fs ++ [doc]), doc.
    split.
    { unfold save_formation. rewrite (to_object_id_str_ok _ _ Ho), Hf, Hw.
      reflexivity. }
    unfold get_formation. rewrite (to_object_id_str_ok _ _ Ho).
    rewrite find_one_app_miss
      by (intros x Hx; exact (find_none _ _ Hf x Hx)).
    simpl. unfold of_team at 1. simpl. rewrite N.eqb_refl.
    split; [reflexivity|]. do 4 (split; [reflexivity|]).
    intros [_ [_ Hfresh]]. simpl in Hfresh.
    rewrite find_one_app_miss.
    + simpl. unfold with_id. simpl. now rewrite N.eqb_refl.
    + intros x Hx. unfold with_id. apply N.eqb_neq.
      specialize (Hfresh x Hx). lia.
Qed.

(** Instance of [save_formation_then_get]: a first formation for the
    team with identity 1 in an empty store, which has no such team. *)
Lemma save_formation_then_get_witness :
  (ObjectId_of_str Scenario.id1 = Some 1%N
   /\ write_error xy_driver
        (mkFormationSave Scenario.id1 "2-2" [ ("p1", 10, 20); ("p2", 30, 40) ])
        None = None)
  /\ exists saved s' doc,
      save_formation xy_driver 5 6
        (mkFormationSave Scenario.id1 "2-2" [ ("p1", 10, 20); ("p2", 30, 40) ])
        (Some (empty_store (string * Z * Z)))
      = (Ok saved, Some s')
      /\ get_formation Scenario.id1 (Some s')
         = (Ok (FormationStored doc), Some s')
      /\ f_name doc = "2-2"
      /\ f_positions doc = [ ("p1", 10, 20); ("p2", 30, 40) ].
Proof.
  split; [split; reflexivity|].
  destruct (proj2 (save_formation_then_get (string * Z * Z) xy_driver 5 6
              (mkFormationSave Scenario.id1 "2-2"
                 [ ("p1", 10, 20); ("p2", 30, 40) ])
              empty_db [] 1%N eq_refl) eq_refl)
    as [saved [s' [doc [H1 [H2 [_ [H4 [H5 _]]]]]]]].
  exists saved, s', doc. repeat split; assumption.
Defined.

(** X16: one formation per team.  Whatever requests are served from
    the empty store, and whatever the driver accepts or refuses, the
    store stays configured, the identities of the stored formations
    are distinct and were issued before the next identity, and no team
    has more than one formation. *)
Theorem formations_one_per_team :
  forall (P : Type) (drv : Driver P) (reqs : list (Z * Z * StoreRequest P)),
  exists s,
    serve_store_all drv reqs (Some (empty_store P)) = Some s
    /\ store_ok s
    /\ forall o, (List.length (filter (of_team o) (snd s)) <= 1)%nat.
Proof.
  intros P drv reqs.
  assert (H : forall s0 : Store P, store_ok s0 ->
            exists s, serve_store_all drv reqs (Some s0) = Some s
                      /\ store_ok s).
  { induction reqs as [|[[now later] r] reqs IH]; simpl; intros s0 Hok.
    - now exists s0.
    - destruct (serve_store_ok drv now later r s0 Hok) as [s1 [Hs Hok1]].
      rewrite Hs. now apply IH. }
  destruct (H (empty_store P)) as [s [Hs Hok]].
  - unfold store_ok, empty_store. simpl.
    split; [constructor|]. split; [constructor|]. intros f [].
  - exists s. split; [exact Hs|]. split; [exact Hok|].
    intro o. apply one_per_team. apply Hok.
Qed.

(** X17: a later save replaces in place.  In a store with distinct,
    already issued identities, saving a formation that the driver
    accepts for a team that has one returns the stored document with
    the new name, positions and [updated_at] and with its identity and
    [created_at] kept; the collection keeps its identities, teams and
    creation times in order, every other formation is kept as it was,
    and no identity is consumed. *)
Theorem save_formation_replaces :
  forall (P : Type) (drv : Driver P) (now later : Z)
         (payload : FormationSave P) (d : Database)
         (fs : list (FormationDoc P)) (o : ObjectId) (e : FormationDoc P),
    ObjectId_of_str (fs_team_id payload) = Some o ->
    store_ok (d, fs) ->
    find_one (of_team o) fs = Some e ->
    update_error drv payload = None ->
    exists saved fs',
      save_formation drv now later payload (Some (d, fs))
      = (Ok (Some saved), Some (d, fs'))
      /\ f_id saved = f_id e
      /\ f_created_at saved = f_created_at e
      /\ f_name saved = fs_name payload
      /\ f_positions saved = fs_positions payload
      /\ f_updated_at saved = now
      /\ In saved fs'
      /\ map f_id fs' = map f_id fs
      /\ map f_team_id fs' = map f_team_id fs
      /\ map f_created_at fs' = map f_created_at fs
      /\ (forall f, In f fs -> f <> e -> In f fs')
      /\ store_ok (d, fs').
Proof.
  intros P drv now later payload d fs o e Ho Hok Hf Hu.
  pose proof Hok as [Hid _]. simpl in Hid.
  assert (Hin : In e fs)
    by (unfold find_one in Hf; now apply find_some in Hf).
  destruct (update_keeps_store_ok now payload d fs o e Hok Hf)
    as [H1 [H2 [H3 H4]]].
  exists (set_formation o payload now e),
    (update_one (with_id (f_id e)) (set_formation o payload now) fs).
  split; [now apply save_formation_found|].
  do 5 (split; [reflexivity|]).
  split.
  { assert (Hfind : find_one (with_id (f_id e))
                      (update_one (with_id (f_id e))
                         (set_formation o payload now) fs)
                    = Some (set_formation o payload now e)).
    { apply find_update_one; [now apply find_by_unique_id|].
      unfold with_id. simpl. apply N.eqb_refl. }
    unfold find_one in Hfind. now apply find_some in Hfind. }
  split; [exact H1|]. split; [exact H2|]. split; [exact H3|].
  split; [|exact H4].
  intros f Hfin Hne. apply update_one_keeps; [exact Hfin|].
  unfold with_id. apply N.eqb_neq. intro Heq. apply Hne.
  now apply (unique_id_eq fs f e Hid Hfin Hin).
Qed.

(** Instance of [save_formation_replaces]: the team with identity 1
    has the formation with identity 7, created at time 3; a save at
    time 9 renames it. *)
Lemma save_formation_replaces_witness :
  exists saved fs',
    save_formation xy_driver 9 10
      (mkFormationSave Scenario.id1 "3-1" [ ("p1", 50, 50) ])
      (Some (mkDatabase [] [] [] 8%N,
             [ mkFormationDoc 7%N 1%N "2-2" [ ("p1", 10, 20) ] 3 3 ]))
    = (Ok (Some saved), Some (mkDatabase [] [] [] 8%N, fs'))
    /\ f_id saved = 7%N
    /\ f_created_at saved = 3
    /\ f_name saved = "3-1".
Proof.
  assert (Hok : store_ok (mkDatabase [] [] [] 8%N,
                          [ mkFormationDoc 7%N 1%N "2-2"
                              [ (("p1", 10), 20) ] 3 3 ])).
  { unfold store_ok. simpl. split; [|split].
    - constructor; [intros []|constructor].
    - constructor; [intros []|constructor].
    - intros f [Hf|[]]. subst f. simpl. lia. }
  destruct (save_formation_replaces (string * Z * Z) xy_driver 9 10
              (mkFormationSave Scenario.id1 "3-1" [ ("p1", 50, 50) ])
              (mkDatabase [] [] [] 8%N)
              [ mkFormationDoc 7%N 1%N "2-2" [ ("p1", 10, 20) ] 3 3 ]
              1%N (mkFormationDoc 7%N 1%N "2-2" [ ("p1", 10, 20) ] 3 3)
              eq_refl Hok eq_refl eq_refl)
    as [saved [fs' [H1 [H2 [H3 [H4 _]]]]]].
  exists saved, fs'. repeat split; assumption.
Defined.

(** X18: how the formation handlers fail.  With a configured store,
    [get_formation] raises exactly when [ObjectId] rejects the team
    identifier, and the error is then the 400 naming that identifier.
    [save_formation] raises in that case and in one more: when the
    identifier is accepted and the driver refuses the document in the
    write the handler comes to, the update for a team that has a
    formation and the insertion otherwise; the exception is then the
    driver's.  A failed save leaves the store as it was, and
    [get_formation] never changes it. *)
Theorem formation_errors :
  forall (P : Type) (drv : Driver P) (now later : Z)
         (payload : FormationSave P) (d : Database)
         (fs : list (FormationDoc P)) (e : Exception),
    (fst (save_formation drv now later payload (Some (d, fs))) = Raise e
     <-> (ObjectId_of_str (fs_team_id payload) = None
          /\ e = invalid_id (fs_team_id payload))
         \/ exists o,
              ObjectId_of_str (fs_team_id payload) = Some o
              /\ write_error drv payload (find_one (of_team o) fs) = Some e)
    /\ (fst (get_formation (fs_team_id payload) (Some (d, fs))) = Raise e
        <-> ObjectId_of_str (fs_team_id payload) = None
            /\ e = invalid_id (fs_team_id payload))
    /\ (fst (save_formation drv now later payload (Some (d, fs))) = Raise e ->
        snd (save_formation drv now later payload (Some (d, fs)))
        = Some (d, fs))
    /\ snd (get_formation (fs_team_id payload) (Some (d, fs))) = Some (d, fs).
Proof.
  intros P drv now later payload d fs e.
  unfold save_formation, get_formation, to_object_id_str, write_error.
  destruct (ObjectId_of_str (fs_team_id payload)) as [o|]; simpl.
  - split.
    { split.
      - intro H. right. exists o. split; [reflexivity|].
        destruct (find_one (of_team o) fs);
          [destruct (update_error drv payload)
          |destruct (insert_error drv payload)];
          simpl in H; congruence.
      - intros [[H _]|[o' [Ho H]]]; [discriminate|].
        inversion Ho; subst o'.
        destruct (find_one (of_team o) fs); rewrite H; reflexivity. }
    split.
    { destruct (find_one (of_team o) fs); simpl;
        (split; [discriminate|intros [H _]; discriminate]). }
    split.
    { destruct (find_one (of_team o) fs);
        [destruct (update_error drv payload)
        |destruct (insert_error drv payload)];
        simpl; intro H; try reflexivity; discriminate. }
    destruct (find_one (of_team o) fs); reflexivity.
  - split.
    { split.
      - intro H. left. inversion H. auto.
      - intros [[_ H]|[o [Ho _]]]; [now subst|discriminate]. }
    split; [split; [intro H; inversion H; auto|intros [_ H]; now subst]|].
    split; reflexivity.
Qed.
